(** * Back-adjusted continuous futures series: a shallow embedding

    This development embeds the three scripts that build the continuous
    ES series and states their specification as theorems:

    - [scripts/build-es-1s-continuous.py], the streaming two-pass builder
      (module [Streaming]);
    - [scripts/build-es-continuous.py], the in-memory builder that detects
      rollovers, measures spreads and writes the rollover log
      (module [Batch]);
    - [scripts/build-es-lt-continuous.py], the auxiliary-series adjuster
      for liquidity levels (module [Levels]).

    Prices are Python [float]s.  Every definition is written over an
    arbitrary carrier [num] with the operations the scripts use (class
    [Arith]), so that it can be run on IEEE binary64 (instance
    [float_arith], the arithmetic CPython uses) and on exact integers
    (instance [Z_arith]).  Statements that only hold when no rounding takes
    place carry the laws of exact arithmetic as an explicit assumption
    (class [ExactArith]). *)

From Stdlib Require Import ZArith List String Ascii Bool Lia.
From Stdlib Require Import Floats.PrimFloat Floats.FloatOps Floats.SpecFloat.
From Stdlib Require Import Floats.FloatAxioms.
From stdpp Require Import gmap strings list sorting.

Open Scope string_scope.
Open Scope list_scope.

(** ** Numbers *)

(** The operations of Python's [float] that the scripts use. *)
Class Arith (num : Type) := {
  fzero : num;                         (* the literal [0.0] *)
  fadd : num -> num -> num;            (* [x + y] *)
  fsub : num -> num -> num;            (* [x - y] *)
  fneg : num -> num;                   (* [-x] *)
  fhalf : num -> num;                  (* [x / 2] *)
  fltb : num -> num -> bool;           (* [x < y] *)
  feqb : num -> num -> bool;           (* [x == y] *)
  fround2 : num -> num;                (* [round(x, 2)] *)
  fnan : num;                          (* [float("nan")] *)
  float_of_string : string -> option num
                                       (* [float(s)]; [None] for ValueError *)
}.

(** The laws of arithmetic without rounding. *)
Class ExactArith (num : Type) `{Arith num} : Prop := {
  fadd_comm : forall x y : num, fadd x y = fadd y x;
  fadd_assoc : forall x y z : num, fadd x (fadd y z) = fadd (fadd x y) z;
  fadd_zero_r : forall x : num, fadd x fzero = x;
  fadd_neg_r : forall x : num, fadd x (fneg x) = fzero;
  fsub_def : forall x y : num, fsub x y = fadd x (fneg y)
}.

(** What the scripts rely on around zero.  The three laws hold in exact
    arithmetic and in binary64, where [-0.0] and [0.0] are two numbers
    that compare equal. *)
Class ZeroLaws (num : Type) `{Arith num} : Prop := {
  fneg_zero_eq : feqb (fneg fzero) fzero = true;
  fadd_neg_zero : forall x : num, fadd x (fneg fzero) = x;
  fadd_zero_same : forall x : num, fadd x fzero = x \/ feqb (fadd x fzero) x = true
}.

(** Subtracting is adding the opposite: a law of exact arithmetic that
    binary64 keeps. *)
Class SubLaw (num : Type) `{Arith num} : Prop :=
  fsub_fadd_fneg : forall x y : num, fsub x y = fadd x (fneg y).

(** [<] is a strict order: what [max] relies on.  It holds in exact
    arithmetic and in binary64, where NaN is below and above nothing. *)
Class OrderLaws (num : Type) `{Arith num} : Prop := {
  fltb_irrefl : forall x : num, fltb x x = false;
  fltb_trans : forall x y z : num, fltb x y = true -> fltb y z = true -> fltb x z = true
}.

(** Two numbers that are the same or compare equal with [==]. *)
Definition same_number {num : Type} `{Arith num} (x y : num) : Prop :=
  x = y \/ feqb x y = true.

(** [x != x], which holds of NaN and of no other number: how pandas tells
    a missing value in a series of floats. *)
Definition isna {num : Type} `{Arith num} (x : num) : bool := negb (feqb x x).

(** *** Decimal digits *)

Definition is_digit (c : ascii) : bool :=
  let n := nat_of_ascii c in (48 <=? n)%nat && (n <=? 57)%nat.

Definition digit_val (c : ascii) : Z := Z.of_nat (nat_of_ascii c) - 48.

(** Reads a maximal run of decimal digits: its value, its length, the rest. *)
Fixpoint read_digits (s : string) (acc : Z) (len : nat) : Z * nat * string :=
  match s with
  | String c rest =>
      if is_digit c then read_digits rest (10 * acc + digit_val c) (S len)
      else (acc, len, s)
  | EmptyString => (acc, len, s)
  end.

Definition read_sign (s : string) : bool * string :=
  match s with
  | String "-" rest => (true, rest)
  | String "+" rest => (false, rest)
  | _ => (false, s)
  end.

(** The blanks that [float] and [int] strip from both ends of their
    argument: the space and the controls from tab to carriage return. *)
Definition is_space (c : ascii) : bool :=
  let n := nat_of_ascii c in ((9 <=? n) && (n <=? 13) || (n =? 32))%nat.

Fixpoint lstrip (s : string) : string :=
  match s with
  | String c rest => if is_space c then lstrip rest else s
  | EmptyString => s
  end.

Fixpoint rstrip (s : string) : string :=
  match s with
  | String c rest =>
      match rstrip rest with
      | EmptyString => if is_space c then EmptyString else String c EmptyString
      | rest' => String c rest'
      end
  | EmptyString => EmptyString
  end.

(** Digit separators: an underscore is dropped when it stands between two
    digits, and makes the literal invalid anywhere else. *)
Fixpoint drop_underscores (after_digit : bool) (s : string) : option string :=
  match s with
  | EmptyString => Some EmptyString
  | String c rest =>
      if Ascii.eqb c "_" then
        match rest with
        | String d _ =>
            if after_digit && is_digit d then drop_underscores false rest else None
        | EmptyString => None
        end
      else option_map (String c) (drop_underscores (is_digit c) rest)
  end.

Definition lower_char (c : ascii) : ascii :=
  let n := nat_of_ascii c in
  if ((65 <=? n) && (n <=? 90))%nat then ascii_of_nat (n + 32) else c.

Fixpoint lower (s : string) : string :=
  match s with
  | String c rest => String (lower_char c) (lower rest)
  | EmptyString => EmptyString
  end.

(** *** Binary64 *)

(** The binary64 number nearest to [n / d] (ties to even) with sign [sg],
    for [0 <= n] and [0 < d]: the quotient is taken with more than 64
    significant bits and a sticky bit, then rounded once. *)
Definition nearest_binary64 (sg : bool) (n d : Z) : float :=
  if (n <=? 0)%Z then SF2Prim (S754_zero sg)
  else
    let s := Z.max 0 (66 + Z.log2 d - Z.log2 n) in
    let q := (n * 2 ^ s / d)%Z in
    let sticky := if (n * 2 ^ s mod d =? 0)%Z then 0%Z else 1%Z in
    let m := (2 * q + sticky)%Z in
    SF2Prim (binary_normalize prec emax (if sg then - m else m)%Z (- s - 1) sg).

(** [round(x, 2)] on binary64: the exact value of [x] is rounded to the
    nearest multiple of 1/100, ties to even, and the decimal obtained is
    converted back to the nearest binary64 number.  Numbers of magnitude
    2^52 or more are integers and round to themselves, as do zeros,
    infinities and NaN. *)
Definition float_round2 (x : float) : float :=
  match Prim2SF x with
  | S754_finite sg m e =>
      if (0 <=? e)%Z then x
      else
        let d := (2 ^ (- e))%Z in
        let n := (Z.pos m * 100)%Z in
        let q := (n / d)%Z in
        let r := (n mod d)%Z in
        let k := if (2 * r <? d)%Z then q
                 else if (d <? 2 * r)%Z then (q + 1)%Z
                 else if Z.even q then q else (q + 1)%Z in
        nearest_binary64 sg k 100
  | _ => x
  end.

(** The exponent part of a decimal literal: nothing, or [e] or [E], an
    optional sign and at least one digit. *)
Definition float_exponent (s : string) : option Z :=
  match s with
  | EmptyString => Some 0%Z
  | String c rest =>
      if (Ascii.eqb c "e" || Ascii.eqb c "E")%bool then
        let '(sg, rest1) := read_sign rest in
        match read_digits rest1 0 0 with
        | (v, S _, EmptyString) => Some (if sg then - v else v)%Z
        | _ => None
        end
      else None
  end.

(** A decimal literal without its sign: digits with an optional fraction,
    at least one digit in all, and an optional exponent. *)
Definition float_decimal (sg : bool) (s1 : string) : option float :=
  let '(ip, ilen, s2) := read_digits s1 0 0 in
  let '(fp, flen, s3) :=
    match s2 with
    | String "." rest => read_digits rest 0 0
    | _ => (0%Z, 0%nat, s2)
    end in
  if (ilen + flen =? 0)%nat then None
  else
    match float_exponent s3 with
    | None => None
    | Some ex =>
        let mant := (ip * 10 ^ Z.of_nat flen + fp)%Z in
        let sc := (ex - Z.of_nat flen)%Z in
        Some (if (0 <=? sc)%Z then nearest_binary64 sg (mant * 10 ^ sc) 1
              else nearest_binary64 sg mant (10 ^ (- sc)))
    end.

(** [float(s)] on binary64, for ASCII text: digit separators are dropped,
    blanks are stripped from both ends, and what is left is a sign
    followed by a decimal literal or by one of the spellings of infinity
    and NaN, in any case.  Everything else is rejected. *)
Definition float_parse (s : string) : option float :=
  match drop_underscores false s with
  | None => None
  | Some s0 =>
      let '(sg, s1) := read_sign (rstrip (lstrip s0)) in
      let word := lower s1 in
      if (String.eqb word "inf" || String.eqb word "infinity")%bool
      then Some (if sg then neg_infinity else infinity)
      else if String.eqb word "nan" then Some nan
      else float_decimal sg s1
  end.

#[export] Instance float_arith : Arith float := {
  fzero := 0%float;
  fadd := PrimFloat.add;
  fsub := PrimFloat.sub;
  fneg := PrimFloat.opp;
  fhalf := fun x => PrimFloat.div x 2%float;
  fltb := PrimFloat.ltb;
  feqb := PrimFloat.eqb;
  fround2 := float_round2;
  fnan := nan;
  float_of_string := float_parse
}.

(** *** Exact integers *)

(** The integers stand for prices without rounding.  None of them is NaN:
    [fnan] is there for the class only, and is what an empty series gives,
    of which no script takes the median. *)

(** A sign followed by at least one decimal digit. *)
Definition Z_parse (s : string) : option Z :=
  let '(sg, s1) := read_sign s in
  match read_digits s1 0 0 with
  | (v, S _, EmptyString) => Some (if sg then - v else v)%Z
  | _ => None
  end.

(** [int(s)], for ASCII text: blanks are stripped from both ends and digit
    separators are dropped. *)
Definition int_parse (s : string) : option Z :=
  match drop_underscores false (rstrip (lstrip s)) with
  | Some s' => Z_parse s'
  | None => None
  end.

#[export] Instance Z_arith : Arith Z := {
  fzero := 0%Z;
  fadd := Z.add;
  fsub := Z.sub;
  fneg := Z.opp;
  fhalf := fun x => (x / 2)%Z;
  fltb := Z.ltb;
  feqb := Z.eqb;
  fround2 := fun x => x;
  fnan := 0%Z;
  float_of_string := Z_parse
}.

(** ** Python values shared by the scripts *)

(** The exceptions the scripts can raise. *)
Inductive py_error : Type :=
  | IndexError      (* a row has no field at the index read *)
  | KeyError        (* the header lacks a column *)
  | ValueError      (* [float(s)] or [int(s)] on a string that is no number *)
  | TypeError       (* [float(None)], [None + s] *)
  | StopIteration.  (* [next(reader)] on a file without a header line *)

Inductive result (A : Type) : Type :=
  | Ok (a : A)
  | Raise (e : py_error).
Arguments Ok {A} a.
Arguments Raise {A} e.

Definition bind {A B : Type} (r : result A) (k : A -> result B) : result B :=
  match r with
  | Ok a => k a
  | Raise e => Raise e
  end.

Notation "'try' x ':=' r 'in' k" := (bind r (fun x => k))
  (at level 10, x name, r at level 100, k at level 200).

(** [row[i]] *)
Definition field (row : list string) (i : nat) : result string :=
  match row !! i with
  | Some x => Ok x
  | None => Raise IndexError
  end.

(** [float(s)] *)
Definition to_float {num : Type} `{Arith num} (s : string) : result num :=
  match float_of_string s with
  | Some x => Ok x
  | None => Raise ValueError
  end.

(** [a < b] and [a >= b] on [str]: comparison by code point. *)
Definition str_lt (a b : string) : bool := String.ltb a b.
Definition str_ge (a b : string) : bool := negb (String.ltb a b).

Definition str_le (a b : string) : Prop := str_ge b a = true.

(** ["-" in symbol] *)
Fixpoint has_dash (symbol : string) : bool :=
  match symbol with
  | EmptyString => false
  | String c rest => Ascii.eqb c "-" || has_dash rest
  end.

(** The truth value of an optional string: [None] and [""] are false. *)
Definition truthy (o : option string) : bool :=
  match o with
  | Some s => negb (String.eqb s "")
  | None => false
  end.

(** ** The streaming builder: [scripts/build-es-1s-continuous.py] *)

Module Streaming.

(** A rollover as [load_rollover_log] keeps it.  The date and the two
    symbols are values of the dictionary that [csv.DictReader] yields for
    a row of the log: a field of the row, or [None] where the row is too
    short to have the field. *)
Record loaded (num : Type) : Type := {
  l_date : option string;
  l_from_symbol : option string;
  l_to_symbol : option string;
  l_spread : num
}.
Arguments l_date {num} _.
Arguments l_from_symbol {num} _.
Arguments l_to_symbol {num} _.
Arguments l_spread {num} _.

(** A rollover that has its date, as [build_adjustment_intervals] reads
    it: the function adds a string to the date. *)
Record rollover (num : Type) : Type := {
  date : string;
  from_symbol : option string;
  to_symbol : option string;
  spread : num
}.
Arguments date {num} _.
Arguments from_symbol {num} _.
Arguments to_symbol {num} _.
Arguments spread {num} _.

(** A record of the rollover log that has a field in each of the four
    columns the scripts read: what the adjuster is given of the log. *)
Record log_row : Type := {
  log_date : string;
  log_from_symbol : string;
  log_to_symbol : string;
  log_spread : string
}.

(** A dictionary that [csv.DictReader] yields for a row: under a field
    name, the field of the row, or [None] where the row is too short. *)
Abbreviation dict_row := (gmap string (option string)).

(** [dict(zip(fieldnames, row))], and then [None] under the field names
    that the row does not reach.  The fields in surplus go under the key
    [None], which is no field name. *)
Definition dict_of_row (fieldnames row : list string) : dict_row :=
  foldl (fun d key => <[ key := None ]> d)
        (foldl (fun d kv => <[ kv.1 := Some kv.2 ]> d) ∅ (zip fieldnames row))
        (drop (length row) fieldnames).

(** [csv.DictReader(f)]: the first row gives the field names, and the rows
    without a field are passed over. *)
Definition DictReader (file : list (list string)) : list dict_row :=
  match file with
  | [] => []
  | fieldnames :: rows =>
      map (dict_of_row fieldnames)
          (List.filter (fun row => negb (bool_decide (row = []))) rows)
  end.

(** [row[key]] on a dictionary of the reader. *)
Definition getitem (row : dict_row) (key : string) : result (option string) :=
  match row !! key with
  | Some value => Ok value
  | None => Raise KeyError
  end.

(** A row of the output file.  The four prices are the numbers the script
    hands to the writer, which prints them with nine decimals; the volume
    is the text of the source field. *)
Record out_row (num : Type) : Type := {
  out_ts : string;
  out_open : num;
  out_high : num;
  out_low : num;
  out_close : num;
  out_volume : string;
  out_symbol : string;
  out_contract : string
}.
Arguments out_ts {num} _.
Arguments out_open {num} _.
Arguments out_high {num} _.
Arguments out_low {num} _.
Arguments out_close {num} _.
Arguments out_volume {num} _.
Arguments out_symbol {num} _.
Arguments out_contract {num} _.

(** The column positions read off the header. *)
Record columns : Type := {
  ts_idx : nat;
  open_idx : nat;
  high_idx : nat;
  low_idx : nat;
  close_idx : nat;
  vol_idx : nat;
  sym_idx : nat
}.

(** [hour_key]: the first 13 characters, [YYYY-MM-DDTHH]. *)
Definition hour_key (ts_str : string) : string := substring 0 13 ts_str.

(** [col_idx = {name: i for i, name in enumerate(header)}] followed by
    [col_idx[name]]: the last position that holds the name. *)
Fixpoint col_index_from (name : string) (header : list string) (i : nat)
    (found : option nat) : option nat :=
  match header with
  | [] => found
  | h :: rest =>
      col_index_from name rest (S i) (if String.eqb h name then Some i else found)
  end.

Definition col_index (header : list string) (name : string) : result nat :=
  match col_index_from name header 0 None with
  | Some i => Ok i
  | None => Raise KeyError
  end.

(** [PROGRESS_INTERVAL] *)
Definition PROGRESS_INTERVAL : N := 5000000.

(** The progress report of both passes, every [PROGRESS_INTERVAL] rows:
    of the row it reads [row[ts_idx][:19]], to print it. *)
Definition progress (cols : columns) (row_count : N) (row : list string)
    : result unit :=
  if (row_count mod PROGRESS_INTERVAL =? 0)%N
  then try _ := field row (ts_idx cols) in Ok tt
  else Ok tt.

(** The date filter shared by both passes: [true] when the row is skipped. *)
Definition date_skipped (start_date end_date : option string) (ts : string) : bool :=
  if truthy start_date && str_lt ts (default "" start_date) then true
  else if truthy end_date && str_lt (default "" end_date) ts then true
  else false.

Section WithNumbers.
Context {num : Type} `{Arith num}.

(** [float(value)] for a value of a dictionary of the reader. *)
Definition float_of_value (value : option string) : result num :=
  match value with
  | Some s => to_float s
  | None => Raise TypeError
  end.

(** The dictionary that [load_rollover_log] makes of a dictionary of the
    reader: its four values are evaluated in the order of the source. *)
Definition read_row (row : dict_row) : result (loaded num) :=
  try date := getitem row "date" in
  try from_symbol := getitem row "from_symbol" in
  try to_symbol := getitem row "to_symbol" in
  try spread_text := getitem row "spread" in
  try spread := float_of_value spread_text in
  Ok {| l_date := date; l_from_symbol := from_symbol; l_to_symbol := to_symbol;
        l_spread := spread |}.

(** The loop of [load_rollover_log] over the dictionaries of the reader. *)
Definition read_rollover_log (reader : list dict_row) : result (list (loaded num)) :=
  foldl (fun acc row =>
           try rollovers := acc in
           try r := read_row row in
           Ok (rollovers ++ [r]))
        (Ok []) reader.

Definition load_rollover_log (log_file : list (list string))
    : result (list (loaded num)) :=
  read_rollover_log (DictReader log_file).

(** [rollovers[i]["date"] + "T00:00:00.000000000Z"] in
    [build_adjustment_intervals] raises TypeError where the date is
    [None].  [with_dates] is that check, made for the whole list:
    [build_adjustment_intervals] below is the function on the rollovers
    that have their date, and [adjustment_intervals] is the function on
    what [load_rollover_log] returns, as [main] calls it. *)
Definition with_date (r : loaded num) : result (rollover num) :=
  match l_date r with
  | Some d => Ok {| date := d; from_symbol := l_from_symbol r;
                    to_symbol := l_to_symbol r; spread := l_spread r |}
  | None => Raise TypeError
  end.

Fixpoint with_dates (rollovers : list (loaded num)) : result (list (rollover num)) :=
  match rollovers with
  | [] => Ok []
  | r :: rest =>
      try r' := with_date r in
      try rest' := with_dates rest in
      Ok (r' :: rest')
  end.

(** The loop [for i in range(n - 1, -1, -1)] with [i] iterations left: the
    next one writes position [i - 1]. *)
Fixpoint suffix_sum_loop (rollovers : list (rollover num)) (i : nat)
    (suffix_sum : list num) : list num :=
  match i with
  | 0 => suffix_sum
  | S j =>
      suffix_sum_loop rollovers j
        (<[ j := fadd (nth (S j) suffix_sum fzero)
                      (nth j (map spread rollovers) fzero) ]> suffix_sum)
  end.

Definition midnight : string := "T00:00:00.000000000Z".

Definition build_adjustment_intervals (rollovers : list (rollover num))
    : list (string * num) :=
  match rollovers with
  | [] => [("", fzero)]
  | _ =>
      let n := length rollovers in
      let suffix_sum := suffix_sum_loop rollovers n (replicate (n + 1) fzero) in
      ("", fneg (nth 0 suffix_sum fzero))
        :: imap (fun i r => (date r +:+ midnight, fneg (nth (i + 1) suffix_sum fzero)))
                rollovers
  end.

Definition adjustment_intervals (rollovers : list (loaded num))
    : result (list (string * num)) :=
  try dated := with_dates rollovers in
  Ok (build_adjustment_intervals dated).

(** *** Pass 1 *)

(** [hourly_volume[hk][symbol] += vol] on the inner dictionary, kept in
    insertion order; a new key starts from [0.0]. *)
Fixpoint add_volume (symbols : list (string * num)) (symbol : string) (vol : num)
    : list (string * num) :=
  match symbols with
  | [] => [(symbol, fadd fzero vol)]
  | (s, v) :: rest =>
      if String.eqb s symbol then (s, fadd v vol) :: rest
      else (s, v) :: add_volume rest symbol vol
  end.

(** [max(symbols, key=symbols.get)]: the first key of greatest volume. *)
Fixpoint max_from (best : string * num) (symbols : list (string * num)) : string :=
  match symbols with
  | [] => fst best
  | (s, v) :: rest => max_from (if fltb (snd best) v then (s, v) else best) rest
  end.

Definition max_symbol (symbols : list (string * num)) : option string :=
  match symbols with
  | [] => None
  | first :: rest => Some (max_from first rest)
  end.

(** The body of the loop of pass 1, below the progress report. *)
Definition pass1_row (cols : columns) (start_date end_date : option string)
    (hourly_volume : gmap string (list (string * num))) (row : list string)
    : result (gmap string (list (string * num))) :=
  try symbol := field row (sym_idx cols) in
  if has_dash symbol then Ok hourly_volume
  else
    try ts := field row (ts_idx cols) in
    if date_skipped start_date end_date ts then Ok hourly_volume
    else
      let hk := hour_key ts in
      try v := field row (vol_idx cols) in
      try vol := to_float v in
      Ok (<[ hk := add_volume (default [] (hourly_volume !! hk)) symbol vol ]>
            hourly_volume).

Definition pass1_primary_contracts (input_file : list (list string))
    (start_date end_date : option string) : result (gmap string string) :=
  match input_file with
  | [] => Raise StopIteration
  | header :: rows =>
      try ts := col_index header "ts_event" in
      try vol := col_index header "volume" in
      try sym := col_index header "symbol" in
      let cols := {| ts_idx := ts; open_idx := 0; high_idx := 0; low_idx := 0;
                     close_idx := 0; vol_idx := vol; sym_idx := sym |} in
      try counted :=
        foldl (fun acc row =>
                 try st := acc in
                 let row_count := N.succ st.1 in
                 try _ := progress cols row_count row in
                 try hourly_volume := pass1_row cols start_date end_date st.2 row in
                 Ok (row_count, hourly_volume))
              (Ok (0%N, ∅)) rows in
      Ok (omap max_symbol counted.2)
  end.

(** *** Pass 2 *)

(** The loop that advances [interval_idx]; [later] holds the intervals
    after position [interval_idx]. *)
Fixpoint advance_from (later : list (string * num)) (ts : string) (interval_idx : nat)
    : nat :=
  match later with
  | [] => interval_idx
  | (boundary, _) :: rest =>
      if str_ge ts boundary then advance_from rest ts (S interval_idx)
      else interval_idx
  end.

Definition advance (intervals : list (string * num)) (ts : string) (interval_idx : nat)
    : nat :=
  advance_from (drop (S interval_idx) intervals) ts interval_idx.

(** What one row does to the loop state below the progress report: it is
    skipped, or it moves the interval index and writes a row. *)
Inductive row_effect : Type :=
  | Skipped
  | Written (interval_idx : nat) (row : out_row num).

Definition pass2_row (cols : columns) (primary_per_hour : gmap string string)
    (intervals : list (string * num)) (start_date end_date : option string)
    (interval_idx : nat) (row : list string) : result row_effect :=
  try symbol := field row (sym_idx cols) in
  if has_dash symbol then Ok Skipped
  else
    try ts := field row (ts_idx cols) in
    if date_skipped start_date end_date ts then Ok Skipped
    else
      match primary_per_hour !! hour_key ts with
      | None => Ok Skipped
      | Some primary =>
          if negb (String.eqb symbol primary) then Ok Skipped
          else
            let idx := advance intervals ts interval_idx in
            match intervals !! idx with
            | None => Raise IndexError
            | Some (_, adj) =>
                try so := field row (open_idx cols) in
                try o := to_float so in
                try sh := field row (high_idx cols) in
                try h := to_float sh in
                try sl := field row (low_idx cols) in
                try l := to_float sl in
                try sc := field row (close_idx cols) in
                try c := to_float sc in
                try v := field row (vol_idx cols) in
                Ok (Written idx
                      {| out_ts := ts;
                         out_open := fadd o adj;
                         out_high := fadd h adj;
                         out_low := fadd l adj;
                         out_close := fadd c adj;
                         out_volume := v;
                         out_symbol := "ES_continuous";
                         out_contract := symbol |})
            end
      end.

(** The loop over the rows, [row_count] rows into the file: the rows
    written so far stay in the output file when a row raises. *)
Fixpoint pass2_loop (cols : columns) (primary_per_hour : gmap string string)
    (intervals : list (string * num)) (start_date end_date : option string)
    (rows : list (list string)) (row_count : N) (interval_idx : nat)
    (written : list (out_row num)) : list (out_row num) * result nat :=
  match rows with
  | [] => (written, Ok (length written))
  | row :: rest =>
      match progress cols (N.succ row_count) row with
      | Raise e => (written, Raise e)
      | Ok _ =>
          match pass2_row cols primary_per_hour intervals start_date end_date
                          interval_idx row with
          | Raise e => (written, Raise e)
          | Ok Skipped =>
              pass2_loop cols primary_per_hour intervals start_date end_date
                         rest (N.succ row_count) interval_idx written
          | Ok (Written idx r) =>
              pass2_loop cols primary_per_hour intervals start_date end_date
                         rest (N.succ row_count) idx (written ++ [r])
          end
      end
  end.

Definition find_columns (header : list string) : result columns :=
  try ts := col_index header "ts_event" in
  try o := col_index header "open" in
  try h := col_index header "high" in
  try l := col_index header "low" in
  try c := col_index header "close" in
  try v := col_index header "volume" in
  try s := col_index header "symbol" in
  Ok {| ts_idx := ts; open_idx := o; high_idx := h; low_idx := l;
        close_idx := c; vol_idx := v; sym_idx := s |}.

(** [pass2_filter_adjust_write]: the data rows of the output file, which
    is opened for writing before the header of the input is read, and
    the number of rows written or the exception raised. *)
Definition pass2_filter_adjust_write (input_file : list (list string))
    (primary_per_hour : gmap string string) (intervals : list (string * num))
    (start_date end_date : option string) : list (out_row num) * result nat :=
  match input_file with
  | [] => ([], Raise StopIteration)
  | header :: rows =>
      match find_columns header with
      | Raise e => ([], Raise e)
      | Ok cols =>
          pass2_loop cols primary_per_hour intervals start_date end_date rows 0 0 []
      end
  end.

(** *** The notions of the specification *)

(** The switch timestamp of a rollover, as the intervals spell it. *)
Definition boundary (r : rollover num) : string := date r +:+ midnight.

(** [s_i + ... + s_(n-1)] for the spreads [s_i, ..., s_(n-1)], accumulated
    from the last one. *)
Definition spread_sum (spreads : list num) : num :=
  foldr (fun s acc => fadd acc s) fzero spreads.

(** A rollover list in time order: the switch timestamps ascend. *)
Definition time_ordered (rollovers : list (rollover num)) : Prop :=
  StronglySorted str_le (map boundary rollovers).

(** The number of rollover boundaries at or before [ts]: the position of
    the interval that encloses [ts]. *)
Definition interval_index (intervals : list (string * num)) (ts : string) : nat :=
  length (filter (fun iv => str_ge ts iv.1 = true) (tail intervals)).

(** The timestamp of a data row, and a source in time order. *)
Definition row_ts (cols : columns) (row : list string) : string :=
  default "" (row !! ts_idx cols).

Definition rows_time_ordered (cols : columns) (rows : list (list string)) : Prop :=
  StronglySorted str_le (map (row_ts cols) rows).

(** The four prices of a data row, as pass 2 parses them. *)
Definition raw_prices (cols : columns) (row : list string)
    : result (num * num * num * num) :=
  try so := field row (open_idx cols) in
  try o := to_float so in
  try sh := field row (high_idx cols) in
  try h := to_float sh in
  try sl := field row (low_idx cols) in
  try l := to_float sl in
  try sc := field row (close_idx cols) in
  try c := to_float sc in
  Ok (o, h, l, c).

(** Row [r] of the output is source row [row] shifted by [adj]. *)
Definition shifted_by (cols : columns) (adj : num) (row : list string)
    (r : out_row num) : Prop :=
  exists o h l c : num,
    raw_prices cols row = Ok (o, h, l, c)
    /\ out_open r = fadd o adj /\ out_high r = fadd h adj
    /\ out_low r = fadd l adj /\ out_close r = fadd c adj
    /\ field row (ts_idx cols) = Ok (out_ts r)
    /\ field row (vol_idx cols) = Ok (out_volume r)
    /\ field row (sym_idx cols) = Ok (out_contract r)
    /\ out_symbol r = "ES_continuous".

(** The boundaries at or before [ts] among [later]. *)
Definition reached (ts : string) (later : list (string * num)) : nat :=
  length (filter (fun iv => str_ge ts iv.1 = true) later).

(** The row passes the three filters of pass 2. *)
Definition kept (cols : columns) (primary_per_hour : gmap string string)
    (start_date end_date : option string) (row : list string) : Prop :=
  exists symbol ts,
    field row (sym_idx cols) = Ok symbol /\ has_dash symbol = false
    /\ field row (ts_idx cols) = Ok ts /\ date_skipped start_date end_date ts = false
    /\ primary_per_hour !! hour_key ts = Some symbol.

(** Two timestamps on the same side of every rollover boundary. *)
Definition same_interval (rollovers : list (rollover num)) (ta tb : string) : Prop :=
  forall r, r ∈ rollovers -> str_ge ta (boundary r) = str_ge tb (boundary r).

(** The columns that pass 1 reads of a row, those that pass 2 reads, and
    those that pass 2 takes the prices from. *)
Definition pass1_fields (cols : columns) : list nat :=
  [sym_idx cols; ts_idx cols; vol_idx cols].

Definition pass2_fields (cols : columns) : list nat :=
  [sym_idx cols; ts_idx cols; open_idx cols; high_idx cols; low_idx cols;
   close_idx cols; vol_idx cols].

Definition price_fields (cols : columns) : list nat :=
  [open_idx cols; high_idx cols; low_idx cols; close_idx cols].

(** The row has no field at one of the indices. *)
Definition lacks_field (indices : list nat) (row : list string) : Prop :=
  exists i, i ∈ indices /\ field row i = Raise IndexError.

(** The field of the row at one of the indices is no number. *)
Definition not_a_number (indices : list nat) (row : list string) : Prop :=
  exists i s, i ∈ indices /\ field row i = Ok s /\ float_of_string (num:=num) s = None.

(** The row counts in pass 1: it belongs to an outright contract and the
    date bounds do not exclude it. *)
Definition counted (cols : columns) (start_date end_date : option string)
    (row : list string) : Prop :=
  exists symbol ts,
    field row (sym_idx cols) = Ok symbol /\ has_dash symbol = false
    /\ field row (ts_idx cols) = Ok ts /\ date_skipped start_date end_date ts = false.

(** [row'] is [row], which has a field for every column of the header,
    followed by fields in surplus. *)
Definition with_surplus (header row row' : list string) : Prop :=
  length header <= length row /\ exists extra, row' = row ++ extra.

(** The three filters of pass 2 as a test. *)
Definition keptb (cols : columns) (primary_per_hour : gmap string string)
    (start_date end_date : option string) (row : list string) : bool :=
  match field row (sym_idx cols), field row (ts_idx cols) with
  | Ok symbol, Ok ts =>
      negb (has_dash symbol) && negb (date_skipped start_date end_date ts)
      && bool_decide (primary_per_hour !! hour_key ts = Some symbol)
  | _, _ => false
  end.

(** The rows that pass 1 counts for contract [symbol] in hour [hk]: no
    calendar spread, within the date bounds. *)
Definition counts_for (cols : columns) (start_date end_date : option string)
    (hk symbol : string) (row : list string) : bool :=
  match field row (sym_idx cols), field row (ts_idx cols) with
  | Ok s, Ok ts =>
      String.eqb s symbol && negb (has_dash s)
      && negb (date_skipped start_date end_date ts) && String.eqb (hour_key ts) hk
  | _, _ => false
  end.

(** The volume of [symbol] in hour [hk]: the volumes of the rows counted
    for it, added to [0.0] in the order of the file. *)
Definition hour_volume (cols : columns) (start_date end_date : option string)
    (rows : list (list string)) (hk symbol : string) : num :=
  foldl (fun acc row =>
           match field row (vol_idx cols) with
           | Ok v => match float_of_string v with
                     | Some vol => fadd acc vol
                     | None => acc
                     end
           | Raise _ => acc
           end)
        fzero (List.filter (counts_for cols start_date end_date hk symbol) rows).

(** The relation between a dictionary of the reader and the rollover read
    off it: the dictionary has the four keys, and the spread is a string
    that parses. *)
Definition read_as (row : dict_row) (r : loaded num) : Prop :=
  row !! "date" = Some (l_date r) /\ row !! "from_symbol" = Some (l_from_symbol r)
  /\ row !! "to_symbol" = Some (l_to_symbol r)
  /\ exists s, row !! "spread" = Some (Some s) /\ to_float s = Ok (l_spread r).

(** A dictionary of the reader holds a record: it has the four columns
    with the values of the record, whatever else it has. *)
Definition holds (row : dict_row) (record : log_row) : Prop :=
  row !! "date" = Some (Some (log_date record))
  /\ row !! "from_symbol" = Some (Some (log_from_symbol record))
  /\ row !! "to_symbol" = Some (Some (log_to_symbol record))
  /\ row !! "spread" = Some (Some (log_spread record)).

(** A log file with the given records, under the four column names. *)
Definition log_file (log : list log_row) : list (list string) :=
  ["date"; "from_symbol"; "to_symbol"; "spread"]
    :: map (fun record => [log_date record; log_from_symbol record;
                           log_to_symbol record; log_spread record]) log.

(** The dictionary of pass 1 after [rows]: an hour has an entry when a row
    was counted in it, and the entry holds, for every contract counted in
    the hour, its volume. *)
Definition volumes_of (cols : columns) (start_date end_date : option string)
    (rows : list (list string)) (hv : gmap string (list (string * num))) : Prop :=
  forall hk,
    match hv !! hk with
    | None => forall s, List.filter (counts_for cols start_date end_date hk s) rows = []
    | Some l =>
        l <> [] /\ NoDup (map fst l)
        /\ forall s,
             (list_to_map l : gmap string num) !! s
             = if bool_decide (List.filter (counts_for cols start_date end_date hk s) rows
                               = [])
               then None
               else Some (hour_volume cols start_date end_date rows hk s)
    end.

(** *** The command *)

Record args : Type := {
  arg_start : option string;     (* [--start] *)
  arg_end : option string;       (* [--end] *)
  arg_skip_verify : bool         (* [--skip-verify] *)
}.

(** The three files: [None] when the file does not exist.  The output is
    given by its data rows. *)
Record files : Type := {
  ohlcv_file : option (list (list string));
  rollover_log_file : option (list (list string));
  output_file : option (list (out_row num))
}.

Inductive outcome : Type :=
  | Exit (code : nat)            (* [sys.exit(code)] *)
  | Raised (e : py_error)        (* an uncaught exception *)
  | Completed (written : nat).

Definition start_bound (a : args) : option string :=
  if truthy (arg_start a) then Some (default "" (arg_start a) +:+ "T") else None.

Definition end_bound (a : args) : option string :=
  if truthy (arg_end a) then Some (default "" (arg_end a) +:+ "T99") else None.

(** [main].  What the script prints is left out, and with it the
    verification pass, which only reads the output back to print from it. *)
Definition main (a : args) (fs : files) : files * outcome :=
  let start_date := start_bound a in
  let end_date := end_bound a in
  match ohlcv_file fs with
  | None => (fs, Exit 1)
  | Some input =>
      match rollover_log_file fs with
      | None => (fs, Exit 1)
      | Some log =>
          match load_rollover_log log with
          | Raise e => (fs, Raised e)
          | Ok rollovers =>
              match adjustment_intervals rollovers with
              | Raise e => (fs, Raised e)
              | Ok intervals =>
                  match pass1_primary_contracts input start_date end_date with
                  | Raise e => (fs, Raised e)
                  | Ok primary_per_hour =>
                      let '(rows, r) :=
                        pass2_filter_adjust_write input primary_per_hour intervals
                                                  start_date end_date in
                      let fs' := {| ohlcv_file := ohlcv_file fs;
                                    rollover_log_file := rollover_log_file fs;
                                    output_file := Some rows |} in
                      match r with
                      | Raise e => (fs', Raised e)
                      | Ok written => (fs', Completed written)
                      end
                  end
              end
          end
      end
  end.

End WithNumbers.

End Streaming.

(** ** The auxiliary-series adjuster: [scripts/build-es-lt-continuous.py] *)

Module Levels.

Record rollover (num : Type) : Type := {
  date : string;
  switch_ms : Z;          (* midnight UTC of [date], milliseconds since 1970 *)
  spread : num;
  r_from : string;
  r_to : string
}.
Arguments date {num} _.
Arguments switch_ms {num} _.
Arguments spread {num} _.
Arguments r_from {num} _.
Arguments r_to {num} _.

(** A record of the levels file, as [csv.DictReader] yields it. *)
Record lt_row : Type := {
  datetime : string;
  unix_timestamp : string;
  sentiment : string;
  level_1 : string;
  level_2 : string;
  level_3 : string;
  level_4 : string;
  level_5 : string
}.

Record lt_out (num : Type) : Type := {
  lt_datetime : string;
  lt_unix_timestamp : string;
  lt_sentiment : string;
  lt_levels : list num
}.
Arguments lt_datetime {num} _.
Arguments lt_unix_timestamp {num} _.
Arguments lt_sentiment {num} _.
Arguments lt_levels {num} _.

(** [int(s)] *)
Definition to_int (s : string) : result Z :=
  match int_parse s with
  | Some z => Ok z
  | None => Raise ValueError
  end.

(** Days from 1970-01-01 to the given day of the proleptic Gregorian
    calendar. *)
Definition days_from_civil (y m d : Z) : Z :=
  let y' := (if m <=? 2 then y - 1 else y)%Z in
  let era := (y' / 400)%Z in
  let yoe := (y' - era * 400)%Z in
  let mp := ((m + 9) mod 12)%Z in
  let doy := ((153 * mp + 2) / 5 + d - 1)%Z in
  let doe := (yoe * 365 + yoe / 4 - yoe / 100 + doy)%Z in
  (era * 146097 + doe - 719468)%Z.

Definition is_leap (y : Z) : bool :=
  ((y mod 4 =? 0) && negb (y mod 100 =? 0) || (y mod 400 =? 0))%Z.

Definition days_in_month (y m : Z) : Z :=
  if (m =? 2)%Z then (if is_leap y then 28 + 1 else 28)%Z
  else if ((m =? 4) || (m =? 6) || (m =? 9) || (m =? 11))%Z then 30%Z
  else 31%Z.

(** [datetime.strptime(date_str, "%Y-%m-%d")], for ASCII text: four
    digits, then one or two for the month and for the day, where a blank
    may stand in front of a one-digit day; [None] for ValueError. *)
Definition strptime_ymd (date_str : string) : option (Z * Z * Z) :=
  match read_digits date_str 0 0 with
  | (y, 4%nat, String "-" s1) =>
      match read_digits s1 0 0 with
      | (m, ml, String "-" s2) =>
          let day_digits :=
            match s2 with
            | String " " (String c EmptyString) => String "0" (String c EmptyString)
            | _ => s2
            end in
          match read_digits day_digits 0 0 with
          | (d, dl, EmptyString) =>
              if ((1 <=? ml) && (ml <=? 2) && (1 <=? dl) && (dl <=? 2))%nat
                 && ((1 <=? y) && (1 <=? m) && (m <=? 12) && (1 <=? d)
                     && (d <=? days_in_month y m))%Z
              then Some (y, m, d) else None
          | _ => None
          end
      | _ => None
      end
  | _ => None
  end.

(** [int(switch_ts.timestamp() * 1000)] *)
Definition midnight_ms (date_str : string) : result Z :=
  match strptime_ymd date_str with
  | Some (y, m, d) => Ok (days_from_civil y m d * 86400000)%Z
  | None => Raise ValueError
  end.

Section WithNumbers.
Context {num : Type} `{Arith num}.

(** [rollovers.sort(key=lambda r: r["switch_ms"])]: a stable sort.  The
    rollovers are inserted from the last to the first, each in front of
    the entries that are not earlier. *)
Fixpoint insert_by_ms (r : rollover num) (sorted : list (rollover num))
    : list (rollover num) :=
  match sorted with
  | [] => [r]
  | r' :: rest =>
      if (switch_ms r' <? switch_ms r)%Z then r' :: insert_by_ms r rest
      else r :: sorted
  end.

Definition sort_by_ms (rollovers : list (rollover num)) : list (rollover num) :=
  foldr insert_by_ms [] rollovers.

(** The loop of [load_rollovers] over the records of a log whose rows have
    the four columns. *)
Definition read_rollovers (log : list Streaming.log_row)
    : result (list (rollover num)) :=
  foldl (fun acc row =>
           try rollovers := acc in
           try s := to_float (Streaming.log_spread row) in
           try ms := midnight_ms (Streaming.log_date row) in
           Ok (rollovers ++ [ {| date := Streaming.log_date row;
                                 switch_ms := ms;
                                 spread := s;
                                 r_from := Streaming.log_from_symbol row;
                                 r_to := Streaming.log_to_symbol row |} ]))
        (Ok []) log.

Definition load_rollovers (log : list Streaming.log_row)
    : result (list (rollover num)) :=
  try rollovers := read_rollovers log in
  Ok (sort_by_ms rollovers).

Definition compute_adjustment (timestamp_ms : Z) (rollovers : list (rollover num))
    : num :=
  foldl (fun adjustment r =>
           if (timestamp_ms <? switch_ms r)%Z then fsub adjustment (spread r)
           else adjustment)
        fzero rollovers.

(** The sum of [-spread] over the rollovers that satisfy [keep],
    accumulated from [0.0] in the order of the list. *)
Definition neg_spread_sum (keep : rollover num -> bool)
    (rollovers : list (rollover num)) : num :=
  foldl (fun acc r => fadd acc (fneg (spread r))) fzero (List.filter keep rollovers).

(** The adjustment as the specification words it: over the rollovers
    whose switch timestamp is at or after [t]. *)
Definition adjustment_at_or_after (t : Z) (rollovers : list (rollover num)) : num :=
  neg_spread_sum (fun r => (t <=? switch_ms r)%Z) rollovers.

(** The same sum over the rollovers strictly after [t]. *)
Definition adjustment_after (t : Z) (rollovers : list (rollover num)) : num :=
  neg_spread_sum (fun r => (t <? switch_ms r)%Z) rollovers.

(** [levels]: the loop [for i in range(1, 6)]. *)
Fixpoint adjust_levels (adj : num) (raws : list string) : result (list num) :=
  match raws with
  | [] => Ok []
  | s :: rest =>
      try raw := to_float s in
      try levels := adjust_levels adj rest in
      Ok (fround2 (fadd raw adj) :: levels)
  end.

(** The body of the loop over the records of the levels file. *)
Definition adjust_row (rollovers : list (rollover num)) (row : lt_row)
    : result (lt_out num) :=
  try ts_ms := to_int (unix_timestamp row) in
  let adj := compute_adjustment ts_ms rollovers in
  try levels := adjust_levels adj [level_1 row; level_2 row; level_3 row;
                                   level_4 row; level_5 row] in
  Ok {| lt_datetime := datetime row;
        lt_unix_timestamp := unix_timestamp row;
        lt_sentiment := sentiment row;
        lt_levels := levels |}.

Fixpoint adjust_rows (rollovers : list (rollover num)) (rows : list lt_row)
    (written : list (lt_out num)) : list (lt_out num) * result nat :=
  match rows with
  | [] => (written, Ok (length written))
  | row :: rest =>
      match adjust_row rollovers row with
      | Raise e => (written, Raise e)
      | Ok r => adjust_rows rollovers rest (written ++ [r])
      end
  end.

(** [main] on the contents of the rollover log and of the levels file:
    the rows written and the count or the exception. *)
Definition main (log : list Streaming.log_row) (lt_input : list lt_row)
    : option (list (lt_out num)) * result nat :=
  match load_rollovers log with
  | Raise e => (None, Raise e)
  | Ok rollovers =>
      let '(rows, r) := adjust_rows rollovers lt_input [] in (Some rows, r)
  end.

End WithNumbers.

End Levels.

(** ** The in-memory builder: [scripts/build-es-continuous.py] *)

Module Batch.

(** A row of the data frame.  [ts_event] is the UTC instant in
    nanoseconds since 1970. *)
Record bar (num : Type) : Type := {
  ts_event : Z;
  open : num;
  high : num;
  low : num;
  close : num;
  volume : num;
  symbol : string
}.
Arguments ts_event {num} _.
Arguments open {num} _.
Arguments high {num} _.
Arguments low {num} _.
Arguments close {num} _.
Arguments volume {num} _.
Arguments symbol {num} _.

(** A rollover as the detector emits it; [date] is the day number
    (days since 1970-01-01). *)
Record detected : Type := {
  d_date : Z;
  d_from_symbol : string;
  d_to_symbol : string
}.

(** A rollover with the fields the spread calculator attaches. *)
Record rollover (num : Type) : Type := {
  date : Z;
  from_symbol : string;
  to_symbol : string;
  spread : num;
  overlap_bars : nat;
  spread_min : num;
  spread_max : num
}.
Arguments date {num} _.
Arguments from_symbol {num} _.
Arguments to_symbol {num} _.
Arguments spread {num} _.
Arguments overlap_bars {num} _.
Arguments spread_min {num} _.
Arguments spread_max {num} _.

Definition ns_per_hour : Z := 3600 * 1000000000.
Definition ns_per_day : Z := 24 * ns_per_hour.

(** [pd.Timestamp(str(r["date"]), tz="UTC")]: midnight of the day. *)
Definition roll_timestamp (day : Z) : Z := (day * ns_per_day)%Z.

(** *** The rollover detector *)

(** [(future["primary"] == curr_symbol).sum()] *)
Definition count_primary (curr_symbol : string) (future : list (Z * string)) : nat :=
  length (filter (fun p => p.2 = curr_symbol) future).

(** The loop [for i in range(1, len(daily_primary))]; [rest] is
    [daily_primary.iloc[i:]]. *)
Fixpoint walk_days (rest : list (Z * string)) (prev_symbol : string)
    (rollovers : list detected) : list detected :=
  match rest with
  | [] => rollovers
  | (day, curr_symbol) :: later =>
      if negb (String.eqb curr_symbol prev_symbol) then
        let future := take 5 rest in
        if (2 <=? length future)%nat && (2 <=? count_primary curr_symbol future)%nat
        then walk_days later curr_symbol
               (rollovers ++ [ {| d_date := day;
                                  d_from_symbol := prev_symbol;
                                  d_to_symbol := curr_symbol |} ])
        else walk_days later prev_symbol rollovers
      else walk_days later prev_symbol rollovers
  end.

(** [detect_true_rollovers], from the table [daily_primary] of the
    dominant contract of each day, in date order (the group-by of
    lines 72-76 that derives the table from the data frame is taken as
    done). *)
Definition detect_true_rollovers (daily_primary : list (Z * string))
    : result (list detected) :=
  match daily_primary with
  | [] => Raise IndexError
  | (_, first) :: rest => Ok (walk_days rest first [])
  end.

Section WithNumbers.
Context {num : Type} `{Arith num}.

(** *** The spread calculator *)

(** [.drop_duplicates("ts_event", keep="last")] *)
Fixpoint drop_duplicates_last (bars : list (bar num)) : list (bar num) :=
  match bars with
  | [] => []
  | b :: rest =>
      if existsb (fun b' => (ts_event b' =? ts_event b)%Z) rest
      then drop_duplicates_last rest
      else b :: drop_duplicates_last rest
  end.

(** [window[window["symbol"] == sym].drop_duplicates("ts_event",
    keep="last").set_index("ts_event")["close"]] *)
Definition closes_of (window : list (bar num)) (sym : string) : list (Z * num) :=
  map (fun b => (ts_event b, close b))
      (drop_duplicates_last (filter (fun b => symbol b = sym) window)).

(** The value of a series at a label of its index. *)
Fixpoint series_at (series : list (Z * num)) (t : Z) : option num :=
  match series with
  | [] => None
  | (t', v) :: rest => if (t' =? t)%Z then Some v else series_at rest t
  end.

(** [from_bars.index.intersection(to_bars.index)] *)
Definition index_intersection (from_bars to_bars : list (Z * num)) : list Z :=
  filter (fun t => bool_decide (is_Some (series_at to_bars t))) (map fst from_bars).

(** [to_bars.reindex(overlap) - from_bars.reindex(overlap)] *)
Definition overlap_spreads (from_bars to_bars : list (Z * num)) (overlap : list Z)
    : list num :=
  omap (fun t => match series_at to_bars t, series_at from_bars t with
                 | Some a, Some b => Some (fsub a b)
                 | _, _ => None
                 end) overlap.

Fixpoint insert_sorted (x : num) (sorted : list num) : list num :=
  match sorted with
  | [] => [x]
  | y :: rest => if fltb y x then y :: insert_sorted x rest else x :: sorted
  end.

Definition sort_values (values : list num) : list num := foldr insert_sorted [] values.

(** The numbers of a series: pandas leaves NaN out of [median], [min]
    and [max] ([skipna=True]). *)
Definition dropna (values : list num) : list num :=
  List.filter (fun x => negb (isna x)) values.

(** [Series.median()]: the middle one of the numbers of the series, or the
    mean of the two middle ones; NaN when the series holds no number. *)
Definition median (values : list num) : num :=
  let sorted := sort_values (dropna values) in
  let n := length sorted in
  if (n =? 0)%nat then fnan
  else if Nat.even n
  then fhalf (fadd (nth (n / 2 - 1) sorted fzero) (nth (n / 2) sorted fzero))
  else nth (n / 2) sorted fzero.

(** [Series.min()] and [Series.max()]: the least and the greatest of the
    numbers of the series; NaN when the series holds no number. *)
Definition series_min (values : list num) : num :=
  match dropna values with
  | [] => fnan
  | x :: rest => foldl (fun m y => if fltb y m then y else m) x rest
  end.

Definition series_max (values : list num) : num :=
  match dropna values with
  | [] => fnan
  | x :: rest => foldl (fun m y => if fltb m y then y else m) x rest
  end.

(** [.iloc[-1]] and [.iloc[0]] *)
Definition iloc_last (values : list num) : result num :=
  match last values with
  | Some x => Ok x
  | None => Raise IndexError
  end.

Definition iloc_first (values : list num) : result num :=
  match values with
  | x :: _ => Ok x
  | [] => Raise IndexError
  end.

(** The body of the loop of [compute_rollover_spreads]. *)
Definition rollover_spread (df : list (bar num)) (r : detected)
    : result (rollover num) :=
  let roll_date := roll_timestamp (d_date r) in
  let from_sym := d_from_symbol r in
  let to_sym := d_to_symbol r in
  let window_start := (roll_date - 12 * ns_per_hour)%Z in
  let window_end := (roll_date + 12 * ns_per_hour)%Z in
  let window :=
    filter (fun b => (window_start <= ts_event b)%Z ∧ (ts_event b <= window_end)%Z) df in
  let from_bars := closes_of window from_sym in
  let to_bars := closes_of window to_sym in
  let overlap := index_intersection from_bars to_bars in
  if (0 <? length overlap)%nat then
    let spreads := overlap_spreads from_bars to_bars overlap in
    Ok {| date := d_date r; from_symbol := from_sym; to_symbol := to_sym;
          spread := median spreads;
          overlap_bars := length overlap;
          spread_min := series_min spreads;
          spread_max := series_max spreads |}
  else
    try last_old :=
      iloc_last (map close (filter (fun b => symbol b = from_sym
                                             ∧ (ts_event b < roll_date)%Z) df)) in
    try first_new :=
      iloc_first (map close (filter (fun b => symbol b = to_sym
                                              ∧ (roll_date <= ts_event b)%Z) df)) in
    let spread := fsub first_new last_old in
    Ok {| date := d_date r; from_symbol := from_sym; to_symbol := to_sym;
          spread := spread;
          overlap_bars := 0;
          spread_min := spread;
          spread_max := spread |}.

Fixpoint compute_rollover_spreads (df : list (bar num)) (rollovers : list detected)
    : result (list (rollover num)) :=
  match rollovers with
  | [] => Ok []
  | r :: rest =>
      try r' := rollover_spread df r in
      try rest' := compute_rollover_spreads df rest in
      Ok (r' :: rest')
  end.

(** *** The back-adjustment *)

(** [find_rollover_minute]: midnight UTC of the rollover date. *)
Definition find_rollover_minute (r : rollover num) : Z := roll_timestamp (date r).

Record period : Type := {
  p_start : Z;
  p_end : Z;
  p_symbol : string
}.

(** The loop that appends one period per rollover, and the last period
    after it. *)
Fixpoint make_periods (rollovers : list (rollover num)) (prev_start : Z)
    (prev_sym : string) (last_end : Z) : list period :=
  match rollovers with
  | [] => [ {| p_start := prev_start; p_end := last_end; p_symbol := prev_sym |} ]
  | r :: rest =>
      {| p_start := prev_start; p_end := find_rollover_minute r; p_symbol := prev_sym |}
        :: make_periods rest (find_rollover_minute r) (to_symbol r) last_end
  end.

(** [period_mask] for one row, and [mask] after the loop over the periods. *)
Definition in_period (p : period) (b : bar num) : bool :=
  bool_decide ((p_start p <= ts_event b)%Z ∧ (ts_event b < p_end p)%Z
               ∧ symbol b = p_symbol p).

Definition mask (periods : list period) (b : bar num) : bool :=
  existsb (fun p => in_period p b) periods.

(** [.sort_values("ts_event")] *)
Fixpoint insert_by_ts (b : bar num) (sorted : list (bar num)) : list (bar num) :=
  match sorted with
  | [] => [b]
  | b' :: rest =>
      if (ts_event b' <? ts_event b)%Z then b' :: insert_by_ts b rest
      else b :: sorted
  end.

Definition sort_by_ts (bars : list (bar num)) : list (bar num) :=
  foldr insert_by_ts [] bars.

(** [continuous.loc[prior_mask, col] -= spread] for the four price
    columns, on one row. *)
Definition subtract_spread (switch_ts : Z) (s : num) (b : bar num) : bar num :=
  if (ts_event b <? switch_ts)%Z then
    {| ts_event := ts_event b;
       open := fsub (open b) s;
       high := fsub (high b) s;
       low := fsub (low b) s;
       close := fsub (close b) s;
       volume := volume b;
       symbol := symbol b |}
  else b.

(** The loop [for r in reversed(rollovers)]. *)
Definition back_adjust (rollovers : list (rollover num)) (continuous : list (bar num))
    : list (bar num) :=
  foldl (fun cont r => map (subtract_spread (find_rollover_minute r) (spread r)) cont)
        continuous (reverse rollovers).

Definition ts_min (df : list (bar num)) : option Z :=
  match df with
  | [] => None
  | b :: rest => Some (foldl Z.min (ts_event b) (map ts_event rest))
  end.

Definition ts_max (df : list (bar num)) : option Z :=
  match df with
  | [] => None
  | b :: rest => Some (foldl Z.max (ts_event b) (map ts_event rest))
  end.

(** [build_continuous_series].  On an empty data frame the bounds are
    not-a-time and printing the periods raises ValueError. *)
Definition build_continuous_series (df : list (bar num))
    (rollovers : list (rollover num)) (daily_primary : list (Z * string))
    : result (list (bar num)) :=
  try first_contract :=
    match rollovers with
    | r :: _ => Ok (from_symbol r)
    | [] => match daily_primary with
            | (_, primary) :: _ => Ok primary
            | [] => Raise IndexError
            end
    end in
  match ts_min df, ts_max df with
  | Some lo, Some hi =>
      let periods :=
        make_periods rollovers lo first_contract (hi + 60 * 1000000000)%Z in
      let continuous :=
        sort_by_ts (drop_duplicates_last (filter (fun b => mask periods b = true) df)) in
      Ok (back_adjust rollovers continuous)
  | _, _ => Raise ValueError
  end.

(** *** The notions of the specification *)

(** The contract in force at [ts]: the incoming contract of the last
    rollover of the list that has switched by [ts], and [first_contract]
    before all of them. *)
Definition active_contract (rollovers : list (rollover num)) (first_contract : string)
    (ts : Z) : string :=
  foldl (fun sym r => if (find_rollover_minute r <=? ts)%Z then to_symbol r else sym)
        first_contract rollovers.

(** The spreads subtracted from a bar at [ts]: those of the rollovers that
    switch after [ts], the most recent first. *)
Definition spreads_after (rollovers : list (rollover num)) (ts : Z) : list num :=
  map spread (List.filter (fun r => (ts <? find_rollover_minute r)%Z) (reverse rollovers)).

(** Bar [b'] is bar [b] with the spreads [ss] subtracted, one after the
    other, from each of its four prices; nothing else differs. *)
Definition lowered_by (ss : list num) (b b' : bar num) : Prop :=
  ts_event b' = ts_event b /\ volume b' = volume b /\ symbol b' = symbol b
  /\ open b' = foldl fsub (open b) ss /\ high b' = foldl fsub (high b) ss
  /\ low b' = foldl fsub (low b) ss /\ close b' = foldl fsub (close b) ss.

(** The bar lies within twelve hours of the switch. *)
Definition in_window (roll : Z) (b : bar num) : Prop :=
  (roll - 12 * ns_per_hour <= ts_event b)%Z /\ (ts_event b <= roll + 12 * ns_per_hour)%Z.

(** Contract [sym] has a bar at [t] in the window. *)
Definition traded_at (df : list (bar num)) (roll : Z) (sym : string) (t : Z) : Prop :=
  exists b, b ∈ df /\ in_window roll b /\ symbol b = sym /\ ts_event b = t.

(** The close of the last bar of [sym] at [t] in the window. *)
Definition last_close_at (df : list (bar num)) (roll : Z) (sym : string) (t : Z)
    : option num :=
  last (map close (filter (fun b => in_window roll b /\ symbol b = sym /\ ts_event b = t) df)).

(** The last close of [sym] before [roll] and its first close from [roll] on. *)
Definition last_close_before (df : list (bar num)) (sym : string) (roll : Z)
    : option num :=
  last (map close (filter (fun b => symbol b = sym /\ (ts_event b < roll)%Z) df)).

Definition first_close_from (df : list (bar num)) (sym : string) (roll : Z)
    : option num :=
  head (map close (filter (fun b => symbol b = sym /\ (roll <= ts_event b)%Z) df)).

(** A row of the continuous file, as [main] lays it out. *)
Record out_row : Type := {
  out_ts_event : Z;
  out_open : num;
  out_high : num;
  out_low : num;
  out_close : num;
  out_volume : num;
  out_symbol : string;
  out_contract : string
}.

Definition output_row (b : bar num) : out_row :=
  {| out_ts_event := ts_event b;
     out_open := open b;
     out_high := high b;
     out_low := low b;
     out_close := close b;
     out_volume := volume b;
     out_symbol := "ES_continuous";
     out_contract := symbol b |}.

End WithNumbers.

End Batch.

(** ** ISO-8601 text *)

Module Iso8601.

Definition digit_char (d : Z) : ascii := ascii_of_N (Z.to_N (48 + d)).

(** [n] in decimal on [width] digits, padded with zeros. *)
Fixpoint zero_padded (width : nat) (n : Z) : string :=
  match width with
  | 0 => ""
  | S w => String (digit_char (n / 10 ^ Z.of_nat w))
                  (zero_padded w (n mod 10 ^ Z.of_nat w))
  end.

Record cal_date : Type := {
  year : Z;
  month : Z;
  day : Z
}.

Definition valid_date (d : cal_date) : Prop :=
  (0 <= year d <= 9999)%Z /\ (1 <= month d <= 12)%Z /\ (1 <= day d <= 31)%Z.

(** [YYYY-MM-DD] *)
Definition iso_date (d : cal_date) : string :=
  zero_padded 4 (year d) +:+ "-" +:+ zero_padded 2 (month d) +:+ "-"
    +:+ zero_padded 2 (day d).

(** [YYYY-MM-DDTHH] followed by the rest of the timestamp. *)
Definition iso_timestamp (d : cal_date) (hour : Z) (rest : string) : string :=
  iso_date d +:+ "T" +:+ zero_padded 2 hour +:+ rest.

(** The order of the calendar. *)
Definition date_le (a b : cal_date) : Prop :=
  (year a < year b)%Z
  \/ (year a = year b
      /\ ((month a < month b)%Z \/ (month a = month b /\ (day a <= day b)%Z))).

(** A date of the calendar, as [datetime] accepts it. *)
Definition calendar_date (d : cal_date) : Prop :=
  (1 <= year d <= 9999)%Z /\ (1 <= month d <= 12)%Z
  /\ (1 <= day d <= Levels.days_in_month (year d) (month d))%Z.

(** The days of the years before March of year [y + 1], counted from a
    year 0. *)
Definition days_to_march (y : Z) : Z :=
  (365 * y + y / 4 - y / 100 + y / 400)%Z.

Definition date_compare (a b : cal_date) : comparison :=
  match (year a ?= year b)%Z with
  | Eq => match (month a ?= month b)%Z with
          | Eq => (day a ?= day b)%Z
          | c => c
          end
  | c => c
  end.

End Iso8601.

(** ** Sample data *)

Module Examples.
Definition header : list string :=
  ["ts_event"; "open"; "high"; "low"; "close"; "volume"; "symbol"].

Definition log_2024 : list Streaming.log_row :=
  [ {| Streaming.log_date := "2024-03-15"; Streaming.log_from_symbol := "ESH4";
       Streaming.log_to_symbol := "ESM4"; Streaming.log_spread := "50.25" |};
    {| Streaming.log_date := "2024-06-14"; Streaming.log_from_symbol := "ESM4";
       Streaming.log_to_symbol := "ESU4"; Streaming.log_spread := "60.5" |} ].

Definition loaded_2024 : list (Streaming.loaded float) :=
  [ {| Streaming.l_date := Some "2024-03-15"; Streaming.l_from_symbol := Some "ESH4";
       Streaming.l_to_symbol := Some "ESM4"; Streaming.l_spread := 50.25%float |};
    {| Streaming.l_date := Some "2024-06-14"; Streaming.l_from_symbol := Some "ESM4";
       Streaming.l_to_symbol := Some "ESU4"; Streaming.l_spread := 60.5%float |} ].

Definition rollovers_2024 : list (Streaming.rollover float) :=
  [ {| Streaming.date := "2024-03-15"; Streaming.from_symbol := Some "ESH4";
       Streaming.to_symbol := Some "ESM4"; Streaming.spread := 50.25%float |};
    {| Streaming.date := "2024-06-14"; Streaming.from_symbol := Some "ESM4";
       Streaming.to_symbol := Some "ESU4"; Streaming.spread := 60.5%float |} ].

(** Two hours of ESH4 before the rollover of 2024-03-15, with a thin ESM4
    row in between. *)
Definition file_before : list (list string) :=
  [ header;
    ["2024-03-14T22:59:59.000000000Z"; "5000"; "5002"; "4999"; "5001"; "10"; "ESH4"];
    ["2024-03-14T23:00:00.000000000Z"; "5051"; "5052"; "5050"; "5051"; "3"; "ESM4"];
    ["2024-03-14T23:00:01.000000000Z"; "5001"; "5004"; "5001"; "5003"; "7"; "ESH4"] ].

Definition log_int : list Streaming.log_row :=
  [ {| Streaming.log_date := "2024-03-15"; Streaming.log_from_symbol := "ESH4";
       Streaming.log_to_symbol := "ESM4"; Streaming.log_spread := "50" |};
    {| Streaming.log_date := "2024-06-14"; Streaming.log_from_symbol := "ESM4";
       Streaming.log_to_symbol := "ESU4"; Streaming.log_spread := "60" |} ].

Definition no_args : Streaming.args :=
  {| Streaming.arg_start := None; Streaming.arg_end := None;
     Streaming.arg_skip_verify := false |}.

Definition primary_before : gmap string string :=
  {[ "2024-03-14T22" := "ESH4"; "2024-03-14T23" := "ESH4" ]}.

Definition cols : Streaming.columns :=
  {| Streaming.ts_idx := 0; Streaming.open_idx := 1; Streaming.high_idx := 2;
     Streaming.low_idx := 3; Streaming.close_idx := 4; Streaming.vol_idx := 5;
     Streaming.sym_idx := 6 |}.

Definition rollovers_int : list (Streaming.rollover Z) :=
  [ {| Streaming.date := "2024-03-15"; Streaming.from_symbol := Some "ESH4";
       Streaming.to_symbol := Some "ESM4"; Streaming.spread := 50%Z |};
    {| Streaming.date := "2024-06-14"; Streaming.from_symbol := Some "ESM4";
       Streaming.to_symbol := Some "ESU4"; Streaming.spread := 60%Z |} ].

Definition loaded_int : list (Streaming.loaded Z) :=
  [ {| Streaming.l_date := Some "2024-03-15"; Streaming.l_from_symbol := Some "ESH4";
       Streaming.l_to_symbol := Some "ESM4"; Streaming.l_spread := 50%Z |};
    {| Streaming.l_date := Some "2024-06-14"; Streaming.l_from_symbol := Some "ESM4";
       Streaming.l_to_symbol := Some "ESU4"; Streaming.l_spread := 60%Z |} ].

Definition loaded_float : list (Streaming.loaded float) :=
  [ {| Streaming.l_date := Some "2024-03-15"; Streaming.l_from_symbol := Some "ESH4";
       Streaming.l_to_symbol := Some "ESM4"; Streaming.l_spread := 50%float |};
    {| Streaming.l_date := Some "2024-06-14"; Streaming.l_from_symbol := Some "ESM4";
       Streaming.l_to_symbol := Some "ESU4"; Streaming.l_spread := 60%float |} ].

(** The two rows that pass 2 writes for [file_before]. *)
Definition written_before {num : Type} (n : Z -> num) : list (Streaming.out_row num) :=
  [ {| Streaming.out_ts := "2024-03-14T22:59:59.000000000Z";
       Streaming.out_open := n 4890%Z; Streaming.out_high := n 4892%Z;
       Streaming.out_low := n 4889%Z; Streaming.out_close := n 4891%Z;
       Streaming.out_volume := "10"; Streaming.out_symbol := "ES_continuous";
       Streaming.out_contract := "ESH4" |};
    {| Streaming.out_ts := "2024-03-14T23:00:01.000000000Z";
       Streaming.out_open := n 4891%Z; Streaming.out_high := n 4894%Z;
       Streaming.out_low := n 4891%Z; Streaming.out_close := n 4893%Z;
       Streaming.out_volume := "7"; Streaming.out_symbol := "ES_continuous";
       Streaming.out_contract := "ESH4" |} ].

(** ESH4 stays the busiest contract of the first hour of the rollover
    day. *)
Definition file_straddle : list (list string) :=
  [ header;
    ["2024-03-14T23:59:59.000000000Z"; "5000"; "5002"; "4999"; "5001"; "10"; "ESH4"];
    ["2024-03-15T00:00:00.000000000Z"; "5051"; "5052"; "5050"; "5051"; "3"; "ESM4"];
    ["2024-03-15T00:00:01.000000000Z"; "5001"; "5004"; "5001"; "5003"; "7"; "ESH4"] ].

Definition files_straddle : Streaming.files (num:=float) :=
  {| Streaming.ohlcv_file := Some file_straddle;
     Streaming.rollover_log_file := Some (Streaming.log_file log_int);
     Streaming.output_file := None |}.

(** A rollover into a cheaper contract, and two rows of ESH4 before it
    whose prices lie off the tick grid. *)
Definition log_backwardation : list Streaming.log_row :=
  [ {| Streaming.log_date := "2024-03-15"; Streaming.log_from_symbol := "ESH4";
       Streaming.log_to_symbol := "ESM4"; Streaming.log_spread := "-110.75" |} ].

Definition row_cents_a : list string :=
  ["2024-03-14T22:59:58.000000000Z"; "4000"; "4000"; "4000"; "4000"; "10"; "ESH4"].

Definition row_cents_b : list string :=
  ["2024-03-14T22:59:59.000000000Z"; "4000.02"; "4000.02"; "4000.02"; "4000.02"; "7";
   "ESH4"].

Definition file_cents : list (list string) := [header; row_cents_a; row_cents_b].

Definition files_cents : Streaming.files (num:=float) :=
  {| Streaming.ohlcv_file := Some file_cents;
     Streaming.rollover_log_file := Some (Streaming.log_file log_backwardation);
     Streaming.output_file := None |}.

(** Midnight UTC of 2024-03-15 in nanoseconds, and bars of two contracts
    around it. *)
Definition roll_day : Z := 19797.
Definition roll_ns : Z := 1710460800000000000.

Definition bar_int (ts o h l c v : Z) (sym : string) : Batch.bar Z :=
  {| Batch.ts_event := ts; Batch.open := o; Batch.high := h; Batch.low := l;
     Batch.close := c; Batch.volume := v; Batch.symbol := sym |}.

Definition df_int : list (Batch.bar Z) :=
  [ bar_int (roll_ns - 3600000000000) 5000 5002 4999 5001 10 "ESH4";
    bar_int (roll_ns - 3600000000000) 5050 5052 5049 5051 3 "ESM4";
    bar_int (roll_ns - 60000000000) 5001 5004 5001 5003 7 "ESH4";
    bar_int (roll_ns + 60000000000) 5003 5005 5002 5004 2 "ESH4";
    bar_int (roll_ns + 60000000000) 5053 5055 5052 5054 12 "ESM4" ].

Definition detected_int : Batch.detected :=
  {| Batch.d_date := roll_day; Batch.d_from_symbol := "ESH4";
     Batch.d_to_symbol := "ESM4" |}.

Definition batch_rollovers_int : list (Batch.rollover Z) :=
  [ {| Batch.date := roll_day; Batch.from_symbol := "ESH4"; Batch.to_symbol := "ESM4";
       Batch.spread := 50%Z; Batch.overlap_bars := 2;
       Batch.spread_min := 50%Z; Batch.spread_max := 50%Z |} ].

Definition daily_primary_int : list (Z * string) :=
  [ (19796%Z, "ESH4"); (19797%Z, "ESM4") ].

Definition continuous_int : list (Batch.bar Z) :=
  [ bar_int (roll_ns - 3600000000000) 4950 4952 4949 4951 10 "ESH4";
    bar_int (roll_ns - 60000000000) 4951 4954 4951 4953 7 "ESH4";
    bar_int (roll_ns + 60000000000) 5053 5055 5052 5054 12 "ESM4" ].

Definition lt_row_before : Levels.lt_row :=
  {| Levels.datetime := "2024-03-14 22:59:59";
     Levels.unix_timestamp := "1710457199000";
     Levels.sentiment := "BULLISH";
     Levels.level_1 := "5001"; Levels.level_2 := "5010"; Levels.level_3 := "5020";
     Levels.level_4 := "4990"; Levels.level_5 := "4980" |}.

Definition levels_rollovers_int : list (Levels.rollover Z) :=
  [ {| Levels.date := "2024-03-15"; Levels.switch_ms := 1710460800000;
       Levels.spread := 50%Z; Levels.r_from := "ESH4"; Levels.r_to := "ESM4" |};
    {| Levels.date := "2024-06-14"; Levels.switch_ms := 1718323200000;
       Levels.spread := 60%Z; Levels.r_from := "ESM4"; Levels.r_to := "ESU4" |} ].

(** A rollover whose spread is the median of an even number of quotes: an
    eighth of a point. *)
Definition log_eighth : list Streaming.log_row :=
  [ {| Streaming.log_date := "2024-03-15"; Streaming.log_from_symbol := "ESH4";
       Streaming.log_to_symbol := "ESM4"; Streaming.log_spread := "0.125" |} ].

Definition file_quarter : list (list string) :=
  [ header;
    ["2024-03-14T22:59:59.000000000Z"; "4500"; "4501"; "4499.75"; "4500.25"; "10"; "ESH4"] ].

Definition files_quarter : Streaming.files (num:=float) :=
  {| Streaming.ohlcv_file := Some file_quarter;
     Streaming.rollover_log_file := Some (Streaming.log_file log_eighth);
     Streaming.output_file := None |}.

Definition lt_row_quarter : Levels.lt_row :=
  {| Levels.datetime := "2024-03-14 22:59:59";
     Levels.unix_timestamp := "1710457199000";
     Levels.sentiment := "BULLISH";
     Levels.level_1 := "4500.25"; Levels.level_2 := "4510"; Levels.level_3 := "4520";
     Levels.level_4 := "4490"; Levels.level_5 := "4480" |}.

(** A level stamped at the very instant of the rollover. *)
Definition lt_row_at_switch : Levels.lt_row :=
  {| Levels.datetime := "2024-03-15 00:00:00";
     Levels.unix_timestamp := "1710460800000";
     Levels.sentiment := "BULLISH";
     Levels.level_1 := "5001"; Levels.level_2 := "5010"; Levels.level_3 := "5020";
     Levels.level_4 := "4990"; Levels.level_5 := "4980" |}.

Definition df_gap : list (Batch.bar Z) :=
  [ bar_int (roll_ns - 3600000000000) 5000 5002 4999 5001 10 "ESH4";
    bar_int (roll_ns + 60000000000) 5053 5055 5052 5054 12 "ESM4" ].

(** A data frame in which a close of the outgoing contract is missing
    (NaN) at one of three minutes that both contracts trade in. *)
Definition bar_float (ts : Z) (o h l c v : float) (sym : string) : Batch.bar float :=
  {| Batch.ts_event := ts; Batch.open := o; Batch.high := h; Batch.low := l;
     Batch.close := c; Batch.volume := v; Batch.symbol := sym |}.

Definition df_nan : list (Batch.bar float) :=
  [ bar_float (roll_ns - 3600000000000) 5000 5002 4999 nan 10 "ESH4";
    bar_float (roll_ns - 3600000000000) 5050 5052 5049 5051 3 "ESM4";
    bar_float (roll_ns - 60000000000) 5001 5004 5001 5003 7 "ESH4";
    bar_float (roll_ns - 60000000000) 5002 5005 5002 5004 4 "ESM4";
    bar_float (roll_ns + 60000000000) 5003 5005 5002 5004 2 "ESH4";
    bar_float (roll_ns + 60000000000) 5053 5055 5052 5006 12 "ESM4" ].

(** A source with a row of eight fields, a calendar-spread row whose
    prices are no numbers, and a last row whose high is no number. *)
Definition file_malformed : list (list string) :=
  [ header;
    ["2024-03-14T22:59:59.000000000Z"; "5000"; "5002"; "4999"; "5001"; "10"; "ESH4"];
    ["2024-03-14T23:00:01.000000000Z"; "5001"; "5004"; "5001"; "5003"; "7"; "ESH4";
     "surplus"];
    ["2024-03-14T23:00:02.000000000Z"; "abc"; "abc"; "abc"; "abc"; "abc"; "ESH4-ESM4"];
    ["2024-03-14T23:00:03.000000000Z"; "5003"; "abc"; "5002"; "5004"; "4"; "ESH4"];
    ["2024-03-14T23:00:04.000000000Z"; "5004"; "5005"; "5003"; "5005"; "6"; "ESH4"] ].

Definition files_malformed : Streaming.files (num:=float) :=
  {| Streaming.ohlcv_file := Some file_malformed;
     Streaming.rollover_log_file := Some (Streaming.log_file log_int);
     Streaming.output_file := None |}.

Definition files_no_source : Streaming.files (num:=float) :=
  {| Streaming.ohlcv_file := None;
     Streaming.rollover_log_file := Some (Streaming.log_file log_int);
     Streaming.output_file := None |}.

(** A source whose second row has a volume that is no number. *)
Definition file_bad_volume : list (list string) :=
  [ header;
    ["2024-03-14T22:59:59.000000000Z"; "5000"; "5002"; "4999"; "5001"; "10"; "ESH4"];
    ["2024-03-14T23:00:01.000000000Z"; "5001"; "5004"; "5001"; "5003"; "n/a"; "ESH4"] ].

Definition files_bad_volume : Streaming.files (num:=float) :=
  {| Streaming.ohlcv_file := Some file_bad_volume;
     Streaming.rollover_log_file := Some (Streaming.log_file log_int);
     Streaming.output_file := None |}.

Definition bad_high_row : list string :=
  ["2024-03-14T23:00:03.000000000Z"; "5003"; "abc"; "5002"; "5004"; "4"; "ESH4"].

Definition good_row : list string :=
  ["2024-03-14T22:59:59.000000000Z"; "5000"; "5002"; "4999"; "5001"; "10"; "ESH4"].

Definition good_row_written : Streaming.out_row float :=
  {| Streaming.out_ts := "2024-03-14T22:59:59.000000000Z";
     Streaming.out_open := 4890%float; Streaming.out_high := 4892%float;
     Streaming.out_low := 4889%float; Streaming.out_close := 4891%float;
     Streaming.out_volume := "10"; Streaming.out_symbol := "ES_continuous";
     Streaming.out_contract := "ESH4" |}.

Definition intervals_int : list (string * float) :=
  [("", (-110)%float); ("2024-03-15T00:00:00.000000000Z", (-60)%float);
   ("2024-06-14T00:00:00.000000000Z", (-0)%float)].

End Examples.

(** * Proofs *)

(** ** The order on strings *)

Lemma ascii_compare_refl (c : ascii) : Ascii.compare c c = Eq.
Proof. unfold Ascii.compare. apply N.compare_refl. Qed.

Lemma string_compare_refl (s : string) : String.compare s s = Eq.
Proof. induction s as [|c s IH]; simpl; [done|]. by rewrite ascii_compare_refl. Qed.

Lemma string_compare_lt_trans (a b c : string) :
  String.compare a b = Lt -> String.compare b c = Lt -> String.compare a c = Lt.
Proof.
  revert b c. induction a as [|x a IH]; intros [|y b] [|z c]; simpl; try done.
  unfold Ascii.compare.
  destruct (N.compare_spec (N_of_ascii x) (N_of_ascii y)) as [Hxy|Hxy|Hxy]; try done;
    destruct (N.compare_spec (N_of_ascii y) (N_of_ascii z)) as [Hyz|Hyz|Hyz]; try done;
    intros H1 H2.
  - rewrite Hxy, Hyz, N.compare_refl. eauto.
  - rewrite Hxy. by apply N.compare_lt_iff in Hyz as ->.
  - rewrite <- Hyz. by apply N.compare_lt_iff in Hxy as ->.
  - assert (N_of_ascii x < N_of_ascii z)%N as Hxz by lia.
    by apply N.compare_lt_iff in Hxz as ->.
Qed.

Lemma str_ge_refl (a : string) : str_ge a a = true.
Proof. unfold str_ge, String.ltb. by rewrite string_compare_refl. Qed.

Lemma str_lt_ge (a b : string) : str_lt a b = negb (str_ge a b).
Proof. unfold str_ge, str_lt. by rewrite negb_involutive. Qed.

Lemma string_ltb_lt (a b : string) : String.ltb a b = true <-> String.compare a b = Lt.
Proof. unfold String.ltb. destruct (String.compare a b); split; congruence. Qed.

Lemma string_ltb_flip (a b : string) : String.ltb a b = false -> a <> b -> String.ltb b a = true.
Proof.
  unfold String.ltb. rewrite (String.compare_antisym b a).
  destruct (String.compare a b) eqn:E; simpl; try done.
  intros _ Hne. apply String.compare_eq_iff in E. done.
Qed.

(** [c <= b] and [b <= a] give [c <= a]. *)
Lemma str_ge_trans (a b c : string) :
  str_ge a b = true -> str_ge b c = true -> str_ge a c = true.
Proof.
  unfold str_ge. rewrite !negb_true_iff. intros Hab Hbc.
  destruct (String.ltb a c) eqn:Hac; [|done].
  destruct (string_dec b c) as [->|Hne]; [congruence|].
  destruct (string_dec a b) as [->|Hne']; [congruence|].
  pose proof (string_ltb_flip _ _ Hbc Hne) as Hcb.
  apply string_ltb_lt in Hac, Hcb.
  pose proof (string_compare_lt_trans _ _ _ Hac Hcb) as Hlt.
  apply string_ltb_lt in Hlt. congruence.
Qed.

Lemma str_le_refl (a : string) : str_le a a.
Proof. apply str_ge_refl. Qed.

Lemma str_le_trans (a b c : string) : str_le a b -> str_le b c -> str_le a c.
Proof. unfold str_le. intros Hab Hbc. eapply str_ge_trans; eauto. Qed.

Lemma str_ge_empty (a : string) : str_ge a "" = true.
Proof. by destruct a. Qed.

(** ** Arithmetic *)

Section Exact.
Context {num : Type} `{ExactArith num}.

Lemma fadd_zero_l (x : num) : fadd fzero x = x.
Proof. by rewrite fadd_comm, fadd_zero_r. Qed.

Lemma fadd_cancel_r (a b c : num) : fadd a c = fadd b c -> a = b.
Proof.
  intros Heq.
  rewrite <- (fadd_zero_r a), <- (fadd_zero_r b), <- (fadd_neg_r c).
  by rewrite !fadd_assoc, Heq.
Qed.

Lemma fadd_neg_l (x : num) : fadd (fneg x) x = fzero.
Proof. by rewrite fadd_comm, fadd_neg_r. Qed.

Lemma fneg_zero : fneg fzero = fzero :> num.
Proof. by rewrite <- (fadd_zero_l (fneg fzero)), fadd_neg_r. Qed.

Lemma fneg_fadd (a b : num) : fneg (fadd a b) = fadd (fneg a) (fneg b).
Proof.
  apply (fadd_cancel_r _ _ (fadd a b)).
  rewrite fadd_neg_l.
  rewrite (fadd_comm a b), (fadd_assoc _ b a).
  rewrite <- (fadd_assoc (fneg a) (fneg b) b), fadd_neg_l, fadd_zero_r.
  by rewrite fadd_neg_l.
Qed.

(** Shifting two numbers by one amount keeps their difference. *)
Lemma fsub_shift (a b adj : num) : fsub (fadd b adj) (fadd a adj) = fsub b a.
Proof.
  rewrite !fsub_def, fneg_fadd.
  rewrite (fadd_comm (fneg a) (fneg adj)), (fadd_assoc _ (fneg adj) (fneg a)).
  by rewrite <- (fadd_assoc b adj (fneg adj)), fadd_neg_r, fadd_zero_r.
Qed.

End Exact.

#[export] Instance Z_exact : ExactArith Z.
Proof. split; simpl; intros; lia. Qed.

#[export] Instance Z_zero_laws : ZeroLaws Z.
Proof.
  split; simpl.
  - done.
  - intros x. lia.
  - intros x. left. lia.
Qed.

Lemma Prim2SF_zero : Prim2SF 0%float = S754_zero false.
Proof. reflexivity. Qed.


#[export] Instance float_zero_laws : ZeroLaws float.
Proof.
  split; simpl.
  - reflexivity.
  - intros x. apply Prim2SF_inj. rewrite add_spec.
    change (Prim2SF (-0)%float) with (S754_zero true).
    unfold SF64add, SFadd. by destruct (Prim2SF x) as [[]| | |].
  - intros x.
    assert (Prim2SF (x + 0)%float = SF64add (Prim2SF x) (S754_zero false)) as Hadd
      by (by rewrite add_spec, Prim2SF_zero).
    destruct (Prim2SF x) as [[]| | |] eqn:Hx; simpl in Hadd;
      try (left; apply Prim2SF_inj; by rewrite Hadd, Hx).
    right. rewrite FloatAxioms.eqb_spec, Hadd, Hx. reflexivity.
Qed.

#[export] Instance Z_sub_law : SubLaw Z.
Proof. intros x y. simpl. lia. Qed.

#[export] Instance float_sub_law : SubLaw float.
Proof.
  intros x y. simpl. apply Prim2SF_inj. rewrite sub_spec, add_spec, opp_spec.
  unfold SF64sub, SF64add, SFsub, SFadd, SFopp.
  destruct (Prim2SF x) as [sx|sx| |sx mx ex], (Prim2SF y) as [sy|sy| |sy my ey];
    try reflexivity; by destruct sx, sy.
Qed.

#[export] Instance Z_order_laws : OrderLaws Z.
Proof. split; simpl; intros; lia. Qed.

Lemma SFltb_irrefl (x : spec_float) : SFltb x x = false.
Proof.
  unfold SFltb, SFcompare. destruct x as [[]|[]| |[] m e]; try done;
    by rewrite Z.compare_refl, Pos.compare_cont_refl.
Qed.

Lemma SFltb_trans (x y z : spec_float) :
  SFltb x y = true -> SFltb y z = true -> SFltb x z = true.
Proof.
  unfold SFltb, SFcompare.
  destruct x as [sx|sx| |sx mx ex], y as [sy|sy| |sy my ey], z as [sz|sz| |sz mz ez];
    try done; try (by destruct sx, sy, sz).
  destruct sx, sy, sz; try done;
    destruct (Z.compare_spec ex ey), (Z.compare_spec ey ez), (Z.compare_spec ex ez);
    try done; try lia; subst;
    change (Pos.compare_cont Eq ?a ?b) with (Pos.compare a b);
    destruct (Pos.compare_spec mx my), (Pos.compare_spec my mz), (Pos.compare_spec mx mz);
    try done; lia.
Qed.

#[export] Instance float_order_laws : OrderLaws float.
Proof.
  split; simpl.
  - intros x. rewrite ltb_spec. apply SFltb_irrefl.
  - intros x y z. rewrite !ltb_spec. apply SFltb_trans.
Qed.

(** ** The adjustment intervals *)

Section Intervals.
Context {num : Type} `{Arith num}.
Import Streaming.

Lemma spread_sum_cons (s : num) (l : list num) :
  spread_sum (s :: l) = fadd (spread_sum l) s.
Proof. reflexivity. Qed.

Lemma drop_nth_cons (l : list num) (j : nat) :
  j < length l -> drop j l = nth j l fzero :: drop (S j) l.
Proof.
  intros Hj. destruct (lookup_lt_is_Some_2 l j Hj) as [x Hx].
  rewrite (drop_S l x j Hx). f_equal. by rewrite nth_lookup, Hx.
Qed.

(** The loop invariant of the suffix sums: the positions from [i] on
    already hold the sums of the spreads from there to the end. *)
Lemma suffix_sum_loop_spec (rs : list (rollover num)) (i : nat) (ss : list num) :
  i <= length rs ->
  length ss = S (length rs) ->
  (forall k, i <= k <= length rs ->
     nth k ss fzero = spread_sum (drop k (map spread rs))) ->
  length (suffix_sum_loop rs i ss) = S (length rs)
  /\ forall k, k <= length rs ->
       nth k (suffix_sum_loop rs i ss) fzero = spread_sum (drop k (map spread rs)).
Proof.
  revert ss. induction i as [|j IH]; intros ss Hi Hlen Hinv; simpl.
  - split; [done|]. intros k Hk. apply Hinv. lia.
  - apply IH; [lia | by rewrite length_insert |].
    intros k Hk. rewrite !nth_lookup.
    destruct (decide (k = j)) as [->|Hne].
    + rewrite list_lookup_insert_eq by lia. simpl.
      rewrite (drop_nth_cons (map spread rs) j) by (rewrite length_map; lia).
      rewrite spread_sum_cons, <- Hinv by lia.
      by rewrite !nth_lookup.
    + rewrite list_lookup_insert_ne by done.
      rewrite <- nth_lookup. apply Hinv. lia.
Qed.

Lemma suffix_sum_spec (rs : list (rollover num)) (k : nat) :
  k <= length rs ->
  nth k (suffix_sum_loop rs (length rs) (replicate (length rs + 1) fzero)) fzero
  = spread_sum (drop k (map spread rs)).
Proof.
  intros Hk.
  apply suffix_sum_loop_spec; [done | rewrite length_replicate; lia | | done].
  intros j Hj. assert (j = length rs) as -> by lia.
  rewrite drop_ge by (rewrite length_map; lia).
  rewrite nth_lookup, lookup_replicate_2 by lia. done.
Qed.

Lemma intervals_unfold (rs : list (rollover num)) :
  rs <> [] ->
  build_adjustment_intervals rs
  = let ss := suffix_sum_loop rs (length rs) (replicate (length rs + 1) fzero) in
    ("", fneg (nth 0 ss fzero))
      :: imap (fun i r => (date r +:+ midnight, fneg (nth (i + 1) ss fzero))) rs.
Proof. by destruct rs. Qed.

Lemma intervals_length (rs : list (rollover num)) :
  length (build_adjustment_intervals rs) = S (length rs).
Proof.
  destruct rs as [|r rs]; [done|].
  rewrite intervals_unfold by done. cbv zeta. cbn [length]. by rewrite length_imap.
Qed.

Lemma intervals_first (rs : list (rollover num)) :
  rs <> [] ->
  build_adjustment_intervals rs !! 0 = Some ("", fneg (spread_sum (map spread rs))).
Proof.
  intros Hne. rewrite intervals_unfold by done. cbv zeta. cbn [lookup list_lookup].
  by rewrite (suffix_sum_spec rs 0) by lia.
Qed.

Lemma intervals_later (rs : list (rollover num)) (i : nat) (r : rollover num) :
  rs !! i = Some r ->
  build_adjustment_intervals rs !! S i
  = Some (boundary r, fneg (spread_sum (drop (S i) (map spread rs)))).
Proof.
  intros Hr. pose proof (lookup_lt_Some _ _ _ Hr) as Hi.
  rewrite intervals_unfold by (by destruct rs). cbv zeta.
  rewrite lookup_cons, list_lookup_imap, Hr. cbn [fmap option_fmap option_map]. unfold boundary.
  replace (i + 1) with (S i) by lia.
  by rewrite (suffix_sum_spec rs (S i)) by lia.
Qed.

Lemma intervals_boundaries (rs : list (rollover num)) :
  map fst (build_adjustment_intervals rs) = "" :: map boundary rs.
Proof.
  destruct rs as [|r rs]; [done|].
  rewrite intervals_unfold by done. cbv zeta.
  set (ss := suffix_sum_loop _ _ _). generalize (r :: rs). intros l.
  change (map ?f ?l) with (f <$> l). rewrite fmap_cons. f_equal.
  apply list_eq. intros i.
  rewrite !list_lookup_fmap, list_lookup_imap. by destruct (l !! i).
Qed.

(** Every interval's adjustment is minus the sum of the spreads of the
    rollovers from its position on. *)
Lemma intervals_adjustment (rs : list (rollover num)) (k : nat) (b : string) (adj : num) :
  rs <> [] ->
  build_adjustment_intervals rs !! k = Some (b, adj) ->
  adj = fneg (spread_sum (drop k (map spread rs))).
Proof.
  intros Hne Hk. destruct k as [|i].
  - rewrite intervals_first in Hk by done. by inversion Hk.
  - pose proof (lookup_lt_Some _ _ _ Hk) as Hlen. rewrite intervals_length in Hlen.
    destruct (lookup_lt_is_Some_2 rs i ltac:(lia)) as [r Hr].
    rewrite (intervals_later rs i r Hr) in Hk. by inversion Hk.
Qed.

Lemma intervals_last (rs : list (rollover num)) :
  rs <> [] ->
  exists b, last (build_adjustment_intervals rs) = Some (b, fneg fzero).
Proof.
  intros Hne. rewrite last_lookup, intervals_length. simpl.
  destruct (lookup_lt_is_Some_2 (build_adjustment_intervals rs) (length rs))
    as [[b adj] Hk]; [rewrite intervals_length; lia|].
  exists b. rewrite Hk. f_equal. f_equal.
  rewrite (intervals_adjustment rs _ b adj Hne Hk).
  by rewrite drop_ge by (rewrite length_map; lia).
Qed.

End Intervals.

(** ** The forward scan of pass 2 *)

Section Scan.
Context {num : Type} `{Arith num}.
Import Streaming.

Lemma reached_cons (ts : string) (iv : string * num) (later : list (string * num)) :
  reached ts (iv :: later)
  = if str_ge ts iv.1 then S (reached ts later) else reached ts later.
Proof.
  unfold reached. rewrite filter_cons.
  destruct (decide (str_ge ts iv.1 = true)) as [->|Hn]; [done|].
  by apply not_true_is_false in Hn as ->.
Qed.

Lemma reached_none (ts b : string) (later : list (string * num)) :
  str_ge ts b = false ->
  Forall (str_le b) (map fst later) ->
  reached ts later = 0.
Proof.
  intros Hb. induction later as [|[b' a] later IH]; [done|].
  rewrite reached_cons. simpl. inversion 1 as [|? ? Hle Hrest]; subst.
  destruct (str_ge ts b') eqn:Hge; [|by apply IH].
  unfold str_le in Hle. by rewrite (str_ge_trans ts b' b Hge Hle) in Hb.
Qed.

Lemma advance_from_sorted (ts : string) (later : list (string * num)) (idx : nat) :
  StronglySorted str_le (map fst later) ->
  advance_from later ts idx = idx + reached ts later.
Proof.
  revert idx. induction later as [|[b a] later IH]; intros idx Hs; simpl.
  - unfold reached. simpl. lia.
  - inversion Hs as [|? ? Hs' Hall]; subst. rewrite reached_cons. simpl.
    destruct (str_ge ts b) eqn:Hge.
    + rewrite IH by done. lia.
    + rewrite (reached_none ts b later Hge Hall). lia.
Qed.

Lemma reached_drop (ts : string) (later : list (string * num)) (idx : nat) :
  StronglySorted str_le (map fst later) ->
  idx <= reached ts later ->
  idx + reached ts (drop idx later) = reached ts later.
Proof.
  revert idx. induction later as [|[b a] later IH]; intros idx Hs Hidx.
  - rewrite drop_nil. unfold reached in *. simpl in *. lia.
  - destruct idx as [|i]; [done|].
    inversion Hs as [|? ? Hs' Hall]; subst.
    rewrite reached_cons in Hidx |- *. simpl in *.
    destruct (str_ge ts b) eqn:Hge.
    + rewrite <- (IH i Hs') by lia. lia.
    + rewrite (reached_none ts b later Hge Hall) in Hidx. lia.
Qed.

Lemma reached_mono (ts ts' : string) (later : list (string * num)) :
  str_le ts ts' -> reached ts later <= reached ts' later.
Proof.
  intros Hle. induction later as [|[b a] later IH]; [done|].
  rewrite !reached_cons. simpl.
  destruct (str_ge ts b) eqn:Hge.
  - unfold str_le in Hle. rewrite (str_ge_trans ts' ts b Hle Hge). lia.
  - destruct (str_ge ts' b); lia.
Qed.

Lemma interval_index_reached (intervals : list (string * num)) (ts : string) :
  interval_index intervals ts = reached ts (tail intervals).
Proof. reflexivity. Qed.

Lemma interval_index_mono (intervals : list (string * num)) (ts ts' : string) :
  str_le ts ts' -> interval_index intervals ts <= interval_index intervals ts'.
Proof. apply reached_mono. Qed.

Lemma interval_index_lt (intervals : list (string * num)) (ts : string) :
  intervals <> [] -> interval_index intervals ts < length intervals.
Proof.
  destruct intervals as [|iv l]; [done|]. intros _.
  unfold interval_index. simpl. pose proof (length_filter (fun iv => str_ge ts iv.1 = true) l). lia.
Qed.

(** With ascending boundaries the scan stops at the enclosing interval,
    from any position that is not past it. *)
Lemma advance_sorted (intervals : list (string * num)) (ts : string) (idx : nat) :
  StronglySorted str_le (map fst (tail intervals)) ->
  idx <= interval_index intervals ts ->
  advance intervals ts idx = interval_index intervals ts.
Proof.
  intros Hs Hidx. unfold advance.
  assert (drop (S idx) intervals = drop idx (tail intervals)) as ->.
  { destruct intervals; simpl; [by rewrite drop_nil | done]. }
  rewrite advance_from_sorted.
  - by apply reached_drop.
  - change (map fst ?l) with (fst <$> l) in *. rewrite fmap_drop.
    apply (StronglySorted_app_1_r _ (take idx (fst <$> tail intervals))).
    by rewrite take_drop.
Qed.

End Scan.

(** ** Pass 2 *)

Section Pass2.
Context {num : Type} `{Arith num}.
Import Streaming.

Lemma pass2_row_written cols primary intervals start_date end_date idx row idx' r :
  pass2_row cols primary intervals start_date end_date idx row = Ok (Written idx' r) ->
  idx' = advance intervals (out_ts r) idx
  /\ (exists b adj, intervals !! idx' = Some (b, adj) /\ shifted_by cols adj row r)
  /\ kept cols primary start_date end_date row.
Proof.
  unfold pass2_row, bind. intros Hrow.
  destruct (field row (sym_idx cols)) as [symbol|] eqn:Esym; [|done].
  destruct (has_dash symbol) eqn:Edash; [done|].
  destruct (field row (ts_idx cols)) as [ts|] eqn:Ets; [|done].
  destruct (date_skipped start_date end_date ts) eqn:Edate; [done|].
  destruct (primary !! hour_key ts) as [p|] eqn:Ep; [|done].
  destruct (String.eqb symbol p) eqn:Eeq; simpl in Hrow; [|done].
  apply String.eqb_eq in Eeq. subst p.
  destruct (intervals !! advance intervals ts idx) as [[b adj]|] eqn:Eiv; [|done].
  destruct (field row (open_idx cols)) as [so|] eqn:Eso; [|done].
  destruct (to_float so) as [o|] eqn:Eo; [|done].
  destruct (field row (high_idx cols)) as [sh|] eqn:Esh; [|done].
  destruct (to_float sh) as [h|] eqn:Eh; [|done].
  destruct (field row (low_idx cols)) as [sl|] eqn:Esl; [|done].
  destruct (to_float sl) as [l|] eqn:El; [|done].
  destruct (field row (close_idx cols)) as [sc|] eqn:Esc; [|done].
  destruct (to_float sc) as [c|] eqn:Ec; [|done].
  destruct (field row (vol_idx cols)) as [v|] eqn:Ev; [|done].
  inversion Hrow; subst; clear Hrow. cbn.
  split; [done|]. split.
  - exists b, adj. split; [done|]. exists o, h, l, c.
    unfold raw_prices, bind. rewrite Eso, Eo, Esh, Eh, Esl, El, Esc, Ec. done.
  - exists symbol, ts. done.
Qed.

(** Every row of the output comes from a source row that passes the
    filters, shifted by the adjustment of some interval. *)
Lemma pass2_loop_written cols primary intervals start_date end_date rows k idx written r :
  r ∈ (pass2_loop cols primary intervals start_date end_date rows k idx written).1 ->
  r ∈ written
  \/ exists row adj, row ∈ rows /\ adj ∈ map snd intervals
       /\ shifted_by cols adj row r /\ kept cols primary start_date end_date row.
Proof.
  revert k idx written.
  induction rows as [|row rows IH]; intros k idx written; cbn [pass2_loop].
  - by left.
  - destruct (progress cols (N.succ k) row) as [_|e]; [|by left].
    destruct (pass2_row cols primary intervals start_date end_date idx row)
      as [[|idx' r']|e] eqn:Erow.
    + intros Hr. destruct (IH _ _ _ Hr) as [?|(row' & adj & ? & ? & ? & ?)]; [by left|].
      right. exists row', adj. set_solver.
    + intros Hr. destruct (IH _ _ _ Hr) as [Hin|(row' & adj & ? & ? & ? & ?)].
      * apply elem_of_app in Hin as [?|Hin]; [by left|].
        apply list_elem_of_singleton in Hin as ->.
        apply pass2_row_written in Erow as (_ & (b & adj & Hiv & Hsh) & Hk).
        right. exists row, adj. split; [set_solver|]. split; [|done].
        apply list_elem_of_lookup_2 in Hiv.
        change (map snd intervals) with (snd <$> intervals).
        apply list_elem_of_fmap. by exists (b, adj).
      * right. exists row', adj. set_solver.
    + by left.
Qed.

(** On a source in time order and ascending boundaries, the adjustment of
    a written row is that of the interval that encloses its timestamp. *)
Lemma pass2_loop_sorted cols primary intervals start_date end_date rows k idx written r :
  StronglySorted str_le (map fst (tail intervals)) ->
  rows_time_ordered cols rows ->
  Forall (fun row => idx <= interval_index intervals (row_ts cols row)) rows ->
  r ∈ (pass2_loop cols primary intervals start_date end_date rows k idx written).1 ->
  r ∈ written
  \/ exists row b adj, row ∈ rows
       /\ intervals !! interval_index intervals (out_ts r) = Some (b, adj)
       /\ shifted_by cols adj row r /\ kept cols primary start_date end_date row.
Proof.
  intros Hiv. unfold rows_time_ordered. revert k idx written.
  induction rows as [|row rows IH]; intros k idx written Hrows Hidx; cbn [pass2_loop].
  - by left.
  - cbn [map] in Hrows.
    apply StronglySorted_cons in Hrows as [Hle Hrows].
    apply Forall_cons in Hidx as [Hidx0 Hidx].
    destruct (progress cols (N.succ k) row) as [_|e]; [|by left].
    destruct (pass2_row cols primary intervals start_date end_date idx row)
      as [[|idx' r']|e] eqn:Erow.
    + intros Hr. destruct (IH _ _ _ Hrows Hidx Hr) as [?|(row' & b & adj & ? & ? & ? & ?)];
        [by left|].
      right. exists row', b, adj. set_solver.
    + apply pass2_row_written in Erow as (Hadv & (b & adj & Hlk & Hsh) & Hk).
      assert (row_ts cols row = out_ts r') as Hts.
      { destruct Hsh as (? & ? & ? & ? & _ & _ & _ & _ & _ & Hf & _).
        unfold row_ts, field in *. by destruct (row !! ts_idx cols); simplify_eq. }
      rewrite Hts in Hidx0.
      rewrite (advance_sorted intervals _ idx Hiv Hidx0) in Hadv. subst idx'.
      assert (Forall (fun row0 => interval_index intervals (out_ts r')
                                  <= interval_index intervals (row_ts cols row0)) rows)
        as Hidx'.
      { apply Forall_forall. intros row' Hrow'.
        apply interval_index_mono. rewrite <- Hts.
        apply (proj1 (Forall_forall _ _) Hle).
        change (map ?f ?l) with (f <$> l).
        apply list_elem_of_fmap. by exists row'. }
      intros Hr.
      destruct (IH _ _ _ Hrows Hidx' Hr) as [Hin|(row' & b' & adj' & ? & ? & ? & ?)].
      * apply elem_of_app in Hin as [?|Hin]; [by left|].
        apply list_elem_of_singleton in Hin as ->.
        right. exists row, b, adj. set_solver.
      * right. exists row', b', adj'. set_solver.
    + by left.
Qed.

End Pass2.

(** ** The back-adjustment of the in-memory builder *)

Section BatchAdjust.
Context {num : Type} `{Arith num}.
Import Batch.

Lemma subtract_spread_ts (t : Z) (s : num) (b : bar num) :
  ts_event (subtract_spread t s b) = ts_event b.
Proof. unfold subtract_spread. by destruct (ts_event b <? t)%Z. Qed.

Lemma subtract_all_lowered (l : list (rollover num)) (b : bar num) :
  lowered_by (map spread (List.filter (fun r => (ts_event b <? find_rollover_minute r)%Z) l))
             b
             (foldl (fun b r => subtract_spread (find_rollover_minute r) (spread r) b) b l).
Proof.
  induction l as [|r l IH] using rev_ind.
  - by repeat split.
  - rewrite foldl_app, List.filter_app, map_app. cbn [foldl List.filter].
    destruct IH as (Hts & Hv & Hs & Ho & Hh & Hl & Hc).
    unfold subtract_spread at 1. rewrite Hts.
    destruct (ts_event b <? find_rollover_minute r)%Z; cbn [map].
    + unfold lowered_by. cbn. rewrite !foldl_app. cbn.
      by rewrite Hv, Hs, Ho, Hh, Hl, Hc.
    + rewrite app_nil_r. by repeat split.
Qed.

Lemma back_adjust_map (rs : list (rollover num)) (cont : list (bar num)) :
  back_adjust rs cont
  = map (fun b => foldl (fun b r => subtract_spread (find_rollover_minute r) (spread r) b)
                        b (reverse rs)) cont.
Proof.
  unfold back_adjust. generalize (reverse rs). intros l. revert cont.
  induction l as [|r l IH]; intros cont; cbn [foldl].
  - by rewrite map_id.
  - by rewrite IH, map_map.
Qed.

Lemma elem_of_drop_duplicates_last (b : bar num) (l : list (bar num)) :
  b ∈ drop_duplicates_last l -> b ∈ l.
Proof.
  induction l as [|x l IH]; cbn [drop_duplicates_last]; [done|].
  destruct (existsb _ l); set_solver.
Qed.

Lemma elem_of_insert_by_ts (b x : bar num) (l : list (bar num)) :
  b ∈ insert_by_ts x l <-> b = x \/ b ∈ l.
Proof.
  induction l as [|y l IH]; cbn [insert_by_ts]; [set_solver|].
  destruct (ts_event y <? ts_event x)%Z; set_solver.
Qed.

Lemma elem_of_sort_by_ts (b : bar num) (l : list (bar num)) :
  b ∈ sort_by_ts l <-> b ∈ l.
Proof.
  unfold sort_by_ts. induction l as [|x l IH]; cbn [foldr]; [done|].
  rewrite elem_of_insert_by_ts, IH. set_solver.
Qed.

(** Every bar of the continuous series is a bar of the data frame with
    the spreads of the later rollovers subtracted. *)
Lemma build_continuous_series_rows df rs daily_primary out b' :
  build_continuous_series df rs daily_primary = Ok out ->
  b' ∈ out ->
  exists b, b ∈ df /\ lowered_by (spreads_after rs (ts_event b)) b b'.
Proof.
  unfold build_continuous_series, bind.
  destruct (match rs with [] => _ | _ => _ end) as [first|]; [|done].
  destruct (ts_min df) as [lo|]; [|done]. destruct (ts_max df) as [hi|]; [|done].
  intros [= <-]. rewrite back_adjust_map.
  change (map ?f ?l) with (f <$> l). intros (b & -> & Hb)%list_elem_of_fmap.
  exists b. split.
  - apply elem_of_sort_by_ts, elem_of_drop_duplicates_last in Hb.
    by apply list_elem_of_filter in Hb as [_ ?].
  - apply subtract_all_lowered.
Qed.

End BatchAdjust.

Section BatchExact.
Context {num : Type} `{ExactArith num}.

Lemma foldl_fsub_shift (x : num) (ss : list num) :
  foldl fsub x ss = fadd x (foldl fsub fzero ss).
Proof.
  revert x. induction ss as [|s ss IH]; intros x; cbn [foldl].
  - by rewrite fadd_zero_r.
  - rewrite (IH (fsub x s)), (IH (fsub fzero s)), !fsub_def.
    by rewrite fadd_zero_l, fadd_assoc.
Qed.

End BatchExact.

(** ** The rollover log *)

Section RolloverLog.
Context {num : Type} `{Arith num}.
Import Streaming.

Lemma foldl_insert_is_Some {V : Type} (f : string -> V) (keys : list string)
    (d : gmap string V) (key : string) :
  is_Some (foldl (fun d k => <[ k := f k ]> d) d keys !! key)
  <-> is_Some (d !! key) \/ key ∈ keys.
Proof.
  revert d. induction keys as [|k keys IH]; intros d; cbn [foldl].
  - rewrite elem_of_nil. tauto.
  - rewrite IH, elem_of_cons. destruct (decide (k = key)) as [->|Hne].
    + rewrite lookup_insert_eq. split; [intros _; right; by left|]. intros _. by left.
    + rewrite lookup_insert_ne by done. split; [tauto|].
      intros [?|[?|?]]; [by left|by subst|by right].
Qed.

Lemma foldl_insert_pairs_is_Some (pairs : list (string * string))
    (d : gmap string (option string)) (key : string) :
  is_Some (foldl (fun d kv => <[ kv.1 := Some kv.2 ]> d) d pairs !! key)
  <-> is_Some (d !! key) \/ key ∈ map fst pairs.
Proof.
  revert d. induction pairs as [|[k v] pairs IH]; intros d; simpl.
  - rewrite elem_of_nil. tauto.
  - rewrite IH, elem_of_cons. destruct (decide (k = key)) as [->|Hne].
    + rewrite lookup_insert_eq. split; [intros _; right; by left|]. intros _. by left.
    + rewrite lookup_insert_ne by done. split; [tauto|].
      intros [?|[?|?]]; [by left|by subst|by right].
Qed.

Lemma fst_zip_take (fieldnames row : list string) :
  map fst (zip fieldnames row) = take (length row) fieldnames.
Proof.
  revert row. induction fieldnames as [|k fieldnames IH]; intros [|x row]; cbn; try done.
  by rewrite IH.
Qed.

(** The keys of a dictionary of the reader are the field names. *)
Lemma dict_of_row_keys (fieldnames row : list string) (key : string) :
  is_Some (dict_of_row fieldnames row !! key) <-> key ∈ fieldnames.
Proof.
  unfold dict_of_row.
  rewrite (foldl_insert_is_Some (fun _ => None)), foldl_insert_pairs_is_Some.
  rewrite lookup_empty, fst_zip_take.
  rewrite <- (take_drop (length row) fieldnames) at 3. rewrite elem_of_app.
  split; [|tauto]. intros [[[? [=]]|?]|?]; tauto.
Qed.

Lemma getitem_Ok (row : dict_row) (key : string) (value : option string) :
  getitem row key = Ok value <-> row !! key = Some value.
Proof. unfold getitem. destruct (row !! key); split; congruence. Qed.

(** One turn of the loop of [load_rollover_log]. *)
Lemma read_row_ok (row : dict_row) (r : loaded num) :
  read_row row = Ok r <-> read_as row r.
Proof.
  unfold read_row, read_as, bind, getitem, float_of_value. split.
  - destruct (row !! "date") as [d|]; [|done].
    destruct (row !! "from_symbol") as [f|]; [|done].
    destruct (row !! "to_symbol") as [t|]; [|done].
    destruct (row !! "spread") as [[s|]|]; [|done|done].
    destruct (to_float s) as [x|] eqn:Hs; [|done].
    intros [= <-]. cbn. do 3 (split; [done|]). by exists s.
  - intros (-> & -> & -> & s & -> & ->). by destruct r.
Qed.

Lemma read_row_raise (row : dict_row) (e : py_error) :
  read_row (num:=num) row = Raise e ->
  (e = KeyError
   /\ (row !! "date" = None \/ row !! "from_symbol" = None
       \/ row !! "to_symbol" = None \/ row !! "spread" = None))
  \/ (is_Some (row !! "date") /\ is_Some (row !! "from_symbol")
      /\ is_Some (row !! "to_symbol")
      /\ ((e = TypeError /\ row !! "spread" = Some None)
          \/ (e = ValueError
              /\ exists s, row !! "spread" = Some (Some s)
                           /\ float_of_string (num:=num) s = None))).
Proof.
  unfold read_row, bind, getitem, float_of_value, to_float.
  destruct (row !! "date") as [d|]; [|intros [= <-]; left; tauto].
  destruct (row !! "from_symbol") as [f|]; [|intros [= <-]; left; tauto].
  destruct (row !! "to_symbol") as [t|]; [|intros [= <-]; left; tauto].
  destruct (row !! "spread") as [[s|]|]; [| |intros [= <-]; left; tauto].
  - destruct (float_of_string s) eqn:Hs; [done|]. intros [= <-]. right.
    do 3 (split; [done|]). right. split; [done|]. by exists s.
  - intros [= <-]. right. do 3 (split; [done|]). by left.
Qed.

Lemma read_rollover_log_snoc (reader : list dict_row) (row : dict_row) :
  read_rollover_log (reader ++ [row])
  = (try rollovers := read_rollover_log (num:=num) reader in
     try r := read_row row in
     Ok (rollovers ++ [r])).
Proof. unfold read_rollover_log. by rewrite foldl_app. Qed.

Lemma read_rollover_log_ok (reader : list dict_row) (rs : list (loaded num)) :
  read_rollover_log reader = Ok rs <-> Forall2 read_as reader rs.
Proof.
  revert rs. induction reader as [|row reader IH] using rev_ind; intros rs.
  - cbn. split.
    + intros [= <-]. constructor.
    + intros Hall. apply Forall2_nil_inv_l in Hall. by subst.
  - rewrite read_rollover_log_snoc. unfold bind. split.
    + destruct (read_rollover_log reader) as [rs0|]; [|done].
      destruct (read_row row) as [r|] eqn:Hr; [|done].
      intros [= <-]. apply Forall2_app; [by apply IH|].
      constructor; [|constructor]. by apply read_row_ok.
    + intros Hall. apply Forall2_app_inv_l in Hall as (rs0 & rs1 & H0 & H1 & ->).
      apply IH in H0 as ->.
      apply Forall2_cons_inv_l in H1 as (r & rs2 & Hr & Hnil & ->).
      apply Forall2_nil_inv_l in Hnil as ->. apply read_row_ok in Hr. by rewrite Hr.
Qed.

(** The loop stops at the first dictionary that cannot be read. *)
Lemma read_rollover_log_raise (reader : list dict_row) (e : py_error) :
  read_rollover_log (num:=num) reader = Raise e ->
  exists pre row post rs,
    reader = pre ++ row :: post
    /\ read_rollover_log (num:=num) pre = Ok rs
    /\ read_row (num:=num) row = Raise e.
Proof.
  induction reader as [|row reader IH] using rev_ind; [done|].
  rewrite read_rollover_log_snoc. unfold bind.
  destruct (read_rollover_log reader) as [rs0|e0] eqn:Hpre.
  - destruct (read_row row) as [r|e1] eqn:Hr; [done|]. intros [= <-].
    by exists reader, row, [], rs0.
  - intros [= <-]. destruct (IH eq_refl) as (pre & row' & post & rs & -> & Hok & Hrow).
    exists pre, row', (post ++ [row]), rs. by rewrite <- app_assoc.
Qed.

Lemma with_dates_ok (ls : list (loaded num)) (rs : list (rollover num)) :
  with_dates ls = Ok rs <-> Forall2 (fun l r => with_date l = Ok r) ls rs.
Proof.
  revert rs. induction ls as [|l ls IH]; intros rs; cbn [with_dates].
  - split.
    + intros [= <-]. constructor.
    + intros Hall. apply Forall2_nil_inv_l in Hall. by subst.
  - unfold bind. split.
    + destruct (with_date l) as [r|] eqn:Hl; [|done].
      destruct (with_dates ls) as [rs'|]; [|done].
      intros [= <-]. constructor; [done|]. by apply IH.
    + intros Hall. apply Forall2_cons_inv_l in Hall as (r & rs' & -> & Hrest & ->).
      apply IH in Hrest. by rewrite Hrest.
Qed.

Lemma with_dates_raise (ls : list (loaded num)) (e : py_error) :
  with_dates ls = Raise e -> e = TypeError /\ exists l, l ∈ ls /\ l_date l = None.
Proof.
  induction ls as [|l ls IH]; cbn [with_dates]; [done|]. unfold bind, with_date at 1.
  destruct (l_date l) as [d|] eqn:Hd.
  - destruct (with_dates ls) as [rs'|e']; [done|]. intros [= <-].
    destruct (IH eq_refl) as (-> & l' & Hin & Hl'). split; [done|].
    exists l'. split; [by apply list_elem_of_further|done].
  - intros [= <-]. split; [done|]. exists l. split; [apply list_elem_of_here|done].
Qed.

(** A dictionary that holds a record is read as the record. *)
Lemma read_row_holds (row : dict_row) (record : log_row) :
  holds row record ->
  read_row (num:=num) row
  = (try s := to_float (log_spread record) in
     Ok {| l_date := Some (log_date record);
           l_from_symbol := Some (log_from_symbol record);
           l_to_symbol := Some (log_to_symbol record);
           l_spread := s |}).
Proof.
  intros (Hd & Hf & Ht & Hs). unfold read_row, getitem, bind, float_of_value.
  by rewrite Hd, Hf, Ht, Hs.
Qed.

(** The reader on a log file with the four columns. *)
Lemma DictReader_log_file (log : list log_row) :
  Forall2 holds (DictReader (log_file log)) log.
Proof.
  unfold log_file, DictReader. induction log as [|record log IH]; [constructor|].
  cbn [map List.filter bool_decide decide_rel negb]. 
  rewrite bool_decide_eq_false_2 by done. cbn [negb map].
  constructor; [|exact IH].
  by repeat split; vm_compute.
Qed.

End RolloverLog.

(** ** The auxiliary-series adjuster *)

Section LevelsProofs.
Context {num : Type} `{Arith num}.
Import Levels.

(** The adjustment is [0.0] minus, one after the other, the spreads of the
    rollovers that switch after the timestamp. *)
Lemma compute_adjustment_fold (t : Z) (rs : list (rollover num)) :
  compute_adjustment t rs
  = foldl fsub fzero (map spread (List.filter (fun r => (t <? switch_ms r)%Z) rs)).
Proof.
  unfold compute_adjustment. generalize (fzero : num).
  induction rs as [|r rs IH]; intros a; cbn [foldl List.filter]; [done|].
  destruct (t <? switch_ms r)%Z; cbn [map foldl]; apply IH.
Qed.

Lemma adjust_levels_spec (adj : num) (raws : list string) (levels : list num) :
  adjust_levels adj raws = Ok levels ->
  Forall2 (fun s v => exists raw, to_float s = Ok raw /\ v = fround2 (fadd raw adj))
          raws levels.
Proof.
  revert levels. induction raws as [|s raws IH]; intros levels; cbn [adjust_levels].
  - intros [= <-]. constructor.
  - unfold bind. destruct (to_float s) as [raw|] eqn:Es; [|done].
    destruct (adjust_levels adj raws) as [ls|]; [|done].
    intros [= <-]. constructor; eauto.
Qed.

Lemma insert_by_ms_sorted (r : rollover num) (rs : list (rollover num)) :
  Forall (fun r' => (switch_ms r <= switch_ms r')%Z) rs ->
  insert_by_ms r rs = r :: rs.
Proof.
  destruct rs as [|r' rs]; [done|]. intros [Hle _]%Forall_cons. cbn [insert_by_ms].
  destruct (Z.ltb_spec (switch_ms r') (switch_ms r)); [lia|done].
Qed.

(** Sorting a log that is in time order changes nothing. *)
Lemma sort_by_ms_sorted (rs : list (rollover num)) :
  StronglySorted Z.le (map switch_ms rs) -> sort_by_ms rs = rs.
Proof.
  unfold sort_by_ms. induction rs as [|r rs IH]; cbn [foldr map]; [done|].
  intros [Hall Hs]%StronglySorted_cons. rewrite IH by done.
  apply insert_by_ms_sorted. change (map ?f ?l) with (f <$> l) in Hall.
  rewrite Forall_fmap in Hall. exact Hall.
Qed.

(** What the adjuster reads off the records of the log. *)
Lemma read_rollovers_snoc (log : list Streaming.log_row) (row : Streaming.log_row) :
  read_rollovers (log ++ [row])
  = (try rollovers := read_rollovers log in
     try s := to_float (Streaming.log_spread row) in
     try ms := midnight_ms (Streaming.log_date row) in
     Ok (rollovers ++ [ {| date := Streaming.log_date row; switch_ms := ms; spread := s;
                           r_from := Streaming.log_from_symbol row;
                           r_to := Streaming.log_to_symbol row |} ])).
Proof. unfold read_rollovers. by rewrite foldl_app. Qed.

Lemma read_rollovers_ok (log : list Streaming.log_row) (rs : list (rollover num)) :
  read_rollovers log = Ok rs ->
  Forall2 (fun row r =>
             date r = Streaming.log_date row
             /\ midnight_ms (Streaming.log_date row) = Ok (switch_ms r)
             /\ to_float (Streaming.log_spread row) = Ok (spread r)
             /\ r_from r = Streaming.log_from_symbol row
             /\ r_to r = Streaming.log_to_symbol row) log rs.
Proof.
  revert rs. induction log as [|row log IH] using rev_ind; intros rs.
  - intros [= <-]. constructor.
  - rewrite read_rollovers_snoc. unfold bind.
    destruct (read_rollovers log) as [rs0|]; [|done].
    destruct (to_float (Streaming.log_spread row)) as [s|] eqn:Hs; [|done].
    destruct (midnight_ms (Streaming.log_date row)) as [ms|] eqn:Hms; [|done].
    intros [= <-]. apply Forall2_app; [by apply IH|].
    constructor; [|constructor]. by repeat split.
Qed.

(** Both scripts read the same dates and spreads off the log. *)
Lemma read_rollovers_streaming (reader : list Streaming.dict_row)
    (log : list Streaming.log_row) (lrs : list (rollover num)) :
  Forall2 Streaming.holds reader log ->
  read_rollovers log = Ok lrs ->
  exists (ls : list (Streaming.loaded num)) (srs : list (Streaming.rollover num)),
    Streaming.read_rollover_log reader = Ok ls
    /\ Streaming.with_dates ls = Ok srs
    /\ map Streaming.spread srs = map spread lrs
    /\ map Streaming.date srs = map date lrs.
Proof.
  intros Hholds Hread. apply read_rollovers_ok in Hread.
  assert (exists (ls : list (Streaming.loaded num)) (srs : list (Streaming.rollover num)),
            Forall2 Streaming.read_as reader ls
            /\ Forall2 (fun l r => Streaming.with_date l = Ok r) ls srs
            /\ map Streaming.spread srs = map spread lrs
            /\ map Streaming.date srs = map date lrs) as (ls & srs & Hls & Hsrs & Hsp & Hd).
  { revert lrs Hread. induction Hholds as [|row record reader log Hrow _ IH]; intros lrs Hread.
    - apply Forall2_nil_inv_l in Hread as ->. exists [], []. repeat split; constructor.
    - apply Forall2_cons_inv_l in Hread as (lr & lrs' & (Hdate & _ & Hs & _) & Hrest & ->).
      destruct (IH lrs' Hrest) as (ls & srs & Hls & Hsrs & Hsp & Hd).
      destruct Hrow as (Hrd & Hrf & Hrt & Hrs).
      exists ({| Streaming.l_date := Some (Streaming.log_date record);
                 Streaming.l_from_symbol := Some (Streaming.log_from_symbol record);
                 Streaming.l_to_symbol := Some (Streaming.log_to_symbol record);
                 Streaming.l_spread := spread lr |} :: ls),
             ({| Streaming.date := Streaming.log_date record;
                 Streaming.from_symbol := Some (Streaming.log_from_symbol record);
                 Streaming.to_symbol := Some (Streaming.log_to_symbol record);
                 Streaming.spread := spread lr |} :: srs).
      split; [|split; [|split]].
      + constructor; [|done]. do 3 (split; [done|]). by exists (Streaming.log_spread record).
      + by constructor.
      + cbn. by rewrite Hsp.
      + cbn. by rewrite Hd, Hdate. }
  exists ls, srs. split; [by apply read_rollover_log_ok|]. split; [by apply with_dates_ok|done].
Qed.

End LevelsProofs.

Section LevelsSub.
Context {num : Type} `{SubLaw num}.
Import Levels.

(** The adjustment is the sum of [-spread] over the rollovers that switch
    strictly after the timestamp, accumulated in the order of the list. *)
Lemma compute_adjustment_after (t : Z) (rs : list (rollover num)) :
  compute_adjustment t rs = adjustment_after t rs.
Proof.
  unfold compute_adjustment, adjustment_after, neg_spread_sum. generalize (fzero : num).
  induction rs as [|r rs IH]; intros a; cbn [foldl List.filter]; [done|].
  destruct (t <? switch_ms r)%Z; cbn [foldl]; [rewrite fsub_fadd_fneg|]; apply IH.
Qed.

End LevelsSub.

Section LevelsExact.
Context {num : Type} `{ExactArith num}.
Import Levels.

Lemma foldl_fsub_neg_sum (a : num) (l : list num) :
  foldl fsub a l = fadd a (foldr (fun s acc => fadd (fneg s) acc) fzero l).
Proof.
  revert a. induction l as [|s l IH]; intros a; cbn [foldl foldr].
  - by rewrite fadd_zero_r.
  - by rewrite IH, fsub_def, fadd_assoc.
Qed.

Lemma fneg_spread_sum (l : list num) :
  fneg (Streaming.spread_sum l) = foldr (fun s acc => fadd (fneg s) acc) fzero l.
Proof.
  induction l as [|s l IH]; cbn [foldr].
  - apply fneg_zero.
  - unfold Streaming.spread_sum in *. cbn [foldr].
    by rewrite fneg_fadd, IH, fadd_comm.
Qed.

End LevelsExact.

(** ** Alignment of the two adjustments *)

Section Alignment.
Context {num : Type} `{Arith num}.
Import Streaming.

Lemma reached_boundaries (ts : string) (later : list (string * num)) :
  reached ts later = length (filter (fun b => str_ge ts b = true) (map fst later)).
Proof.
  unfold reached. induction later as [|[b a] later IH]; [done|].
  cbn [map fst]. rewrite !filter_cons. cbn [fst].
  destruct (decide (str_ge ts b = true)); cbn [length]; by rewrite IH.
Qed.

Lemma filter_after_all {A : Type} (key : A -> string) (ts : string) (l : list A) :
  Forall (fun x => str_ge ts (key x) = false) l ->
  List.filter (fun x => negb (str_ge ts (key x))) l = l
  /\ filter (fun b => str_ge ts b = true) (map key l) = [].
Proof.
  induction 1 as [|x l Hx Hl [IH1 IH2]]; [done|]. cbn [map List.filter].
  rewrite Hx, filter_cons, decide_False by congruence. cbn [negb].
  by rewrite IH1, IH2.
Qed.

(** In a list whose keys ascend, the entries after [ts] are what is left
    when the entries at or before [ts] are dropped. *)
Lemma filter_after_drop {A : Type} (key : A -> string) (ts : string) (l : list A) :
  StronglySorted str_le (map key l) ->
  List.filter (fun x => negb (str_ge ts (key x))) l
  = drop (length (filter (fun b => str_ge ts b = true) (map key l))) l.
Proof.
  induction l as [|x l IH]; [done|]. cbn [map List.filter].
  intros [Hall Hs]%StronglySorted_cons. rewrite filter_cons.
  destruct (str_ge ts (key x)) eqn:Hge; cbn [negb].
  - rewrite decide_True by done. cbn [length drop]. by apply IH.
  - rewrite decide_False by congruence.
    assert (Forall (fun y => str_ge ts (key y) = false) l) as Hnone.
    { change (map ?f ?l) with (f <$> l) in Hall. rewrite Forall_fmap in Hall.
      eapply Forall_impl; [exact Hall|]. intros y Hle. cbn in Hle.
      destruct (str_ge ts (key y)) eqn:Hb; [|done].
      unfold str_le in Hle. by rewrite (str_ge_trans ts (key y) (key x) Hb Hle) in Hge. }
    destruct (filter_after_all key ts l Hnone) as [-> ->]. done.
Qed.

Lemma engine_adjustment (srs : list (rollover num)) (ts b : string) (adj : num) :
  srs <> [] ->
  build_adjustment_intervals srs !! interval_index (build_adjustment_intervals srs) ts
    = Some (b, adj) ->
  adj = fneg (spread_sum
                (drop (length (filter (fun b => str_ge ts b = true) (map boundary srs)))
                      (map spread srs))).
Proof.
  intros Hne Hlk. rewrite (intervals_adjustment srs _ b adj Hne Hlk). do 3 f_equal.
  rewrite interval_index_reached, reached_boundaries.
  assert (map fst (tail (build_adjustment_intervals srs)) = map boundary srs) as ->; [|done].
  pose proof (intervals_boundaries srs) as Hb.
  destruct (build_adjustment_intervals srs); [done|]. by injection Hb.
Qed.

End Alignment.

Section AlignmentExact.
Context {num : Type} `{ExactArith num}.

(** The adjuster's adjustment at [t] is the adjustment of the interval
    that encloses [ts], when [t] and [ts] lie on the same side of every
    rollover. *)
Lemma aligned_adjustment (srs : list (Streaming.rollover num))
    (lrs : list (Levels.rollover num)) (ts : string) (t : Z) (b : string) (adj : num) :
  map Streaming.spread srs = map Levels.spread lrs ->
  map Streaming.date srs = map Levels.date lrs ->
  Streaming.time_ordered srs ->
  (forall lr, lr ∈ lrs ->
     str_ge ts (Levels.date lr +:+ Streaming.midnight) = (Levels.switch_ms lr <=? t)%Z) ->
  Streaming.build_adjustment_intervals srs
    !! Streaming.interval_index (Streaming.build_adjustment_intervals srs) ts
    = Some (b, adj) ->
  Levels.compute_adjustment t lrs = adj.
Proof.
  intros Hsp Hd Hsorted Hsame Hlk.
  destruct srs as [|sr srs'] eqn:Esrs.
  { destruct lrs; [|done]. cbn in Hlk. by injection Hlk as _ <-. }
  rewrite <- Esrs in *. assert (srs <> []) as Hne by (by subst).
  rewrite (engine_adjustment srs ts b adj Hne Hlk).
  rewrite compute_adjustment_fold, foldl_fsub_neg_sum, fadd_zero_l, fneg_spread_sum.
  f_equal. rewrite Hsp.
  change (map Levels.spread lrs) with (Levels.spread <$> lrs).
  rewrite <- fmap_drop. change (?f <$> ?l) with (map f l). f_equal.
  assert (map Streaming.boundary srs
          = map (fun lr => Levels.date lr +:+ Streaming.midnight) lrs) as Hkeys.
  { unfold Streaming.boundary.
    rewrite <- (map_map Streaming.date (fun d => d +:+ Streaming.midnight)), Hd.
    by rewrite map_map. }
  rewrite Hkeys. unfold Streaming.time_ordered in Hsorted. rewrite Hkeys in Hsorted.
  rewrite <- (filter_after_drop _ ts lrs Hsorted).
  apply List.filter_ext_in. intros lr Hin. apply list_elem_of_In in Hin.
  rewrite (Hsame lr Hin). destruct (Z.ltb_spec t (Levels.switch_ms lr));
    destruct (Z.leb_spec (Levels.switch_ms lr) t); (done || lia).
Qed.

End AlignmentExact.

(** ** The spread calculator *)

Section Spreads.
Context {num : Type} `{Arith num}.
Import Batch.

Lemma existsb_same_ts (b : bar num) (l : list (bar num)) :
  existsb (fun b' => (ts_event b' =? ts_event b)%Z) l = true
  <-> exists b', b' ∈ l /\ ts_event b' = ts_event b.
Proof.
  rewrite existsb_exists. split; intros (b' & Hin & Heq); exists b'.
  - split; [by apply list_elem_of_In | lia].
  - split; [by apply list_elem_of_In | lia].
Qed.

Lemma filter_none (P : bar num -> Prop) `{forall b, Decision (P b)} (l : list (bar num)) :
  (forall b, b ∈ l -> ~ P b) -> filter P l = [].
Proof.
  induction l as [|x l IH]; [done|]. intros Hn.
  rewrite filter_cons, decide_False by (apply Hn; set_solver).
  apply IH. intros b Hb. apply Hn. set_solver.
Qed.

(** After the deduplication, the series holds at [t] the close of the last
    bar at [t]. *)
Lemma series_at_dedup (l : list (bar num)) (t : Z) :
  series_at (map (fun b => (ts_event b, close b)) (drop_duplicates_last l)) t
  = last (map close (filter (fun b => ts_event b = t) l)).
Proof.
  induction l as [|b l IH]; [done|]. cbn [drop_duplicates_last].
  rewrite filter_cons.
  destruct (existsb _ l) eqn:Hex.
  - rewrite IH. destruct (decide (ts_event b = t)) as [Hbt|]; [|done].
    apply existsb_same_ts in Hex as (b' & Hin & Heq).
    assert (b' ∈ filter (fun b0 => ts_event b0 = t) l) as Hin'
      by (apply list_elem_of_filter; split; [congruence|done]).
    destruct (filter (fun b0 => ts_event b0 = t) l) as [|x xs]; [by inversion Hin'|].
    done.
  - cbn [map series_at].
    destruct (Z.eqb_spec (ts_event b) t) as [Hbt|Hbt].
    + rewrite decide_True by done.
      rewrite filter_none; [done|]. intros b' Hin Hb'.
      assert (existsb (fun b' => (ts_event b' =? ts_event b)%Z) l = true) as Hex'
        by (apply existsb_same_ts; exists b'; split; [done|congruence]).
      congruence.
    + by rewrite decide_False by done.
Qed.

Lemma elem_of_dedup_ts (l : list (bar num)) (t : Z) :
  t ∈ map ts_event (drop_duplicates_last l) <-> t ∈ map ts_event l.
Proof.
  induction l as [|b l IH]; [done|]. cbn [drop_duplicates_last].
  destruct (existsb _ l) eqn:Hex; cbn [map].
  - rewrite IH. split; [set_solver|]. intros [->|?]%elem_of_cons; [|done].
    apply existsb_same_ts in Hex as (b' & Hin & <-).
    change (map ?f ?l) with (f <$> l). apply list_elem_of_fmap. by exists b'.
  - rewrite !elem_of_cons, IH. done.
Qed.

Lemma NoDup_dedup_ts (l : list (bar num)) :
  NoDup (map ts_event (drop_duplicates_last l)).
Proof.
  induction l as [|b l IH]; [constructor|]. cbn [drop_duplicates_last].
  destruct (existsb _ l) eqn:Hex; [done|]. cbn [map]. constructor; [|done].
  rewrite elem_of_dedup_ts. change (map ?f ?l) with (f <$> l).
  intros (b' & Heq & Hin)%list_elem_of_fmap.
  assert (existsb (fun b' => (ts_event b' =? ts_event b)%Z) l = true) as Hex'
    by (apply existsb_same_ts; exists b'; by split).
  congruence.
Qed.

Lemma series_at_is_Some (series : list (Z * num)) (t : Z) :
  is_Some (series_at series t) <-> t ∈ map fst series.
Proof.
  induction series as [|[t' v] series IH]; cbn [series_at map fst].
  - split; [by intros [? ?] | by intros ?%elem_of_nil].
  - destruct (Z.eqb_spec t' t) as [->|Hne].
    + split; [set_solver | by eexists].
    + rewrite IH. set_solver.
Qed.

Lemma closes_of_index (window : list (bar num)) (sym : string) (t : Z) :
  t ∈ map fst (closes_of window sym)
  <-> exists b, b ∈ window /\ symbol b = sym /\ ts_event b = t.
Proof.
  unfold closes_of. rewrite map_map. cbn [fst].
  rewrite (elem_of_dedup_ts (filter (fun b => symbol b = sym) window) t).
  change (map ?f ?l) with (f <$> l). rewrite list_elem_of_fmap.
  split.
  - intros (b & -> & [? ?]%list_elem_of_filter). by exists b.
  - intros (b & ? & ? & ?). exists b. split; [done|]. by apply list_elem_of_filter.
Qed.

Lemma closes_of_at (df : list (bar num)) (roll : Z) (sym : string) (t : Z) :
  series_at
    (closes_of (filter (fun b => (roll - 12 * ns_per_hour <= ts_event b)%Z
                                 /\ (ts_event b <= roll + 12 * ns_per_hour)%Z) df) sym) t
  = last_close_at df roll sym t.
Proof.
  unfold closes_of, last_close_at. rewrite series_at_dedup. do 2 f_equal.
  rewrite !list_filter_filter. apply list_filter_iff. intros b. unfold in_window. tauto.
Qed.

Lemma omap_Forall2 {A B : Type} (f : A -> option B) (l : list A) :
  (forall x, x ∈ l -> is_Some (f x)) ->
  Forall2 (fun x y => f x = Some y) l (omap f l).
Proof.
  induction l as [|x l IH]; intros Hall; cbn [omap list_omap]; [constructor|].
  destruct (Hall x ltac:(set_solver)) as [y Hy]. rewrite Hy.
  constructor; [done|]. apply IH. intros ? ?. apply Hall. set_solver.
Qed.

End Spreads.

Import Iso8601.

Lemma append_cons (x : ascii) (a b : string) : String x a +:+ b = String x (a +:+ b).
Proof. reflexivity. Qed.

Lemma append_empty (b : string) : "" +:+ b = b.
Proof. reflexivity. Qed.

Lemma string_app_assoc (a b c : string) : (a +:+ b) +:+ c = a +:+ (b +:+ c).
Proof.
  induction a as [|x a IH]; [done|]. by rewrite !append_cons, IH.
Qed.

Lemma digit_char_compare (p q : Z) :
  (0 <= p < 10)%Z -> (0 <= q < 10)%Z ->
  Ascii.compare (digit_char p) (digit_char q) = (p ?= q)%Z.
Proof.
  intros Hp Hq. unfold Ascii.compare, digit_char.
  rewrite !N_ascii_embedding by lia.
  rewrite Z2N.inj_compare by lia. apply Z.add_compare_mono_l.
Qed.

(** Numbers written on the same number of digits compare as their text. *)
Lemma compare_zero_padded (w : nat) (n1 n2 : Z) (r1 r2 : string) :
  (0 <= n1 < 10 ^ Z.of_nat w)%Z -> (0 <= n2 < 10 ^ Z.of_nat w)%Z ->
  String.compare (zero_padded w n1 +:+ r1) (zero_padded w n2 +:+ r2)
  = match (n1 ?= n2)%Z with
    | Eq => String.compare r1 r2
    | c => c
    end.
Proof.
  revert n1 n2. induction w as [|w IH]; intros n1 n2 H1 H2.
  - simpl in *. assert (n1 = 0%Z) as -> by lia. assert (n2 = 0%Z) as -> by lia. done.
  - cbn [zero_padded]. rewrite !append_cons. cbn [String.compare].
    rewrite Nat2Z.inj_succ, Z.pow_succ_r in H1, H2 by lia.
    set (p := (10 ^ Z.of_nat w)%Z) in *.
    assert (0 < p)%Z as Hp by (apply Z.pow_pos_nonneg; lia).
    pose proof (Z.div_mod n1 p ltac:(lia)) as E1.
    pose proof (Z.div_mod n2 p ltac:(lia)) as E2.
    pose proof (Z.mod_pos_bound n1 p Hp) as B1.
    pose proof (Z.mod_pos_bound n2 p Hp) as B2.
    assert (0 <= n1 / p < 10)%Z as Q1
      by (split; [apply Z.div_pos; lia | apply Z.div_lt_upper_bound; lia]).
    assert (0 <= n2 / p < 10)%Z as Q2
      by (split; [apply Z.div_pos; lia | apply Z.div_lt_upper_bound; lia]).
    rewrite (digit_char_compare _ _ Q1 Q2), (IH _ _ B1 B2).
    destruct (Z.compare_spec (n1 / p) (n2 / p)) as [Hq|Hq|Hq].
    + destruct (Z.compare_spec (n1 mod p) (n2 mod p)) as [Hr|Hr|Hr].
      * assert (n1 = n2) as -> by lia. by rewrite Z.compare_refl.
      * assert ((n1 ?= n2)%Z = Lt) as -> by (apply Z.compare_lt_iff; lia). done.
      * assert ((n1 ?= n2)%Z = Gt) as -> by (apply Z.compare_gt_iff; lia). done.
    + assert ((n1 ?= n2)%Z = Lt) as -> by (apply Z.compare_lt_iff; nia). done.
    + assert ((n1 ?= n2)%Z = Gt) as -> by (apply Z.compare_gt_iff; nia). done.
Qed.

Lemma compare_iso_date (a b : cal_date) (r1 r2 : string) :
  valid_date a -> valid_date b ->
  String.compare (iso_date a +:+ r1) (iso_date b +:+ r2)
  = match date_compare a b with
    | Eq => String.compare r1 r2
    | c => c
    end.
Proof.
  intros (Hy1 & Hm1 & Hd1) (Hy2 & Hm2 & Hd2). unfold iso_date, date_compare.
  rewrite !string_app_assoc.
  rewrite compare_zero_padded by (simpl; lia).
  destruct (year a ?= year b)%Z; try done.
  rewrite ?append_cons, ?append_empty. cbn [String.compare]. rewrite ascii_compare_refl.
  rewrite compare_zero_padded by (simpl; lia).
  destruct (month a ?= month b)%Z; try done.
  rewrite ?append_cons, ?append_empty. cbn [String.compare]. rewrite ascii_compare_refl.
  by rewrite compare_zero_padded by (simpl; lia).
Qed.

Lemma date_compare_le (a b : cal_date) : date_le a b <-> date_compare a b <> Gt.
Proof.
  unfold date_le, date_compare.
  destruct (Z.compare_spec (year a) (year b));
    destruct (Z.compare_spec (month a) (month b));
    destruct (Z.compare_spec (day a) (day b)); split; (congruence || lia || intros _; lia).
Qed.

Lemma date_compare_antisym (a b : cal_date) :
  date_compare a b = CompOpp (date_compare b a).
Proof.
  unfold date_compare.
  rewrite (Z.compare_antisym (year a)), (Z.compare_antisym (month a)),
    (Z.compare_antisym (day a)).
  destruct (year a ?= year b)%Z, (month a ?= month b)%Z, (day a ?= day b)%Z; done.
Qed.

Lemma iso_date_nonempty (d : cal_date) : String.eqb (iso_date d) "" = false.
Proof. reflexivity. Qed.

Lemma compare_cons_same (c : ascii) (a b : string) :
  String.compare (String c a) (String c b) = String.compare a b.
Proof. cbn [String.compare]. by rewrite ascii_compare_refl. Qed.

Lemma compare_end_of_day (hour : Z) (rest : string) :
  (0 <= hour < 24)%Z ->
  String.compare "T99" ("T" +:+ zero_padded 2 hour +:+ rest) = Gt.
Proof.
  intros Hh. change "T99" with (String "T" (zero_padded 2 99 +:+ "")).
  rewrite append_cons, append_empty, compare_cons_same.
  rewrite (compare_zero_padded 2 99 hour "" rest) by (simpl; lia).
  assert ((99 ?= hour)%Z = Gt) as Hgt by (apply Z.compare_gt_iff; lia).
  by rewrite Hgt.
Qed.

Lemma compare_start_of_day (hour : Z) (rest : string) :
  String.compare ("T" +:+ zero_padded 2 hour +:+ rest) "T" = Gt.
Proof. reflexivity. Qed.

(** The date filter on well-formed input: a row is skipped exactly when its
    date is before the start or after the end. *)
Lemma date_skipped_iso (s e d : cal_date) (hour : Z) (rest : string) :
  valid_date s -> valid_date e -> valid_date d -> (0 <= hour < 24)%Z ->
  Streaming.date_skipped (Some (iso_date s +:+ "T")) (Some (iso_date e +:+ "T99"))
                         (iso_timestamp d hour rest) = false
  <-> date_le s d /\ date_le d e.
Proof.
  intros Hs He Hd Hh. unfold Streaming.date_skipped, truthy, str_lt, String.ltb.
  cbn [default].
  assert (String.eqb (iso_date s +:+ "T") "" = false) as -> by reflexivity.
  assert (String.eqb (iso_date e +:+ "T99") "" = false) as -> by reflexivity.
  cbn [negb andb]. unfold iso_timestamp.
  rewrite (compare_iso_date d s _ "T" Hd Hs).
  rewrite (compare_iso_date e d "T99" _ He Hd).
  rewrite compare_start_of_day, (compare_end_of_day hour rest Hh).
  rewrite !date_compare_le, (date_compare_antisym d e), (date_compare_antisym s d).
  destruct (date_compare d s), (date_compare e d); cbn; intuition congruence.
Qed.

Section Pass2Output.
Context {num : Type} `{Arith num}.
Import Streaming.

Lemma pass2_output input primary intervals start_date end_date r :
  r ∈ (pass2_filter_adjust_write input primary intervals start_date end_date).1 ->
  exists header rows cols,
    input = header :: rows /\ find_columns header = Ok cols
    /\ r ∈ (pass2_loop cols primary intervals start_date end_date rows 0 0 []).1.
Proof.
  unfold pass2_filter_adjust_write. destruct input as [|header rows].
  - by intros ?%elem_of_nil.
  - destruct (find_columns header) as [cols|e] eqn:Hcols.
    + intros Hr. by exists header, rows, cols.
    + by intros ?%elem_of_nil.
Qed.

End Pass2Output.

Section SameInterval.
Context {num : Type} `{Arith num}.
Import Streaming.

Lemma filter_length_ext (ta tb : string) (l : list string) :
  (forall b, b ∈ l -> str_ge ta b = str_ge tb b) ->
  length (filter (fun b => str_ge ta b = true) l)
  = length (filter (fun b => str_ge tb b = true) l).
Proof.
  induction l as [|b l IH]; intros Hext; [done|].
  rewrite !filter_cons, (Hext b) by set_solver.
  destruct (decide (str_ge tb b = true)); cbn [length]; rewrite IH; try done;
    intros ? ?; apply Hext; set_solver.
Qed.

Lemma interval_index_boundaries (rs : list (rollover num)) (ts : string) :
  interval_index (build_adjustment_intervals rs) ts
  = length (filter (fun b => str_ge ts b = true) (map boundary rs)).
Proof.
  rewrite interval_index_reached, reached_boundaries.
  pose proof (intervals_boundaries rs) as Hb.
  destruct (build_adjustment_intervals rs); [done|]. injection Hb as _ Hb.
  by rewrite <- Hb.
Qed.

Lemma same_interval_index (rs : list (rollover num)) (ta tb : string) :
  same_interval rs ta tb ->
  interval_index (build_adjustment_intervals rs) ta
  = interval_index (build_adjustment_intervals rs) tb.
Proof.
  intros Hsame. rewrite !interval_index_boundaries. apply filter_length_ext.
  change (map ?f ?l) with (f <$> l). intros b (r & -> & Hr)%list_elem_of_fmap.
  by apply Hsame.
Qed.

Lemma intervals_tail_sorted (rs : list (rollover num)) :
  time_ordered rs ->
  StronglySorted str_le (map fst (tail (build_adjustment_intervals rs))).
Proof.
  intros Hs. pose proof (intervals_boundaries rs) as Hb.
  destruct (build_adjustment_intervals rs); [done|]. injection Hb as _ Hb.
  cbn [tail]. by rewrite Hb.
Qed.

(** On a source in time order, a written row is shifted by the adjustment
    of the interval that encloses its timestamp. *)
Lemma pass2_sorted_output header rows cols primary rs start_date end_date r :
  find_columns header = Ok cols ->
  time_ordered rs ->
  rows_time_ordered cols rows ->
  r ∈ (pass2_filter_adjust_write (header :: rows) primary
         (build_adjustment_intervals rs) start_date end_date).1 ->
  exists row b adj,
    row ∈ rows
    /\ build_adjustment_intervals rs
         !! interval_index (build_adjustment_intervals rs) (out_ts r) = Some (b, adj)
    /\ shifted_by cols adj row r
    /\ Streaming.kept cols primary start_date end_date row.
Proof.
  intros Hcols Hrs Hrows. unfold pass2_filter_adjust_write. rewrite Hcols. intros Hr.
  assert (Forall (fun row => 0 <= interval_index (build_adjustment_intervals rs)
                                                 (row_ts cols row)) rows) as Hzero
    by (apply Forall_forall; intros ? _; lia).
  destruct (pass2_loop_sorted _ _ _ _ _ _ _ _ _ _ (intervals_tail_sorted rs Hrs)
              Hrows Hzero Hr) as [Hin|Hin]; [by apply elem_of_nil in Hin | done].
Qed.

End SameInterval.

(** ** Failures of pass 2 *)

Section Failures.
Context {num : Type} `{Arith num}.
Import Streaming.

Lemma advance_from_le (later : list (string * num)) (ts : string) (idx : nat) :
  advance_from later ts idx <= idx + length later.
Proof.
  revert idx. induction later as [|[b a] later IH]; intros idx; cbn [advance_from length].
  - lia.
  - destruct (str_ge ts b); [|lia]. specialize (IH (S idx)). lia.
Qed.

Lemma advance_lt (intervals : list (string * num)) (ts : string) (idx : nat) :
  idx < length intervals -> advance intervals ts idx < length intervals.
Proof.
  intros Hidx. unfold advance.
  pose proof (advance_from_le (drop (S idx) intervals) ts idx) as Hle.
  rewrite length_drop in Hle. lia.
Qed.

(** What pass 2 does with a row that passes the filters. *)
Lemma pass2_row_kept cols primary intervals start_date end_date idx row :
  Streaming.kept cols primary start_date end_date row ->
  idx < length intervals ->
  exists symbol ts b adj,
    field row (sym_idx cols) = Ok symbol /\ field row (ts_idx cols) = Ok ts
    /\ intervals !! advance intervals ts idx = Some (b, adj)
    /\ pass2_row cols primary intervals start_date end_date idx row
       = (try p := raw_prices cols row in
          try v := field row (vol_idx cols) in
          Ok (Written (advance intervals ts idx)
                {| out_ts := ts;
                   out_open := fadd p.1.1.1 adj; out_high := fadd p.1.1.2 adj;
                   out_low := fadd p.1.2 adj; out_close := fadd p.2 adj;
                   out_volume := v; out_symbol := "ES_continuous";
                   out_contract := symbol |})).
Proof.
  intros (symbol & ts & Hsym & Hdash & Hts & Hdate & Hprim) Hidx.
  destruct (lookup_lt_is_Some_2 intervals (advance intervals ts idx)
              (advance_lt intervals ts idx Hidx)) as [[b adj] Hlk].
  exists symbol, ts, b, adj. repeat split; try done.
  unfold pass2_row, raw_prices, bind.
  rewrite Hsym, Hdash, Hts, Hdate, Hprim, String.eqb_refl, Hlk. cbn [negb].
  destruct (field row (open_idx cols)) as [so|]; [|done].
  destruct (to_float so) as [o|]; [|done].
  destruct (field row (high_idx cols)) as [sh|]; [|done].
  destruct (to_float sh) as [h|]; [|done].
  destruct (field row (low_idx cols)) as [sl|]; [|done].
  destruct (to_float sl) as [l|]; [|done].
  destruct (field row (close_idx cols)) as [sc|]; [|done].
  destruct (to_float sc) as [c|]; [|done].
  done.
Qed.

(** A row that passes the filters and whose prices do not parse raises,
    wherever the scan stands. *)
Lemma pass2_row_bad_prices cols primary intervals start_date end_date idx row e :
  Streaming.kept cols primary start_date end_date row ->
  raw_prices cols row = Raise e ->
  idx < length intervals ->
  pass2_row cols primary intervals start_date end_date idx row = Raise e.
Proof.
  intros Hkept Hraw Hidx.
  destruct (pass2_row_kept _ _ _ _ _ _ _ Hkept Hidx) as (? & ? & ? & ? & _ & _ & _ & ->).
  by rewrite Hraw.
Qed.

(** The progress report reads a field that a row that passes the filters
    has. *)
Lemma progress_kept cols primary start_date end_date k row :
  Streaming.kept cols primary start_date end_date row -> progress cols k row = Ok tt.
Proof.
  intros (symbol & ts & _ & _ & Hts & _). unfold progress, bind.
  destruct (_ =? _)%N; [|done]. by rewrite Hts.
Qed.

(** The rows after a prefix that raises nothing are processed from some
    position of the scan, with the rows of the prefix counted and written. *)
Lemma pass2_loop_app cols primary intervals start_date end_date rows1 k idx written w1 n :
  idx < length intervals ->
  pass2_loop cols primary intervals start_date end_date rows1 k idx written = (w1, Ok n) ->
  exists idx1,
    idx1 < length intervals
    /\ forall rest,
         pass2_loop cols primary intervals start_date end_date (rows1 ++ rest) k idx written
         = pass2_loop cols primary intervals start_date end_date rest
             (k + N.of_nat (length rows1)) idx1 w1.
Proof.
  revert k idx written. induction rows1 as [|row rows1 IH]; intros k idx written Hidx;
    cbn [pass2_loop app length].
  - intros [= <- _]. exists idx. split; [done|]. intros rest. by rewrite N.add_0_r.
  - replace (k + N.of_nat (S (length rows1)))%N
      with (N.succ k + N.of_nat (length rows1))%N by lia.
    destruct (progress cols (N.succ k) row) as [_|e]; [|done].
    destruct (pass2_row cols primary intervals start_date end_date idx row)
      as [[|idx' r]|e] eqn:Erow; [by apply IH | | done].
    apply IH. apply pass2_row_written in Erow as (_ & (b & adj & Hlk & _) & _).
    by apply lookup_lt_Some in Hlk.
Qed.

End Failures.

(** ** The rows that stop a pass *)

Section RowFailures.
Context {num : Type} `{Arith num}.
Import Streaming.

Local Abbreviation pass1_step cols start_date end_date :=
  (fun acc row =>
     try st := acc in
     let row_count := N.succ st.1 in
     try _ := progress cols row_count row in
     try hourly_volume := pass1_row cols start_date end_date st.2 row in
     Ok (row_count, hourly_volume)).

Lemma field_raise (row : list string) (i : nat) (e : py_error) :
  field row i = Raise e -> e = IndexError.
Proof. unfold field. destruct (row !! i); congruence. Qed.

Lemma field_app (row extra : list string) (i : nat) :
  i < length row -> field (row ++ extra) i = field row i.
Proof. intros Hi. unfold field. by rewrite lookup_app_l. Qed.

Lemma col_index_from_lt (name : string) (header : list string) (i : nat)
    (found : option nat) (j : nat) :
  col_index_from name header i found = Some j ->
  found = Some j \/ i <= j < i + length header.
Proof.
  revert i found. induction header as [|h header IH]; intros i found; cbn; [by left|].
  intros Hj. destruct (IH _ _ Hj) as [Hfound|Hlt]; [|right; lia].
  destruct (String.eqb h name); [|by left]. injection Hfound as <-. right. lia.
Qed.

Lemma col_index_lt (header : list string) (name : string) (i : nat) :
  col_index header name = Ok i -> i < length header.
Proof.
  unfold col_index. destruct (col_index_from name header 0 None) as [j|] eqn:Hj; [|done].
  intros [= <-]. destruct (col_index_from_lt _ _ _ _ _ Hj) as [?|?]; [done|lia].
Qed.

Lemma find_columns_lt (header : list string) (cols : columns) :
  find_columns header = Ok cols ->
  Forall (fun i => i < length header) (pass2_fields cols).
Proof.
  unfold find_columns, bind.
  destruct (col_index header "ts_event") as [ts|] eqn:Hts; [|done].
  destruct (col_index header "open") as [o|] eqn:Ho; [|done].
  destruct (col_index header "high") as [h|] eqn:Hh; [|done].
  destruct (col_index header "low") as [l|] eqn:Hl; [|done].
  destruct (col_index header "close") as [c|] eqn:Hc; [|done].
  destruct (col_index header "volume") as [v|] eqn:Hv; [|done].
  destruct (col_index header "symbol") as [s|] eqn:Hs; [|done].
  intros [= <-]. unfold pass2_fields. cbn.
  repeat constructor; by eapply col_index_lt.
Qed.

Lemma progress_raise (cols : columns) (k : N) (row : list string) (e : py_error) :
  progress cols k row = Raise e ->
  e = IndexError /\ field row (ts_idx cols) = Raise IndexError.
Proof.
  unfold progress, bind. destruct (_ =? _)%N; [|done].
  destruct (field row (ts_idx cols)) as [ts|e'] eqn:Hts; [done|].
  intros [= <-]. by rewrite (field_raise _ _ _ Hts) in *.
Qed.

(** Why a row stops pass 1. *)
Lemma pass1_row_raise cols start_date end_date hv (row : list string) (e : py_error) :
  pass1_row cols start_date end_date hv row = Raise e ->
  (e = IndexError /\ lacks_field (pass1_fields cols) row)
  \/ (e = ValueError /\ not_a_number [vol_idx cols] row).
Proof.
  unfold pass1_row, bind, to_float, lacks_field, not_a_number, pass1_fields.
  destruct (field row (sym_idx cols)) as [symbol|e'] eqn:Hsym.
  2:{ intros [= <-]. pose proof (field_raise _ _ _ Hsym) as ->. left. split; [done|].
      exists (sym_idx cols). split; [set_solver|done]. }
  destruct (has_dash symbol); [done|].
  destruct (field row (ts_idx cols)) as [ts|e'] eqn:Hts.
  2:{ intros [= <-]. pose proof (field_raise _ _ _ Hts) as ->. left. split; [done|].
      exists (ts_idx cols). split; [set_solver|done]. }
  destruct (date_skipped start_date end_date ts); [done|].
  destruct (field row (vol_idx cols)) as [v|e'] eqn:Hv.
  2:{ intros [= <-]. pose proof (field_raise _ _ _ Hv) as ->. left. split; [done|].
      exists (vol_idx cols). split; [set_solver|done]. }
  destruct (float_of_string v) eqn:Hf; [done|]. intros [= <-]. right. split; [done|].
  exists (vol_idx cols), v. split; [set_solver|done].
Qed.

Lemma pass1_fold_raised cols start_date end_date (rows : list (list string))
    (e : py_error) :
  foldl (pass1_step cols start_date end_date) (Raise e) rows = Raise e.
Proof. induction rows as [|row rows IH]; [done|]. exact IH. Qed.

Lemma pass1_fold_raise cols start_date end_date (rows : list (list string)) acc
    (e : py_error) :
  foldl (pass1_step cols start_date end_date) (Ok acc) rows = Raise e ->
  exists row, row ∈ rows
              /\ ((e = IndexError /\ lacks_field (pass1_fields cols) row)
                  \/ (e = ValueError /\ not_a_number [vol_idx cols] row)).
Proof.
  revert acc. induction rows as [|row rows IH]; intros acc; [done|]. cbn [foldl bind].
  destruct (progress cols (N.succ acc.1) row) as [[]|e'] eqn:Hp; cbn [bind].
  - destruct (pass1_row cols start_date end_date acc.2 row) as [hv|e'] eqn:Hrow; cbn [bind].
    + intros Hrest. destruct (IH _ Hrest) as (row' & Hin & Hcause).
      exists row'. split; [by apply list_elem_of_further|done].
    + rewrite pass1_fold_raised. intros [= <-]. exists row.
      split; [apply list_elem_of_here|]. by eapply pass1_row_raise.
  - rewrite pass1_fold_raised. intros [= <-]. exists row.
    split; [apply list_elem_of_here|]. left.
    destruct (progress_raise _ _ _ _ Hp) as [-> Hts]. split; [done|].
    exists (ts_idx cols). split; [unfold pass1_fields; set_solver|done].
Qed.

(** A row that counts and whose volume cannot be read stops pass 1, unless
    a row in front of it does. *)
Lemma pass1_fold_bad_volume cols start_date end_date (rows : list (list string)) acc
    (row : list string) :
  row ∈ rows ->
  counted cols start_date end_date row ->
  lacks_field [vol_idx cols] row \/ not_a_number [vol_idx cols] row ->
  exists e, foldl (pass1_step cols start_date end_date) acc rows = Raise e.
Proof.
  intros Hin (symbol & ts & Hsym & Hdash & Hts & Hdate) Hbad.
  revert acc. induction rows as [|row' rows IH]; intros acc.
  { destruct (proj1 (elem_of_nil row) Hin). }
  cbn [foldl]. apply elem_of_cons in Hin as [Heq|Hin]; [subst row'|by apply IH].
  destruct acc as [st|e0]; cbn [bind]; [|exists e0; apply pass1_fold_raised].
  destruct (progress cols (N.succ st.1) row) as [[]|e']; cbn [bind];
    [|exists e'; apply pass1_fold_raised].
  assert (exists e, pass1_row cols start_date end_date st.2 row = Raise e) as [e ->].
  { unfold pass1_row, bind, to_float. rewrite Hsym, Hdash, Hts, Hdate.
    destruct Hbad as [(i & Hi & Hf)|(i & v & Hi & Hf & Hv)];
      apply list_elem_of_singleton in Hi as ->; rewrite Hf; [by eexists|].
    rewrite Hv. by eexists. }
  cbn [bind]. exists e. apply pass1_fold_raised.
Qed.

(** Why a row stops pass 2. *)
Lemma pass2_row_raise cols primary (intervals : list (string * num)) start_date end_date
    (idx : nat) (row : list string) (e : py_error) :
  idx < length intervals ->
  pass2_row cols primary intervals start_date end_date idx row = Raise e ->
  (e = IndexError /\ lacks_field (pass2_fields cols) row)
  \/ (e = ValueError /\ not_a_number (price_fields cols) row).
Proof.
  intros Hidx. unfold pass2_row, bind, to_float, lacks_field, not_a_number,
    pass2_fields, price_fields.
  destruct (field row (sym_idx cols)) as [symbol|e'] eqn:Hsym.
  2:{ intros [= <-]. pose proof (field_raise _ _ _ Hsym) as ->. left. split; [done|].
      exists (sym_idx cols). split; [set_solver|done]. }
  destruct (has_dash symbol); [done|].
  destruct (field row (ts_idx cols)) as [ts|e'] eqn:Hts.
  2:{ intros [= <-]. pose proof (field_raise _ _ _ Hts) as ->. left. split; [done|].
      exists (ts_idx cols). split; [set_solver|done]. }
  destruct (date_skipped start_date end_date ts); [done|].
  destruct (primary !! hour_key ts) as [p|]; [|done].
  destruct (negb (String.eqb symbol p)); [done|].
  pose proof (advance_lt intervals ts idx Hidx) as Hlt.
  destruct (intervals !! advance intervals ts idx) as [[b adj]|] eqn:Hlk.
  2:{ apply lookup_ge_None in Hlk. lia. }
  destruct (field row (open_idx cols)) as [so|e'] eqn:Hso.
  2:{ intros [= <-]. pose proof (field_raise _ _ _ Hso) as ->. left. split; [done|].
      exists (open_idx cols). split; [set_solver|done]. }
  destruct (float_of_string so) eqn:Ho.
  2:{ intros [= <-]. right. split; [done|]. exists (open_idx cols), so.
      split; [set_solver|done]. }
  destruct (field row (high_idx cols)) as [sh|e'] eqn:Hsh.
  2:{ intros [= <-]. pose proof (field_raise _ _ _ Hsh) as ->. left. split; [done|].
      exists (high_idx cols). split; [set_solver|done]. }
  destruct (float_of_string sh) eqn:Hh.
  2:{ intros [= <-]. right. split; [done|]. exists (high_idx cols), sh.
      split; [set_solver|done]. }
  destruct (field row (low_idx cols)) as [sl|e'] eqn:Hsl.
  2:{ intros [= <-]. pose proof (field_raise _ _ _ Hsl) as ->. left. split; [done|].
      exists (low_idx cols). split; [set_solver|done]. }
  destruct (float_of_string sl) eqn:Hl.
  2:{ intros [= <-]. right. split; [done|]. exists (low_idx cols), sl.
      split; [set_solver|done]. }
  destruct (field row (close_idx cols)) as [sc|e'] eqn:Hsc.
  2:{ intros [= <-]. pose proof (field_raise _ _ _ Hsc) as ->. left. split; [done|].
      exists (close_idx cols). split; [set_solver|done]. }
  destruct (float_of_string sc) eqn:Hc.
  2:{ intros [= <-]. right. split; [done|]. exists (close_idx cols), sc.
      split; [set_solver|done]. }
  destruct (field row (vol_idx cols)) as [v|e'] eqn:Hv; [done|].
  intros [= <-]. pose proof (field_raise _ _ _ Hv) as ->. left. split; [done|].
  exists (vol_idx cols). split; [set_solver|done].
Qed.

Lemma pass2_loop_raise cols primary (intervals : list (string * num)) start_date end_date
    (rows : list (list string)) (k : N) (idx : nat) (written out : list (out_row num))
    (e : py_error) :
  idx < length intervals ->
  pass2_loop cols primary intervals start_date end_date rows k idx written
  = (out, Raise e) ->
  exists row, row ∈ rows
              /\ ((e = IndexError /\ lacks_field (pass2_fields cols) row)
                  \/ (e = ValueError /\ not_a_number (price_fields cols) row)).
Proof.
  revert k idx written. induction rows as [|row rows IH]; intros k idx written Hidx;
    cbn [pass2_loop]; [done|].
  destruct (progress cols (N.succ k) row) as [[]|e'] eqn:Hp.
  2:{ intros [= _ <-]. exists row. split; [apply list_elem_of_here|]. left.
      destruct (progress_raise _ _ _ _ Hp) as [-> Hts]. split; [done|].
      exists (ts_idx cols). split; [unfold pass2_fields; set_solver|done]. }
  destruct (pass2_row cols primary intervals start_date end_date idx row)
    as [[|idx' r]|e'] eqn:Hrow.
  - intros Hrest. destruct (IH _ _ _ Hidx Hrest) as (row' & Hin & Hcause).
    exists row'. split; [by apply list_elem_of_further|done].
  - intros Hrest.
    assert (idx' < length intervals) as Hidx'.
    { apply pass2_row_written in Hrow as (_ & (b & adj & Hlk & _) & _).
      by apply lookup_lt_Some in Hlk. }
    destruct (IH _ _ _ Hidx' Hrest) as (row' & Hin & Hcause).
    exists row'. split; [by apply list_elem_of_further|done].
  - intros [= _ <-]. exists row. split; [apply list_elem_of_here|].
    by eapply pass2_row_raise.
Qed.

(** Fields in surplus change nothing. *)
Lemma progress_surplus cols (k : N) (row extra : list string) :
  ts_idx cols < length row ->
  progress cols k (row ++ extra) = progress cols k row.
Proof. intros Hts. unfold progress. by rewrite field_app. Qed.

Lemma pass1_row_surplus cols start_date end_date hv (row extra : list string) :
  Forall (fun i => i < length row) (pass1_fields cols) ->
  pass1_row cols start_date end_date hv (row ++ extra)
  = pass1_row cols start_date end_date hv row.
Proof.
  unfold pass1_fields. rewrite !Forall_cons. intros (Hs & Ht & Hv & _).
  unfold pass1_row. by rewrite !field_app.
Qed.

Lemma pass2_row_surplus cols primary (intervals : list (string * num)) start_date end_date
    (idx : nat) (row extra : list string) :
  Forall (fun i => i < length row) (pass2_fields cols) ->
  pass2_row cols primary intervals start_date end_date idx (row ++ extra)
  = pass2_row cols primary intervals start_date end_date idx row.
Proof.
  unfold pass2_fields. rewrite !Forall_cons.
  intros (Hs & Ht & Ho & Hh & Hl & Hc & Hv & _).
  unfold pass2_row. by rewrite !field_app.
Qed.

Lemma pass1_fold_surplus cols start_date end_date (header : list string)
    (rows rows' : list (list string)) acc :
  Forall (fun i => i < length header) (pass1_fields cols) ->
  Forall2 (with_surplus header) rows rows' ->
  foldl (pass1_step cols start_date end_date) acc rows'
  = foldl (pass1_step cols start_date end_date) acc rows.
Proof.
  intros Hcols Hall. revert acc.
  induction Hall as [|row row' rows rows' (Hlen & extra & ->) _ IH]; intros acc; [done|].
  cbn [foldl].
  assert (Forall (fun i => i < length row) (pass1_fields cols)) as Hrow.
  { eapply Forall_impl; [exact Hcols|]. cbn. lia. }
  rewrite IH. f_equal. destruct acc as [st|]; [|done]. cbn [bind].
  rewrite progress_surplus, pass1_row_surplus; [done|done|].
  unfold pass1_fields in Hrow. rewrite !Forall_cons in Hrow. tauto.
Qed.

Lemma pass2_loop_surplus cols primary (intervals : list (string * num)) start_date end_date
    (header : list string) (rows rows' : list (list string)) (k : N) (idx : nat)
    (written : list (out_row num)) :
  Forall (fun i => i < length header) (pass2_fields cols) ->
  Forall2 (with_surplus header) rows rows' ->
  pass2_loop cols primary intervals start_date end_date rows' k idx written
  = pass2_loop cols primary intervals start_date end_date rows k idx written.
Proof.
  intros Hcols Hall. revert k idx written.
  induction Hall as [|row row' rows rows' (Hlen & extra & ->) _ IH]; intros k idx written;
    [done|].
  cbn [pass2_loop].
  assert (Forall (fun i => i < length row) (pass2_fields cols)) as Hrow.
  { eapply Forall_impl; [exact Hcols|]. cbn. lia. }
  rewrite progress_surplus, pass2_row_surplus by
    (done || (unfold pass2_fields in Hrow; rewrite !Forall_cons in Hrow; tauto)).
  destruct (progress cols (N.succ k) row) as [[]|]; [|done].
  destruct (pass2_row cols primary intervals start_date end_date idx row) as [[|idx' r]|];
    [apply IH | apply IH | done].
Qed.

(** What ends the command before pass 2 leaves the files as they are. *)
Lemma main_raised_early (a : args) (fs : files (num:=num)) input log (e : py_error) :
  ohlcv_file fs = Some input ->
  rollover_log_file fs = Some log ->
  load_rollover_log (num:=num) log = Raise e
  \/ (exists rs, load_rollover_log log = Ok rs /\ adjustment_intervals rs = Raise e)
  \/ (exists rs intervals,
        load_rollover_log log = Ok rs /\ adjustment_intervals rs = Ok intervals
        /\ pass1_primary_contracts (num:=num) input (start_bound a) (end_bound a)
           = Raise e) ->
  main a fs = (fs, Raised e).
Proof.
  intros Hin Hlog Hcase. unfold main. rewrite Hin, Hlog.
  destruct Hcase as [->|[(rs & -> & ->)|(rs & intervals & -> & -> & ->)]]; done.
Qed.

Lemma main_pass1_raises (a : args) (fs : files (num:=num)) input log (e : py_error) :
  ohlcv_file fs = Some input ->
  rollover_log_file fs = Some log ->
  pass1_primary_contracts (num:=num) input (start_bound a) (end_bound a) = Raise e ->
  exists e', main a fs = (fs, Raised e').
Proof.
  intros Hin Hlog Hp1. unfold main. rewrite Hin, Hlog, Hp1.
  destruct (load_rollover_log log) as [rs|e1]; [|by eexists].
  destruct (adjustment_intervals rs) as [intervals|e2]; by eexists.
Qed.

End RowFailures.


Section BatchSameSide.
Context {num : Type} `{Arith num}.

Lemma spreads_after_same (rs : list (Batch.rollover num)) (ta tb : Z) :
  (forall r, r ∈ rs ->
     (ta <? Batch.find_rollover_minute r)%Z = (tb <? Batch.find_rollover_minute r)%Z) ->
  Batch.spreads_after rs ta = Batch.spreads_after rs tb.
Proof.
  intros Hsame. unfold Batch.spreads_after. f_equal. apply List.filter_ext_in.
  intros r Hr. apply Hsame. apply list_elem_of_In in Hr.
  by apply (proj1 (elem_of_reverse r rs)).
Qed.

End BatchSameSide.

Section SpreadWindow.
Context {num : Type} `{Arith num}.
Import Batch.

Lemma elem_of_window (df : list (bar num)) (roll : Z) (sym : string) (t : Z) :
  t ∈ map fst
        (closes_of (filter (fun b => (roll - 12 * ns_per_hour <= ts_event b)%Z
                                     /\ (ts_event b <= roll + 12 * ns_per_hour)%Z) df) sym)
  <-> traded_at df roll sym t.
Proof.
  rewrite closes_of_index. unfold traded_at, in_window. split.
  - intros (b & [Hw Hin]%list_elem_of_filter & Hs & Ht). by exists b.
  - intros (b & Hin & Hw & Hs & Ht). exists b. split; [|done].
    by apply list_elem_of_filter.
Qed.

End SpreadWindow.

Lemma count_primary_cons (c : string) (d : Z) (s : string) (l : list (Z * string)) :
  Batch.count_primary c ((d, s) :: l)
  = (if String.eqb s c then 1 else 0) + Batch.count_primary c l.
Proof.
  unfold Batch.count_primary. rewrite filter_cons. cbn [snd].
  destruct (String.eqb_spec s c).
  - by rewrite decide_True by done.
  - by rewrite decide_False by done.
Qed.

(** Two binary64 numbers with different representations are different. *)
Lemma float_neq (x y : float) : Prim2SF x <> Prim2SF y -> x <> y.
Proof. intros Hne ->. by apply Hne. Qed.

(** ** The sample data, evaluated *)

Example streaming_before_Z :
  Streaming.pass2_filter_adjust_write Examples.file_before Examples.primary_before
    (Streaming.build_adjustment_intervals Examples.rollovers_int) None None
  = (Examples.written_before (fun z => z), Ok 2).
Proof. vm_compute. reflexivity. Qed.

Example batch_continuous_Z :
  Batch.build_continuous_series Examples.df_int Examples.batch_rollovers_int
    Examples.daily_primary_int = Ok Examples.continuous_int.
Proof. vm_compute. reflexivity. Qed.

Example batch_spreads_Z :
  Batch.compute_rollover_spreads Examples.df_int [Examples.detected_int]
  = Ok Examples.batch_rollovers_int.
Proof. vm_compute. reflexivity. Qed.

(** * The claims *)

Section ReturnPreservation.
Context {num : Type} `{ExactArith num}.


End ReturnPreservation.



(** C2. For a nonempty rollover list in time order, [build_adjustment_intervals]
    yields one interval more than there are rollovers, in the order of the
    boundaries: the first has the empty lower bound and adjustment minus the
    sum of all spreads; the interval that starts at rollover [i] has
    adjustment minus the sum of the spreads after [i]; the last one has
    adjustment minus zero, which is zero. *)
Theorem C2_adjustment_intervals_suffix_sums {num : Type} `{ZeroLaws num}
    (rs : list (Streaming.rollover num)) :
  rs <> [] ->
  Streaming.time_ordered rs ->
  let intervals := Streaming.build_adjustment_intervals rs in
  length intervals = S (length rs)
  /\ map fst intervals = "" :: map Streaming.boundary rs
  /\ StronglySorted str_le (map fst intervals)
  /\ intervals !! 0 = Some ("", fneg (Streaming.spread_sum (map Streaming.spread rs)))
  /\ (forall i r, rs !! i = Some r ->
        intervals !! S i
        = Some (Streaming.boundary r,
                fneg (Streaming.spread_sum (drop (S i) (map Streaming.spread rs)))))
  /\ exists b adj, last intervals = Some (b, adj)
                   /\ adj = fneg fzero /\ feqb adj fzero = true.
Proof.
  intros Hne Hsorted intervals. subst intervals.
  split; [apply intervals_length|].
  split; [apply intervals_boundaries|].
  split.
  { rewrite intervals_boundaries. constructor; [exact Hsorted|].
    apply Forall_forall. intros b _. apply str_ge_empty. }
  split; [by apply intervals_first|].
  split; [intros i r Hr; by apply intervals_later|].
  destruct (intervals_last rs Hne) as [b Hb].
  exists b, (fneg fzero). split; [done|]. split; [done|]. apply fneg_zero_eq.
Qed.

Lemma C2_witness :
  Examples.rollovers_2024 <> []
  /\ Streaming.time_ordered Examples.rollovers_2024
  /\ Streaming.build_adjustment_intervals Examples.rollovers_2024
     = [("", (-110.75)%float);
        ("2024-03-15T00:00:00.000000000Z", (-60.5)%float);
        ("2024-06-14T00:00:00.000000000Z", (-0)%float)]
  /\ exists b adj,
       last (Streaming.build_adjustment_intervals Examples.rollovers_2024) = Some (b, adj)
       /\ adj = fneg fzero /\ feqb adj fzero = true.
Proof.
  assert (Examples.rollovers_2024 <> []) as Hne by discriminate.
  assert (Streaming.time_ordered Examples.rollovers_2024) as Hs.
  { unfold Streaming.time_ordered. repeat constructor. }
  split; [exact Hne|]. split; [exact Hs|]. split; [vm_compute; reflexivity|].
  exact (proj2 (proj2 (proj2 (proj2 (proj2
    (C2_adjustment_intervals_suffix_sums Examples.rollovers_2024 Hne Hs)))))).
Defined.

Section AuxiliaryAlignment.
Context {num : Type} `{ExactArith num}.


End AuxiliaryAlignment.


#[local] Set Warnings "-inexact-float".


Section CumulativeAdjustment.
Context {num : Type} `{SubLaw num}.

(** C4, as amended.  The adjustment at [t] is the sum of [-spread] over the
    rollovers whose switch timestamp is strictly after [t], accumulated
    from [0.0] in the order of the list; each of the five levels of a
    record is stored as [round(level + adjustment, 2)], and the three
    other fields are copied.  This holds on binary64 as it does in exact
    arithmetic. *)
Theorem C4_adjustment_strictly_after (rs : list (Levels.rollover num)) :
  (forall t, Levels.compute_adjustment t rs = Levels.adjustment_after t rs)
  /\ (forall row out,
        Levels.adjust_row rs row = Ok out ->
        exists t,
          Levels.to_int (Levels.unix_timestamp row) = Ok t
          /\ Forall2 (fun s v => exists raw,
                        to_float s = Ok raw
                        /\ v = fround2 (fadd raw (Levels.adjustment_after t rs)))
                     [Levels.level_1 row; Levels.level_2 row; Levels.level_3 row;
                      Levels.level_4 row; Levels.level_5 row]
                     (Levels.lt_levels out)
          /\ Levels.lt_datetime out = Levels.datetime row
          /\ Levels.lt_unix_timestamp out = Levels.unix_timestamp row
          /\ Levels.lt_sentiment out = Levels.sentiment row).
Proof.
  split; [intros t; apply compute_adjustment_after|].
  intros row out. unfold Levels.adjust_row, bind.
  destruct (Levels.to_int (Levels.unix_timestamp row)) as [t|]; [|done].
  destruct (Levels.adjust_levels _ _) as [levels|] eqn:Hlv; [|done].
  intros [= <-]. exists t. split; [done|]. cbn.
  split; [|done]. rewrite <- compute_adjustment_after. by apply adjust_levels_spec.
Qed.

End CumulativeAdjustment.

Lemma C4_witness :
  let rs := Examples.levels_rollovers_int in
  let row := Examples.lt_row_before in
  let out := {| Levels.lt_datetime := "2024-03-14 22:59:59";
                Levels.lt_unix_timestamp := "1710457199000";
                Levels.lt_sentiment := "BULLISH";
                Levels.lt_levels := [4891; 4900; 4910; 4880; 4870]%Z |} in
  Levels.adjust_row rs row = Ok out
  /\ (forall t, Levels.compute_adjustment t rs = Levels.adjustment_after t rs)
  /\ exists t,
       Levels.to_int (Levels.unix_timestamp row) = Ok t
       /\ Forall2 (fun s v => exists raw,
                     to_float s = Ok raw
                     /\ v = fround2 (fadd raw (Levels.adjustment_after t rs)))
                  [Levels.level_1 row; Levels.level_2 row; Levels.level_3 row;
                   Levels.level_4 row; Levels.level_5 row]
                  (Levels.lt_levels out)
       /\ Levels.lt_datetime out = Levels.datetime row
       /\ Levels.lt_unix_timestamp out = Levels.unix_timestamp row
       /\ Levels.lt_sentiment out = Levels.sentiment row.
Proof.
  intros rs row out.
  assert (Levels.adjust_row rs row = Ok out) as Hout by reflexivity.
  split; [exact Hout|].
  split; [exact (proj1 (C4_adjustment_strictly_after rs))|].
  exact (proj2 (C4_adjustment_strictly_after rs) row out Hout).
Defined.

(** C4 as stated fails at the instant of a rollover: a record stamped at
    midnight of 2024-03-15 is not adjusted by the spread of the rollover
    of that day, which the sum over the rollovers at or after the
    timestamp includes. *)
Lemma C4_counterexample :
  exists rs out,
    Levels.load_rollovers (num:=float) Examples.log_2024 = Ok rs
    /\ Levels.adjust_row rs Examples.lt_row_at_switch = Ok out
    /\ Levels.to_int (Levels.unix_timestamp Examples.lt_row_at_switch)
       = Ok 1710460800000%Z
    /\ map Levels.switch_ms rs = [1710460800000; 1718323200000]%Z
    /\ Levels.compute_adjustment 1710460800000 rs = (-60.5)%float
    /\ Levels.adjustment_at_or_after 1710460800000 rs = (-110.75)%float
    /\ Levels.lt_levels out = [4940.5; 4949.5; 4959.5; 4929.5; 4919.5]%float
    /\ Levels.compute_adjustment 1710460800000 rs
       <> Levels.adjustment_at_or_after 1710460800000 rs.
Proof.
  eexists _, _. split; [vm_compute; reflexivity|].
  split; [vm_compute; reflexivity|].
  repeat split; try (vm_compute; reflexivity).
  apply float_neq. vm_compute. discriminate.
Qed.

(** C5. On the daily dominance sequence A, A, B, A, A, A the detector emits
    no rollover; on A, A, B, B, B, B it emits one rollover from A to B,
    dated at the first day of B. *)
Theorem C5_flicker_rejection (A B : string) (d0 d1 d2 d3 d4 d5 : Z) :
  A <> B ->
  Batch.detect_true_rollovers
    [(d0, A); (d1, A); (d2, B); (d3, A); (d4, A); (d5, A)] = Ok []
  /\ Batch.detect_true_rollovers
       [(d0, A); (d1, A); (d2, B); (d3, B); (d4, B); (d5, B)]
     = Ok [ {| Batch.d_date := d2; Batch.d_from_symbol := A; Batch.d_to_symbol := B |} ].
Proof.
  intros Hne.
  assert (String.eqb B A = false) as HBA by (apply String.eqb_neq; congruence).
  assert (String.eqb A B = false) as HAB by (by apply String.eqb_neq).
  unfold Batch.detect_true_rollovers. split.
  - cbn [Batch.walk_days take].
    rewrite !count_primary_cons, !String.eqb_refl, !HBA, !HAB. done.
  - cbn [Batch.walk_days take].
    rewrite !count_primary_cons, !String.eqb_refl, !HBA. done.
Qed.

Lemma C5_witness :
  "ESH4" <> "ESM4"
  /\ Batch.detect_true_rollovers
       [(0, "ESH4"); (1, "ESH4"); (2, "ESM4"); (3, "ESH4"); (4, "ESH4"); (5, "ESH4")]%Z
     = Ok []
  /\ Batch.detect_true_rollovers
       [(0, "ESH4"); (1, "ESH4"); (2, "ESM4"); (3, "ESM4"); (4, "ESM4"); (5, "ESM4")]%Z
     = Ok [ {| Batch.d_date := 2; Batch.d_from_symbol := "ESH4";
               Batch.d_to_symbol := "ESM4" |} ].
Proof.
  assert ("ESH4" <> "ESM4") as Hne by discriminate.
  split; [exact Hne|].
  exact (C5_flicker_rejection "ESH4" "ESM4" 0 1 2 3 4 5 Hne).
Defined.

Section DropNa.
Context {num : Type} `{Arith num}.
Import Batch.

Lemma dropna_idem (values : list num) : dropna (dropna values) = dropna values.
Proof.
  unfold dropna. induction values as [|x values IH]; [done|]. cbn [List.filter].
  destruct (negb (isna x)) eqn:Hx; [|done]. cbn [List.filter]. by rewrite Hx, IH.
Qed.

Lemma dropna_numbers (values : list num) :
  Forall (fun x => isna x = false) (dropna values).
Proof.
  unfold dropna. induction values as [|x values IH]; [constructor|]. cbn [List.filter].
  destruct (isna x) eqn:Hx; cbn [negb]; [done|]. by constructor.
Qed.

End DropNa.

Section SpreadClaim.
Context {num : Type} `{Arith num}.
Import Batch.

(** C6. The overlap of a rollover is the set of timestamps within twelve
    hours of the switch at which both contracts have a bar.  When it is
    not empty, the spread recorded is the median, over the overlap, of the
    last close of the incoming contract minus the last close of the
    outgoing one, with the size of the overlap and the least and greatest
    difference.  The median, the least and the greatest difference are
    those of the differences that are numbers: as pandas does, they leave
    out a difference that is NaN (a close that is missing), which the size
    of the overlap counts.  When the overlap is empty, the spread is the
    first close of the incoming contract from the switch on minus the last
    close of the outgoing contract before it, recorded with a count of 0
    and as least and greatest difference. *)
Theorem C6_rollover_spread (df : list (bar num)) (r : detected) :
  let roll := roll_timestamp (d_date r) in
  exists overlap : list Z,
    NoDup overlap
    /\ (forall t, t ∈ overlap
                  <-> traded_at df roll (d_from_symbol r) t
                      /\ traded_at df roll (d_to_symbol r) t)
    /\ (overlap <> [] ->
        exists spreads,
          Forall2 (fun t s => exists a b,
                     last_close_at df roll (d_to_symbol r) t = Some a
                     /\ last_close_at df roll (d_from_symbol r) t = Some b
                     /\ s = fsub a b) overlap spreads
          /\ rollover_spread df r
             = Ok {| date := d_date r; from_symbol := d_from_symbol r;
                     to_symbol := d_to_symbol r;
                     spread := median spreads;
                     overlap_bars := length overlap;
                     spread_min := series_min spreads;
                     spread_max := series_max spreads |}
          /\ median spreads = median (dropna spreads)
          /\ series_min spreads = series_min (dropna spreads)
          /\ series_max spreads = series_max (dropna spreads)
          /\ Forall (fun s => isna s = false) (dropna spreads))
    /\ (overlap = [] ->
        forall last_old first_new,
          last_close_before df (d_from_symbol r) roll = Some last_old ->
          first_close_from df (d_to_symbol r) roll = Some first_new ->
          rollover_spread df r
          = Ok {| date := d_date r; from_symbol := d_from_symbol r;
                  to_symbol := d_to_symbol r;
                  spread := fsub first_new last_old;
                  overlap_bars := 0;
                  spread_min := fsub first_new last_old;
                  spread_max := fsub first_new last_old |}).
Proof.
  intros roll. unfold rollover_spread. fold roll.
  set (window := filter _ df).
  set (from_bars := closes_of window (d_from_symbol r)).
  set (to_bars := closes_of window (d_to_symbol r)).
  set (overlap := index_intersection from_bars to_bars).
  assert (forall t, t ∈ overlap
                    <-> traded_at df roll (d_from_symbol r) t
                        /\ traded_at df roll (d_to_symbol r) t) as Hmem.
  { intros t. unfold overlap, index_intersection.
    rewrite list_elem_of_filter, bool_decide_spec, series_at_is_Some.
    unfold from_bars, to_bars, window. rewrite !elem_of_window. tauto. }
  exists overlap. split; [|split; [exact Hmem|split]].
  - unfold overlap, index_intersection. apply NoDup_filter.
    unfold from_bars, closes_of. rewrite map_map. cbn [fst]. apply NoDup_dedup_ts.
  - intros Hne.
    exists (overlap_spreads from_bars to_bars overlap). split.
    + unfold overlap_spreads.
      eapply Forall2_impl.
      * apply omap_Forall2. intros t Ht.
        assert (is_Some (series_at to_bars t)) as [a Ha].
        { apply series_at_is_Some. unfold to_bars, window. apply elem_of_window.
          by apply Hmem. }
        assert (is_Some (series_at from_bars t)) as [b Hb].
        { apply series_at_is_Some. unfold from_bars, window. apply elem_of_window.
          by apply Hmem. }
        rewrite Ha, Hb. by eexists.
      * intros t s Hs. cbn beta in Hs.
        unfold to_bars, from_bars, window in Hs. rewrite !closes_of_at in Hs.
        fold roll in Hs.
        destruct (last_close_at df roll (d_to_symbol r) t) as [a|]; [|done].
        destruct (last_close_at df roll (d_from_symbol r) t) as [b|]; [|done].
        injection Hs as <-. by exists a, b.
    + split; [by destruct overlap as [|t0 overlap']|].
      unfold median, series_min, series_max. rewrite !dropna_idem.
      do 3 (split; [done|]). apply dropna_numbers.
  - intros Hnil last_old first_new Hlo Hfn. rewrite Hnil. cbn [length Nat.ltb Nat.leb].
    unfold last_close_before in Hlo. unfold first_close_from in Hfn.
    unfold iloc_last, iloc_first, bind.
    rewrite Hlo.
    destruct (map close (filter _ df)) as [|x xs] eqn:Hx in Hfn |- *; [done|].
    cbn in Hfn. by injection Hfn as ->.
Qed.

End SpreadClaim.

Lemma C6_witness :
  (exists (overlap : list Z) (spreads : list Z),
     overlap <> []
     /\ Batch.rollover_spread Examples.df_int Examples.detected_int
        = Ok {| Batch.date := Examples.roll_day; Batch.from_symbol := "ESH4";
                Batch.to_symbol := "ESM4";
                Batch.spread := Batch.median spreads;
                Batch.overlap_bars := length overlap;
                Batch.spread_min := Batch.series_min spreads;
                Batch.spread_max := Batch.series_max spreads |})
  /\ Batch.rollover_spread Examples.df_gap Examples.detected_int
     = Ok {| Batch.date := Examples.roll_day; Batch.from_symbol := "ESH4";
             Batch.to_symbol := "ESM4";
             Batch.spread := fsub 5054%Z 5001%Z;
             Batch.overlap_bars := 0;
             Batch.spread_min := fsub 5054%Z 5001%Z;
             Batch.spread_max := fsub 5054%Z 5001%Z |}
  /\ Batch.overlap_spreads
       (Batch.closes_of Examples.df_nan "ESH4") (Batch.closes_of Examples.df_nan "ESM4")
       (Batch.index_intersection (Batch.closes_of Examples.df_nan "ESH4")
                                 (Batch.closes_of Examples.df_nan "ESM4"))
     = [nan; 1; 2]%float
  /\ Batch.rollover_spread Examples.df_nan Examples.detected_int
     = Ok {| Batch.date := Examples.roll_day; Batch.from_symbol := "ESH4";
             Batch.to_symbol := "ESM4";
             Batch.spread := 1.5%float;
             Batch.overlap_bars := 3;
             Batch.spread_min := 1%float;
             Batch.spread_max := 2%float |}.
Proof.
  split; [|split; [|split; vm_compute; reflexivity]].
  - destruct (C6_rollover_spread Examples.df_int Examples.detected_int)
      as (overlap & _ & Hmem & Hsome & _).
    assert (overlap <> []) as Hne.
    { assert ((Examples.roll_ns + 60000000000)%Z ∈ overlap) as Hin.
      { apply Hmem. split.
        - exists (Examples.bar_int (Examples.roll_ns + 60000000000)
                    5003 5005 5002 5004 2 "ESH4").
          split; [do 3 apply list_elem_of_further; apply list_elem_of_here|].
          repeat split; vm_compute; congruence.
        - exists (Examples.bar_int (Examples.roll_ns + 60000000000)
                    5053 5055 5052 5054 12 "ESM4").
          split; [do 4 apply list_elem_of_further; apply list_elem_of_here|].
          repeat split; vm_compute; congruence. }
      intros ->. by apply elem_of_nil in Hin. }
    destruct (Hsome Hne) as (spreads & _ & Hr & _).
    exists overlap, spreads. split; [exact Hne | exact Hr].
  - destruct (C6_rollover_spread Examples.df_gap Examples.detected_int)
      as (overlap & _ & Hmem & _ & Hnone).
    assert (overlap = []) as Hnil.
    { destruct overlap as [|t overlap']; [done|]. exfalso.
      destruct (proj1 (Hmem t) ltac:(apply list_elem_of_here))
        as [(a & Ha & _ & Hsa & Hta) (b & Hb & _ & Hsb & Htb)].
      unfold Examples.df_gap in Ha, Hb. rewrite !elem_of_cons, elem_of_nil in Ha, Hb.
      destruct Ha as [->|[->|[]]]; [|discriminate Hsa].
      destruct Hb as [->|[->|[]]]; [discriminate Hsb|].
      rewrite <- Htb in Hta. vm_compute in Hta. discriminate Hta. }
    exact (Hnone Hnil 5001%Z 5054%Z eq_refl eq_refl).
Defined.

Import Iso8601.






(** C9. Every row of the continuous output carries the timestamp and the
    volume of a source row unchanged, and the contract as its symbol; the
    four prices are those of the source row, all shifted by one adjustment.
    In the streaming builder the adjustment is added; in the in-memory
    builder the spreads of the later rollovers are subtracted in turn. *)
Theorem C9_volume_and_timestamp_unchanged {num : Type} `{Arith num} :
  (forall input primary intervals start_date end_date (r : Streaming.out_row num),
     r ∈ (Streaming.pass2_filter_adjust_write input primary intervals
            start_date end_date).1 ->
     exists header rows cols row adj,
       input = header :: rows /\ Streaming.find_columns header = Ok cols
       /\ row ∈ rows /\ adj ∈ map snd intervals
       /\ field row (Streaming.ts_idx cols) = Ok (Streaming.out_ts r)
       /\ field row (Streaming.vol_idx cols) = Ok (Streaming.out_volume r)
       /\ Streaming.shifted_by cols adj row r)
  /\ (forall df rs daily_primary out (b' : Batch.bar num),
        Batch.build_continuous_series df rs daily_primary = Ok out ->
        b' ∈ out ->
        exists b ss,
          b ∈ df /\ Batch.lowered_by ss b b'
          /\ Batch.out_ts_event (Batch.output_row b') = Batch.ts_event b
          /\ Batch.out_volume (Batch.output_row b') = Batch.volume b
          /\ Batch.out_contract (Batch.output_row b') = Batch.symbol b).
Proof.
  split.
  - intros input primary intervals start_date end_date r Hr.
    apply pass2_output in Hr as (header & rows & cols & -> & Hcols & Hr).
    apply pass2_loop_written in Hr as [Hr|(row & adj & Hrow & Hadj & Hsh & _)];
      [by apply elem_of_nil in Hr|].
    exists header, rows, cols, row, adj.
    pose proof Hsh as (o & h & l & c & _ & _ & _ & _ & _ & Hts & Hv & _).
    done.
  - intros df rs dp out b' Hout Hb'.
    destruct (build_continuous_series_rows df rs dp out b' Hout Hb') as (b & Hb & Hl).
    exists b, (Batch.spreads_after rs (Batch.ts_event b)).
    pose proof Hl as (Hts & Hv & Hs & _). done.
Qed.

Lemma C9_witness :
  (let r := {| Streaming.out_ts := "2024-03-14T22:59:59.000000000Z";
               Streaming.out_open := 4889.25%float; Streaming.out_high := 4891.25%float;
               Streaming.out_low := 4888.25%float; Streaming.out_close := 4890.25%float;
               Streaming.out_volume := "10"; Streaming.out_symbol := "ES_continuous";
               Streaming.out_contract := "ESH4" |} in
   r ∈ (Streaming.pass2_filter_adjust_write Examples.file_before Examples.primary_before
          (Streaming.build_adjustment_intervals Examples.rollovers_2024) None None).1
   /\ exists header rows cols row adj,
        Examples.file_before = header :: rows /\ Streaming.find_columns header = Ok cols
        /\ row ∈ rows
        /\ adj ∈ map snd (Streaming.build_adjustment_intervals Examples.rollovers_2024)
        /\ field row (Streaming.ts_idx cols) = Ok (Streaming.out_ts r)
        /\ field row (Streaming.vol_idx cols) = Ok (Streaming.out_volume r)
        /\ Streaming.shifted_by cols adj row r)
  /\ (let b' := Examples.bar_int (Examples.roll_ns - 3600000000000)
                                 4950 4952 4949 4951 10 "ESH4" in
      Batch.build_continuous_series Examples.df_int Examples.batch_rollovers_int
        Examples.daily_primary_int = Ok Examples.continuous_int
      /\ b' ∈ Examples.continuous_int
      /\ exists b ss,
           b ∈ Examples.df_int /\ Batch.lowered_by ss b b'
           /\ Batch.out_ts_event (Batch.output_row b') = Batch.ts_event b
           /\ Batch.out_volume (Batch.output_row b') = Batch.volume b
           /\ Batch.out_contract (Batch.output_row b') = Batch.symbol b).
Proof.
  split.
  - intros r.
    assert (r ∈ (Streaming.pass2_filter_adjust_write Examples.file_before
                   Examples.primary_before
                   (Streaming.build_adjustment_intervals Examples.rollovers_2024)
                   None None).1) as Hr by (vm_compute; apply list_elem_of_here).
    split; [exact Hr|].
    exact (proj1 C9_volume_and_timestamp_unchanged _ _ _ _ _ r Hr).
  - intros b'.
    assert (b' ∈ Examples.continuous_int) as Hb by apply list_elem_of_here.
    split; [exact batch_continuous_Z|]. split; [exact Hb|].
    exact (proj2 C9_volume_and_timestamp_unchanged _ _ _ _ b' batch_continuous_Z Hb).
Defined.

(** C10. With an empty rollover log there is one interval, with the empty
    lower bound and adjustment [0.0], and every row that pass 2 writes holds
    the four prices of a source row: the same numbers, up to the sign of a
    zero. *)
Theorem C10_empty_log_identity {num : Type} `{ZeroLaws num}
    (input : list (list string)) (primary : gmap string string)
    (start_date end_date : option string) (r : Streaming.out_row num) :
  r ∈ (Streaming.pass2_filter_adjust_write input primary
         (Streaming.build_adjustment_intervals []) start_date end_date).1 ->
  Streaming.build_adjustment_intervals (num:=num) [] = [("", fzero)]
  /\ exists header rows cols row o h l c,
       input = header :: rows /\ Streaming.find_columns header = Ok cols
       /\ row ∈ rows /\ Streaming.raw_prices cols row = Ok (o, h, l, c)
       /\ same_number (Streaming.out_open r) o /\ same_number (Streaming.out_high r) h
       /\ same_number (Streaming.out_low r) l /\ same_number (Streaming.out_close r) c.
Proof.
  intros Hr. split; [done|].
  apply pass2_output in Hr as (header & rows & cols & -> & Hcols & Hr).
  apply pass2_loop_written in Hr as [Hr|(row & adj & Hrow & Hadj & Hsh & _)];
    [by apply elem_of_nil in Hr|].
  cbn in Hadj. apply list_elem_of_singleton in Hadj as ->.
  destruct Hsh as (o & h & l & c & Hraw & -> & -> & -> & -> & _).
  exists header, rows, cols, row, o, h, l, c.
  repeat split; try done; apply fadd_zero_same.
Qed.

Lemma C10_witness :
  let r := {| Streaming.out_ts := "2024-03-14T22:59:59.000000000Z";
              Streaming.out_open := 5000%float; Streaming.out_high := 5002%float;
              Streaming.out_low := 4999%float; Streaming.out_close := 5001%float;
              Streaming.out_volume := "10"; Streaming.out_symbol := "ES_continuous";
              Streaming.out_contract := "ESH4" |} in
  r ∈ (Streaming.pass2_filter_adjust_write Examples.file_before Examples.primary_before
         (Streaming.build_adjustment_intervals []) None None).1
  /\ exists header rows cols row o h l c,
       Examples.file_before = header :: rows /\ Streaming.find_columns header = Ok cols
       /\ row ∈ rows /\ Streaming.raw_prices cols row = Ok (o, h, l, c)
       /\ same_number (Streaming.out_open r) o /\ same_number (Streaming.out_high r) h
       /\ same_number (Streaming.out_low r) l /\ same_number (Streaming.out_close r) c.
Proof.
  intros r.
  assert (r ∈ (Streaming.pass2_filter_adjust_write Examples.file_before
                 Examples.primary_before
                 (Streaming.build_adjustment_intervals []) None None).1) as Hr.
  { vm_compute. apply list_elem_of_here. }
  split; [exact Hr|].
  exact (proj2 (C10_empty_log_identity _ _ _ _ r Hr)).
Defined.

(** * Further properties of the scripts *)

(** ** The streaming builder *)

Section Pass2Filters.
Context {num : Type} `{Arith num}.
Import Streaming.

Lemma keptb_kept cols primary start_date end_date row :
  keptb cols primary start_date end_date row = true
  <-> kept cols primary start_date end_date row.
Proof.
  unfold keptb, kept. split.
  - destruct (field row (sym_idx cols)) as [symbol|]; [|done].
    destruct (field row (ts_idx cols)) as [ts|]; [|done].
    rewrite !andb_true_iff, !negb_true_iff, bool_decide_eq_true.
    intros [[? ?] ?]. by exists symbol, ts.
  - intros (symbol & ts & -> & Hd & -> & Hk & Hp). rewrite Hd, Hk. cbn.
    by rewrite bool_decide_eq_true.
Qed.

Lemma pass2_row_skipped cols primary intervals start_date end_date idx row :
  pass2_row cols primary intervals start_date end_date idx row = Ok Skipped ->
  keptb cols primary start_date end_date row = false.
Proof.
  unfold pass2_row, keptb, bind.
  destruct (field row (sym_idx cols)) as [symbol|]; [|done].
  destruct (has_dash symbol); [by destruct (field row (ts_idx cols))|].
  destruct (field row (ts_idx cols)) as [ts|]; [|done].
  destruct (date_skipped start_date end_date ts); [done|]. cbn [negb andb].
  destruct (primary !! hour_key ts) as [p|] eqn:Hp.
  - destruct (String.eqb symbol p) eqn:He; cbn [negb].
    + intros Hw. exfalso. repeat case_match; discriminate.
    + intros _. rewrite bool_decide_eq_false. apply String.eqb_neq in He. congruence.
  - intros _. by rewrite bool_decide_eq_false.
Qed.

(** The rows written by a run of the loop that ends without an exception
    are the rows that pass the filters, in the order of the source. *)
Lemma pass2_loop_kept_rows cols primary intervals start_date end_date rows k idx written out n :
  pass2_loop cols primary intervals start_date end_date rows k idx written = (out, Ok n) ->
  n = length out
  /\ exists new,
       out = written ++ new
       /\ Forall2 (fun row r => exists adj, adj ∈ map snd intervals
                                            /\ shifted_by cols adj row r)
                  (List.filter (keptb cols primary start_date end_date) rows) new.
Proof.
  revert k idx written. induction rows as [|row rows IH]; intros k idx written;
    cbn [pass2_loop List.filter].
  - intros [= <- <-]. split; [done|]. exists []. by rewrite app_nil_r.
  - destruct (progress cols (N.succ k) row) as [_|e]; [|done].
    destruct (pass2_row cols primary intervals start_date end_date idx row)
      as [[|idx' r]|e] eqn:Erow; [| |done].
    + rewrite (pass2_row_skipped _ _ _ _ _ _ _ Erow). apply IH.
    + intros Hloop. destruct (IH _ _ _ Hloop) as (Hn & new & -> & Hall).
      apply pass2_row_written in Erow as (_ & (b & adj & Hlk & Hsh) & Hk).
      apply keptb_kept in Hk. rewrite Hk. split; [done|].
      exists (r :: new). rewrite <- app_assoc. split; [done|].
      constructor; [|done]. exists adj. split; [|done].
      apply list_elem_of_lookup_2 in Hlk.
      change (map snd intervals) with (snd <$> intervals).
      apply list_elem_of_fmap. by exists (b, adj).
Qed.

End Pass2Filters.

Section Pass2Written.
Context {num : Type} `{Arith num}.
Import Streaming.

(** Pass 2 writes a row only for a source row that passes the three
    filters, under the fixed symbol. *)
Lemma pass2_written_filtered input primary (intervals : list (string * num))
    start_date end_date (r : out_row num) :
  r ∈ (pass2_filter_adjust_write input primary intervals start_date end_date).1 ->
  has_dash (out_contract r) = false
  /\ date_skipped start_date end_date (out_ts r) = false
  /\ primary !! hour_key (out_ts r) = Some (out_contract r)
  /\ out_symbol r = "ES_continuous".
Proof.
  intros Hr.
  apply pass2_output in Hr as (header & rows & cols & -> & Hcols & Hr).
  apply pass2_loop_written in Hr as [Hr|(row & adj & Hrow & Hadj & Hsh & Hk)];
    [destruct (proj1 (elem_of_nil r) Hr)|].
  destruct Hsh as (o & h & l & c & _ & _ & _ & _ & _ & Hts & _ & Hsym & Hout).
  destruct Hk as (symbol & ts & Hsym' & Hdash & Hts' & Hdate & Hprim).
  rewrite Hsym in Hsym'. injection Hsym' as <-.
  rewrite Hts in Hts'. injection Hts' as <-. done.
Qed.

End Pass2Written.

(** X1. Every row that pass 2 writes names a contract without a dash in
    its symbol, has a timestamp that the date bounds do not exclude, names
    the primary contract of the hour of its timestamp, and carries the
    symbol [ES_continuous]. *)
Theorem X1_pass2_writes_only_filtered_rows {num : Type} `{Arith num}
    (input : list (list string)) (primary : gmap string string)
    (intervals : list (string * num)) (start_date end_date : option string)
    (r : Streaming.out_row num) :
  r ∈ (Streaming.pass2_filter_adjust_write input primary intervals
         start_date end_date).1 ->
  has_dash (Streaming.out_contract r) = false
  /\ Streaming.date_skipped start_date end_date (Streaming.out_ts r) = false
  /\ primary !! Streaming.hour_key (Streaming.out_ts r) = Some (Streaming.out_contract r)
  /\ Streaming.out_symbol r = "ES_continuous".
Proof. apply pass2_written_filtered. Qed.

Lemma X1_witness :
  let r := {| Streaming.out_ts := "2024-03-14T22:59:59.000000000Z";
              Streaming.out_open := 4890%Z; Streaming.out_high := 4892%Z;
              Streaming.out_low := 4889%Z; Streaming.out_close := 4891%Z;
              Streaming.out_volume := "10"; Streaming.out_symbol := "ES_continuous";
              Streaming.out_contract := "ESH4" |} in
  r ∈ (Streaming.pass2_filter_adjust_write Examples.file_before Examples.primary_before
         (Streaming.build_adjustment_intervals Examples.rollovers_int) None None).1
  /\ has_dash (Streaming.out_contract r) = false
  /\ Streaming.date_skipped None None (Streaming.out_ts r) = false
  /\ Examples.primary_before !! Streaming.hour_key (Streaming.out_ts r)
     = Some (Streaming.out_contract r)
  /\ Streaming.out_symbol r = "ES_continuous".
Proof.
  intros r.
  assert (r ∈ (Streaming.pass2_filter_adjust_write Examples.file_before
                 Examples.primary_before
                 (Streaming.build_adjustment_intervals Examples.rollovers_int)
                 None None).1) as Hr by (vm_compute; apply list_elem_of_here).
  split; [exact Hr|].
  exact (X1_pass2_writes_only_filtered_rows _ _ _ _ _ r Hr).
Defined.

(** X2. When pass 2 ends without an exception, the count it returns is
    the number of rows written, and the rows written are the rows of the
    source that pass the three filters (outright contract, date bounds,
    primary contract of the hour): one output row for each, in the order of
    the source, shifted by the adjustment of one of the intervals. *)
Theorem X2_pass2_writes_kept_rows_in_order {num : Type} `{Arith num}
    (input : list (list string)) (primary : gmap string string)
    (intervals : list (string * num)) (start_date end_date : option string)
    (out : list (Streaming.out_row num)) (n : nat) :
  Streaming.pass2_filter_adjust_write input primary intervals start_date end_date
  = (out, Ok n) ->
  n = length out
  /\ exists header rows cols,
       input = header :: rows /\ Streaming.find_columns header = Ok cols
       /\ Forall2 (fun row r => exists adj, adj ∈ map snd intervals
                                            /\ Streaming.shifted_by cols adj row r)
                  (List.filter (Streaming.keptb cols primary start_date end_date) rows)
                  out.
Proof.
  unfold Streaming.pass2_filter_adjust_write.
  destruct input as [|header rows]; [done|].
  destruct (Streaming.find_columns header) as [cols|] eqn:Hcols; [|done].
  intros Hloop. apply pass2_loop_kept_rows in Hloop as (Hn & new & -> & Hall).
  split; [done|]. by exists header, rows, cols.
Qed.

Lemma X2_witness :
  Streaming.pass2_filter_adjust_write Examples.file_before Examples.primary_before
    (Streaming.build_adjustment_intervals Examples.rollovers_int) None None
  = (Examples.written_before (fun z => z), Ok 2)
  /\ 2 = length (Examples.written_before (fun z : Z => z))
  /\ exists header rows cols,
       Examples.file_before = header :: rows /\ Streaming.find_columns header = Ok cols
       /\ Forall2 (fun row r =>
                     exists adj,
                       adj ∈ map snd (Streaming.build_adjustment_intervals
                                        Examples.rollovers_int)
                       /\ Streaming.shifted_by cols adj row r)
                  (List.filter (Streaming.keptb cols Examples.primary_before None None) rows)
                  (Examples.written_before (fun z : Z => z)).
Proof.
  assert (Streaming.pass2_filter_adjust_write Examples.file_before Examples.primary_before
            (Streaming.build_adjustment_intervals Examples.rollovers_int) None None
          = (Examples.written_before (fun z => z), Ok 2)) as Hrun
    by (vm_compute; reflexivity).
  split; [exact Hrun|].
  exact (X2_pass2_writes_kept_rows_in_order _ _ _ _ _ _ _ Hrun).
Defined.

Section ScanBack.
Context {num : Type} `{Arith num}.
Import Streaming.

Lemma reached_drop_past (ts : string) (later : list (string * num)) (idx : nat) :
  StronglySorted str_le (map fst later) ->
  reached ts later <= idx ->
  reached ts (drop idx later) = 0.
Proof.
  revert idx. induction later as [|[b a] later IH]; intros idx Hs Hidx.
  - by rewrite drop_nil.
  - inversion Hs as [|? ? Hs' Hall]; subst.
    rewrite reached_cons in Hidx. cbn [fst] in Hidx.
    destruct idx as [|i]; cbn [drop].
    + rewrite reached_cons. cbn [fst]. destruct (str_ge ts b) eqn:Hge; [lia|].
      by apply (reached_none ts b).
    + apply IH; [done|]. destruct (str_ge ts b) eqn:Hge; [lia|].
      rewrite (reached_none ts b later Hge Hall). lia.
Qed.

End ScanBack.

(** X3. With the boundaries of the intervals in order, the forward scan
    of pass 2 takes the interval index to the greater of its present value
    and the index of the interval the timestamp lies in.  It never moves
    back: a timestamp of an earlier interval leaves the index where it is. *)
Theorem X3_scan_never_goes_back {num : Type} `{Arith num}
    (intervals : list (string * num)) (ts : string) (idx : nat) :
  StronglySorted str_le (map fst (tail intervals)) ->
  Streaming.advance intervals ts idx
  = Nat.max idx (Streaming.interval_index intervals ts).
Proof.
  intros Hs. destruct (le_ge_dec idx (Streaming.interval_index intervals ts)) as [Hle|Hge].
  - rewrite (advance_sorted intervals ts idx Hs Hle). lia.
  - unfold Streaming.advance.
    assert (drop (S idx) intervals = drop idx (tail intervals)) as ->.
    { destruct intervals; simpl; [by rewrite drop_nil | done]. }
    assert (StronglySorted str_le (map fst (drop idx (tail intervals)))) as Hs'.
    { change (map fst ?l) with (fst <$> l) in *. rewrite fmap_drop.
      apply (StronglySorted_app_1_r _ (take idx (fst <$> tail intervals))).
      by rewrite take_drop. }
    rewrite (advance_from_sorted ts _ idx Hs').
    rewrite (reached_drop_past ts (tail intervals) idx Hs) by done. lia.
Qed.

Lemma X3_witness :
  StronglySorted str_le (map fst (tail Examples.intervals_int))
  /\ Streaming.interval_index Examples.intervals_int "2024-03-14T22:59:59.000000000Z" = 0
  /\ Streaming.advance Examples.intervals_int "2024-03-14T22:59:59.000000000Z" 1
     = Nat.max 1 (Streaming.interval_index Examples.intervals_int
                    "2024-03-14T22:59:59.000000000Z").
Proof.
  assert (StronglySorted str_le (map fst (tail Examples.intervals_int))) as Hs
    by (repeat constructor).
  split; [exact Hs|]. split; [reflexivity|].
  exact (X3_scan_never_goes_back Examples.intervals_int _ 1 Hs).
Defined.

Section HourKeys.
Import Streaming Iso8601.

Lemma hour_key_iso (d : cal_date) (hour : Z) (rest : string) :
  hour_key (iso_timestamp d hour rest) = iso_date d +:+ "T" +:+ zero_padded 2 hour.
Proof.
  unfold hour_key, iso_timestamp, iso_date. cbn [zero_padded].
  repeat (rewrite ?append_cons, ?append_empty; cbn [substring]).
  by destruct rest.
Qed.

Lemma date_compare_eq (a b : cal_date) : date_compare a b = Eq -> a = b.
Proof.
  unfold date_compare. destruct a as [y1 m1 d1], b as [y2 m2 d2]. cbn.
  destruct (Z.compare_spec y1 y2); try done.
  destruct (Z.compare_spec m1 m2); try done.
  destruct (Z.compare_spec d1 d2); try done. by subst.
Qed.

(** X5. For valid dates and hours from 0 to 23, two timestamps have the
    same hour key exactly when they have the same date and the same hour;
    what follows the hour in the timestamp plays no part. *)
Theorem X5_hour_key_groups_by_hour (d1 d2 : cal_date) (h1 h2 : Z) (rest1 rest2 : string) :
  valid_date d1 -> valid_date d2 -> (0 <= h1 < 24)%Z -> (0 <= h2 < 24)%Z ->
  hour_key (iso_timestamp d1 h1 rest1) = hour_key (iso_timestamp d2 h2 rest2)
  <-> d1 = d2 /\ h1 = h2.
Proof.
  intros Hd1 Hd2 Hh1 Hh2. rewrite !hour_key_iso. split.
  - intros Heq.
    assert (String.compare (iso_date d1 +:+ "T" +:+ zero_padded 2 h1)
                           (iso_date d2 +:+ "T" +:+ zero_padded 2 h2) = Eq) as Hcmp0
      by (rewrite Heq; apply string_compare_refl).
    clear Heq. rename Hcmp0 into Heq.
    rewrite (compare_iso_date d1 d2 _ _ Hd1 Hd2) in Heq.
    destruct (date_compare d1 d2) eqn:Hcmp; try done.
    apply date_compare_eq in Hcmp. split; [done|].
    rewrite !append_cons, !append_empty, compare_cons_same in Heq.
    pose proof (compare_zero_padded 2 h1 h2 "" "") as Hz.
    cbn [zero_padded] in Hz, Heq. rewrite ?append_cons, ?append_empty in Hz.
    rewrite Hz in Heq by (simpl; lia).
    destruct (Z.compare_spec h1 h2); done.
  - by intros [-> ->].
Qed.

End HourKeys.

Section Pass1.
Context {num : Type} `{Arith num}.
Import Streaming.

(** The inner dictionary as a map: adding a volume updates one entry. *)
Lemma add_volume_map (l : list (string * num)) (symbol : string) (vol : num) :
  (list_to_map (add_volume l symbol vol) : gmap string num)
  = <[ symbol := fadd (default fzero ((list_to_map l : gmap string num) !! symbol)) vol ]>
      (list_to_map l).
Proof.
  induction l as [|[s0 v0] l IH]; cbn [add_volume list_to_map foldr curry fst snd].
  - by rewrite lookup_empty.
  - destruct (String.eqb s0 symbol) eqn:He.
    + apply String.eqb_eq in He as ->. cbn [list_to_map foldr curry fst snd].
      by rewrite lookup_insert_eq, insert_insert_eq.
    + apply String.eqb_neq in He. cbn [list_to_map foldr curry fst snd].
      rewrite IH, lookup_insert_ne by done. by apply insert_insert_ne.
Qed.

Lemma add_volume_keys (l : list (string * num)) (symbol : string) (vol : num) :
  map fst (add_volume l symbol vol)
  = if bool_decide (symbol ∈ map fst l) then map fst l else map fst l ++ [symbol].
Proof.
  induction l as [|[s0 v0] l IH]; cbn [add_volume map fst].
  - rewrite bool_decide_eq_false_2; [done|]. apply not_elem_of_nil.
  - destruct (String.eqb s0 symbol) eqn:He.
    + apply String.eqb_eq in He as ->.
      rewrite bool_decide_eq_true_2; [done|]. apply list_elem_of_here.
    + apply String.eqb_neq in He. cbn [map fst]. rewrite IH.
      destruct (bool_decide (symbol ∈ map fst l)) eqn:Hin.
      * apply bool_decide_eq_true in Hin.
        rewrite bool_decide_eq_true_2; [done|]. by apply list_elem_of_further.
      * apply bool_decide_eq_false in Hin.
        rewrite bool_decide_eq_false_2; [done|].
        intros [Heq|Hin']%elem_of_cons; [by subst|done].
Qed.

Lemma add_volume_NoDup (l : list (string * num)) (symbol : string) (vol : num) :
  NoDup (map fst l) -> NoDup (map fst (add_volume l symbol vol)).
Proof.
  intros Hnd. rewrite add_volume_keys.
  destruct (bool_decide (symbol ∈ map fst l)) eqn:Hin; [done|].
  apply bool_decide_eq_false in Hin. apply NoDup_app. split; [done|].
  split; [|apply NoDup_singleton].
  intros x Hx ->%list_elem_of_singleton. done.
Qed.

Lemma add_volume_nonempty (l : list (string * num)) (symbol : string) (vol : num) :
  add_volume l symbol vol <> [].
Proof. destruct l as [|[s0 v0] l]; cbn [add_volume]; [done|]. by destruct (String.eqb s0 symbol). Qed.

(** What one row does to the volumes of pass 1. *)
Lemma pass1_row_ok cols start_date end_date hv row hv' :
  pass1_row cols start_date end_date hv row = Ok hv' ->
  exists symbol,
    field row (sym_idx cols) = Ok symbol
    /\ ((has_dash symbol = true /\ hv' = hv)
        \/ (has_dash symbol = false
            /\ exists ts,
                 field row (ts_idx cols) = Ok ts
                 /\ ((date_skipped start_date end_date ts = true /\ hv' = hv)
                     \/ (date_skipped start_date end_date ts = false
                         /\ exists v vol,
                              field row (vol_idx cols) = Ok v
                              /\ float_of_string v = Some vol
                              /\ hv' = <[ hour_key ts :=
                                            add_volume (default [] (hv !! hour_key ts))
                                                       symbol vol ]> hv)))).
Proof.
  unfold pass1_row, bind, to_float.
  destruct (field row (sym_idx cols)) as [symbol|]; [|done].
  intros Hrow. exists symbol. split; [done|].
  destruct (has_dash symbol); [left; by injection Hrow|]. right. split; [done|].
  destruct (field row (ts_idx cols)) as [ts|]; [|done]. exists ts. split; [done|].
  destruct (date_skipped start_date end_date ts); [left; by injection Hrow|].
  right. split; [done|].
  destruct (field row (vol_idx cols)) as [v|]; [|done].
  destruct (float_of_string v) as [vol|] eqn:Hv; [|done].
  exists v, vol. by injection Hrow.
Qed.

Lemma counts_for_dash cols start_date end_date hk s row symbol :
  field row (sym_idx cols) = Ok symbol -> has_dash symbol = true ->
  counts_for cols start_date end_date hk s row = false.
Proof.
  intros Hsym Hdash. unfold counts_for. rewrite Hsym.
  destruct (field row (ts_idx cols)); [|done].
  by rewrite Hdash, andb_false_r.
Qed.

Lemma counts_for_skipped cols start_date end_date hk s row ts :
  field row (ts_idx cols) = Ok ts -> date_skipped start_date end_date ts = true ->
  counts_for cols start_date end_date hk s row = false.
Proof.
  intros Hts Hskip. unfold counts_for. rewrite Hts.
  destruct (field row (sym_idx cols)); [|done].
  by rewrite Hskip, andb_false_r.
Qed.

Lemma counts_for_counted cols start_date end_date hk s row symbol ts :
  field row (sym_idx cols) = Ok symbol -> has_dash symbol = false ->
  field row (ts_idx cols) = Ok ts -> date_skipped start_date end_date ts = false ->
  counts_for cols start_date end_date hk s row
  = String.eqb symbol s && String.eqb (hour_key ts) hk.
Proof.
  intros Hsym Hdash Hts Hskip. unfold counts_for.
  by rewrite Hsym, Hts, Hdash, Hskip, !andb_true_r.
Qed.

Lemma hour_volume_snoc cols start_date end_date rows row hk s :
  hour_volume cols start_date end_date (rows ++ [row]) hk s
  = if counts_for cols start_date end_date hk s row
    then match field row (vol_idx cols) with
         | Ok v => match float_of_string v with
                   | Some vol => fadd (hour_volume cols start_date end_date rows hk s) vol
                   | None => hour_volume cols start_date end_date rows hk s
                   end
         | Raise _ => hour_volume cols start_date end_date rows hk s
         end
    else hour_volume cols start_date end_date rows hk s.
Proof.
  unfold hour_volume. rewrite List.filter_app, foldl_app. cbn [List.filter].
  by destruct (counts_for cols start_date end_date hk s row).
Qed.

Lemma volumes_of_same cols start_date end_date rows row hv :
  (forall hk s, counts_for cols start_date end_date hk s row = false) ->
  volumes_of cols start_date end_date rows hv ->
  volumes_of cols start_date end_date (rows ++ [row]) hv.
Proof.
  intros Hno Hinv hk. specialize (Hinv hk).
  destruct (hv !! hk) as [l|].
  - destruct Hinv as (Hne & Hnd & Hl). split; [done|]. split; [done|].
    intros s. rewrite Hl, hour_volume_snoc, List.filter_app. cbn [List.filter].
    by rewrite Hno, app_nil_r.
  - intros s. rewrite List.filter_app. cbn [List.filter]. by rewrite Hno, Hinv.
Qed.

Lemma volumes_of_counted cols start_date end_date rows row hv symbol ts v vol :
  field row (sym_idx cols) = Ok symbol -> has_dash symbol = false ->
  field row (ts_idx cols) = Ok ts -> date_skipped start_date end_date ts = false ->
  field row (vol_idx cols) = Ok v -> float_of_string v = Some vol ->
  volumes_of cols start_date end_date rows hv ->
  volumes_of cols start_date end_date (rows ++ [row])
    (<[ hour_key ts := add_volume (default [] (hv !! hour_key ts)) symbol vol ]> hv).
Proof.
  intros Hsym Hdash Hts Hskip Hv Hvol Hinv hk.
  pose proof (fun hk s => counts_for_counted cols start_date end_date hk s row symbol ts
                            Hsym Hdash Hts Hskip) as Hc.
  destruct (decide (hour_key ts = hk)) as [<-|Hne].
  - rewrite lookup_insert_eq. specialize (Hinv (hour_key ts)).
    split; [apply add_volume_nonempty|].
    assert (NoDup (map fst (default [] (hv !! hour_key ts)))) as Hnd.
    { destruct (hv !! hour_key ts) as [l|]; [by destruct Hinv as (_ & ? & _)|].
      apply NoDup_nil_2. }
    split; [by apply add_volume_NoDup|].
    assert (forall s, (list_to_map (default [] (hv !! hour_key ts)) : gmap string num) !! s
                      = if bool_decide (List.filter (counts_for cols start_date end_date (hour_key ts) s) rows = [])
                        then None
                        else Some (hour_volume cols start_date end_date rows (hour_key ts) s))
      as Hl.
    { intros s. destruct (hv !! hour_key ts) as [l|]; [by destruct Hinv as (_ & _ & ?)|].
      cbn. rewrite lookup_empty, Hinv. done. }
    intros s. rewrite add_volume_map, hour_volume_snoc, List.filter_app, Hc, Hv, Hvol.
    cbn [List.filter]. rewrite Hc, String.eqb_refl, andb_true_r.
    destruct (String.eqb symbol s) eqn:He.
    + apply String.eqb_eq in He as <-. rewrite lookup_insert_eq, Hl.
      assert (forall l : list (list string), l ++ [row] <> []) as Hsn
        by (by intros [|? ?]).
      rewrite (bool_decide_eq_false_2 _ (Hsn _)).
      destruct (bool_decide _) eqn:Hempty; cbn [default]; [|done].
      apply bool_decide_eq_true in Hempty. unfold hour_volume. by rewrite Hempty.
    + apply String.eqb_neq in He. rewrite lookup_insert_ne, Hl, app_nil_r by done. done.
  - rewrite lookup_insert_ne by done. specialize (Hinv hk).
    assert (forall s, counts_for cols start_date end_date hk s row = false) as Hno.
    { intros s. rewrite Hc. apply andb_false_iff. right. by apply String.eqb_neq. }
    destruct (hv !! hk) as [l|].
    + destruct Hinv as (Hn & Hnd & Hl). split; [done|]. split; [done|].
      intros s. rewrite Hl, hour_volume_snoc, List.filter_app. cbn [List.filter].
      by rewrite Hno, app_nil_r.
    + intros s. rewrite List.filter_app. cbn [List.filter]. by rewrite Hno, Hinv.
Qed.

Lemma pass1_fold_volumes cols start_date end_date rows st :
  foldl (fun acc row =>
           try st := acc in
           let row_count := N.succ st.1 in
           try _ := progress cols row_count row in
           try hourly_volume := pass1_row cols start_date end_date st.2 row in
           Ok (row_count, hourly_volume))
        (Ok (0%N, ∅)) rows = Ok st ->
  volumes_of cols start_date end_date rows st.2.
Proof.
  revert st. induction rows as [|row rows IH] using rev_ind; intros st.
  - intros [= <-] hk. cbn. by rewrite lookup_empty.
  - rewrite foldl_app. cbn [foldl].
    destruct (foldl _ _ rows) as [st0|]; [|done]. cbn [bind].
    destruct (progress cols (N.succ st0.1) row); [|done]. cbn [bind].
    destruct (pass1_row cols start_date end_date st0.2 row) as [hv'|] eqn:Hrow; [|done].
    intros [= <-]. cbn [snd]. specialize (IH st0 eq_refl).
    apply pass1_row_ok in Hrow
      as (symbol & Hsym & [[Hdash ->] | (Hdash & ts & Hts
                                         & [[Hskip ->] | (Hskip & v & vol & Hv & Hvol & ->)])]).
    + apply volumes_of_same; [|done]. intros hk s. by eapply counts_for_dash.
    + apply volumes_of_same; [|done]. intros hk s. by eapply counts_for_skipped.
    + by apply (volumes_of_counted _ _ _ _ _ _ symbol ts v vol).
Qed.

(** What pass 1 returns: the first contract of greatest volume of every
    hour that has an entry. *)
Lemma pass1_primary_volumes header rows start_date end_date primary cols :
  pass1_primary_contracts (header :: rows) start_date end_date = Ok primary ->
  col_index header "ts_event" = Ok (ts_idx cols) ->
  col_index header "volume" = Ok (vol_idx cols) ->
  col_index header "symbol" = Ok (sym_idx cols) ->
  exists hv, volumes_of cols start_date end_date rows hv
             /\ primary = omap max_symbol hv.
Proof.
  destruct cols as [t o h l c v s]. cbn [ts_idx vol_idx sym_idx].
  intros Hp Ht Hv Hs. unfold pass1_primary_contracts in Hp.
  rewrite Ht, Hv, Hs in Hp. cbn [bind] in Hp.
  destruct (foldl _ _ rows) as [st|] eqn:Hfold; [|done]. cbn [bind] in Hp.
  injection Hp as <-. exists st.2. split; [|done].
  exact (pass1_fold_volumes _ _ _ _ _ Hfold).
Qed.

Lemma max_from_member (best : string * num) (l : list (string * num)) :
  exists w, w ∈ best :: l /\ w.1 = max_from best l.
Proof.
  revert best. induction l as [|[s v] l IH]; intros best; cbn [max_from].
  - exists best. split; [apply list_elem_of_here|done].
  - destruct (IH (if fltb best.2 (s, v).2 then (s, v) else best)) as (w & Hin & Hw).
    exists w. split; [|done].
    apply elem_of_cons in Hin as [->|Hin].
    + destruct (fltb _ _); [apply list_elem_of_further|]; apply list_elem_of_here.
    + by do 2 apply list_elem_of_further.
Qed.

Lemma counted_rows_nonempty cols start_date end_date rows hk s :
  List.filter (counts_for cols start_date end_date hk s) rows <> []
  <-> exists row, row ∈ rows /\ counts_for cols start_date end_date hk s row = true.
Proof.
  split.
  - destruct (List.filter _ rows) as [|row l] eqn:Hf; [done|]. intros _.
    assert (In row (List.filter (counts_for cols start_date end_date hk s) rows)) as Hin
      by (rewrite Hf; by left).
    apply filter_In in Hin as [Hin Hc]. exists row. by rewrite list_elem_of_In.
  - intros (row & Hin & Hc) Hf.
    assert (In row (List.filter (counts_for cols start_date end_date hk s) rows)) as Hin'
      by (apply filter_In; by rewrite <- list_elem_of_In).
    by rewrite Hf in Hin'.
Qed.

End Pass1.

Section MaxVolume.
Context {num : Type} `{OrderLaws num}.
Import Streaming.

(** [max] returns an entry that no entry exceeds. *)
Lemma max_from_spec (best : string * num) (l : list (string * num)) :
  exists w, w ∈ best :: l /\ w.1 = max_from best l
            /\ (w = best \/ fltb best.2 w.2 = true)
            /\ forall x, x ∈ best :: l -> fltb w.2 x.2 = false.
Proof.
  revert best. induction l as [|[s v] l IH]; intros best; cbn [max_from].
  - exists best. split; [apply list_elem_of_here|]. split; [done|]. split; [by left|].
    intros x ->%list_elem_of_singleton. apply fltb_irrefl.
  - cbn [snd]. destruct (fltb best.2 v) eqn:Hlt.
    + destruct (IH (s, v)) as (w & Hin & Hw & Hup & Hdom).
      assert (fltb best.2 w.2 = true) as Hbw.
      { destruct Hup as [->|Hup]; [done|]. by apply (fltb_trans _ v). }
      exists w. split; [by apply list_elem_of_further|]. split; [done|]. split; [by right|].
      intros x [->|Hx]%elem_of_cons; [|by apply Hdom].
      destruct (fltb w.2 best.2) eqn:Hwb; [|done].
      rewrite <- (fltb_irrefl best.2). symmetry. by apply (fltb_trans _ w.2).
    + destruct (IH best) as (w & Hin & Hw & Hup & Hdom).
      exists w. split.
      { apply elem_of_cons in Hin as [->|Hin]; [apply list_elem_of_here|].
        by do 2 apply list_elem_of_further. }
      split; [done|]. split; [done|].
      intros x [->|[->|Hx]%elem_of_cons]%elem_of_cons.
      * apply Hdom, list_elem_of_here.
      * cbn [snd]. destruct (fltb w.2 v) eqn:Hwv; [|done].
        destruct Hup as [->|Hup]; [congruence|].
        rewrite <- Hlt. symmetry. by apply (fltb_trans _ w.2).
      * by apply Hdom, list_elem_of_further.
Qed.

End MaxVolume.

(** X7. When pass 1 completes, every hour of its result is mapped to a
    contract that has a counted row in that hour (a row of an outright
    contract that the date bounds do not exclude), and every hour that has
    a counted row is in the result. *)
Theorem X7_pass1_primary_is_counted {num : Type} `{Arith num}
    (header : list string) (rows : list (list string))
    (start_date end_date : option string) (primary : gmap string string)
    (cols : Streaming.columns) :
  Streaming.pass1_primary_contracts (num:=num) (header :: rows) start_date end_date
  = Ok primary ->
  Streaming.col_index header "ts_event" = Ok (Streaming.ts_idx cols) ->
  Streaming.col_index header "volume" = Ok (Streaming.vol_idx cols) ->
  Streaming.col_index header "symbol" = Ok (Streaming.sym_idx cols) ->
  (forall hk s,
     primary !! hk = Some s ->
     exists row, row ∈ rows
                 /\ Streaming.counts_for cols start_date end_date hk s row = true)
  /\ (forall hk s row,
        row ∈ rows ->
        Streaming.counts_for cols start_date end_date hk s row = true ->
        is_Some (primary !! hk)).
Proof.
  intros Hp Ht Hv Hs.
  destruct (pass1_primary_volumes _ _ _ _ _ _ Hp Ht Hv Hs) as (hv & Hinv & ->).
  split.
  - intros hk s. rewrite lookup_omap. specialize (Hinv hk).
    destruct (hv !! hk) as [l|]; [|done]. destruct Hinv as (Hne & Hnd & Hl).
    destruct l as [|first rest]; [done|]. cbn. intros [= <-].
    destruct (max_from_member first rest) as (w & Hin & <-).
    apply counted_rows_nonempty.
    assert ((list_to_map (first :: rest) : gmap string num) !! w.1 = Some w.2) as Hw.
    { apply elem_of_list_to_map_1; [done|]. by destruct w. }
    rewrite Hl in Hw. by destruct (bool_decide _) eqn:Hb; [|apply bool_decide_eq_false in Hb].
  - intros hk s row Hrow Hc. rewrite lookup_omap. specialize (Hinv hk).
    destruct (hv !! hk) as [l|].
    + destruct Hinv as (Hne & _). destruct l; [done|]. by eexists.
    + exfalso. apply (proj2 (counted_rows_nonempty cols start_date end_date rows hk s)).
      * by exists row.
      * apply Hinv.
Qed.

Section Busiest.
Context {num : Type} `{OrderLaws num}.
Import Streaming.

Lemma pass1_primary_greatest header rows start_date end_date primary cols hk s s' row' :
  pass1_primary_contracts (header :: rows) start_date end_date = Ok primary ->
  col_index header "ts_event" = Ok (ts_idx cols) ->
  col_index header "volume" = Ok (vol_idx cols) ->
  col_index header "symbol" = Ok (sym_idx cols) ->
  primary !! hk = Some s ->
  row' ∈ rows ->
  counts_for cols start_date end_date hk s' row' = true ->
  fltb (hour_volume cols start_date end_date rows hk s)
       (hour_volume cols start_date end_date rows hk s') = false.
Proof.
  intros Hp Ht Hv Hs Hprim Hrow' Hc.
  destruct (pass1_primary_volumes _ _ _ _ _ _ Hp Ht Hv Hs) as (hv & Hinv & ->).
  rewrite lookup_omap in Hprim. specialize (Hinv hk).
  destruct (hv !! hk) as [l|]; [|done]. destruct Hinv as (Hne & Hnd & Hl).
  destruct l as [|first rest]; [done|]. cbn in Hprim. injection Hprim as <-.
  destruct (max_from_spec first rest) as (w & Hin & <- & _ & Hdom).
  assert (forall x, x ∈ first :: rest ->
                    x.2 = hour_volume cols start_date end_date rows hk x.1) as Hvol.
  { intros [sx vx] Hx. cbn [fst snd].
    apply (elem_of_list_to_map_1 (M:=gmap string)) in Hx; [|done].
    rewrite Hl in Hx. destruct (bool_decide _); [done|]. by injection Hx. }
  assert ((s', hour_volume cols start_date end_date rows hk s') ∈ first :: rest) as Hs'.
  { apply (elem_of_list_to_map_2 (M:=gmap string)). rewrite Hl.
    rewrite bool_decide_eq_false_2; [done|].
    apply counted_rows_nonempty. by exists row'. }
  rewrite <- (Hvol w Hin). exact (Hdom _ Hs').
Qed.

End Busiest.

(** X8. When pass 1 completes, the contract it chooses for an hour has a
    volume, summed over the counted rows in the order of the file, that is
    not less than the volume of any contract with a counted row in that
    hour.  This holds for every carrier whose [<] is irreflexive and
    transitive, binary64 and the integers among them. *)
Theorem X8_pass1_primary_has_greatest_volume {num : Type} `{OrderLaws num}
    (header : list string) (rows : list (list string))
    (start_date end_date : option string) (primary : gmap string string)
    (cols : Streaming.columns) (hk s s' : string) (row' : list string) :
  Streaming.pass1_primary_contracts (num:=num) (header :: rows) start_date end_date
  = Ok primary ->
  Streaming.col_index header "ts_event" = Ok (Streaming.ts_idx cols) ->
  Streaming.col_index header "volume" = Ok (Streaming.vol_idx cols) ->
  Streaming.col_index header "symbol" = Ok (Streaming.sym_idx cols) ->
  primary !! hk = Some s ->
  row' ∈ rows ->
  Streaming.counts_for cols start_date end_date hk s' row' = true ->
  fltb (Streaming.hour_volume cols start_date end_date rows hk s)
       (Streaming.hour_volume cols start_date end_date rows hk s') = false.
Proof. apply pass1_primary_greatest. Qed.

Lemma X8_witness :
  Streaming.pass1_primary_contracts (num:=float) Examples.file_before None None
  = Ok Examples.primary_before
  /\ Examples.primary_before !! "2024-03-14T23" = Some "ESH4"
  /\ Streaming.counts_for Examples.cols None None "2024-03-14T23" "ESM4"
       ["2024-03-14T23:00:00.000000000Z"; "5051"; "5052"; "5050"; "5051"; "3"; "ESM4"]
     = true
  /\ Streaming.hour_volume (num:=float) Examples.cols None None
       (tail Examples.file_before) "2024-03-14T23" "ESH4" = 7%float
  /\ Streaming.hour_volume (num:=float) Examples.cols None None
       (tail Examples.file_before) "2024-03-14T23" "ESM4" = 3%float
  /\ fltb (Streaming.hour_volume (num:=float) Examples.cols None None
             (tail Examples.file_before) "2024-03-14T23" "ESH4")
          (Streaming.hour_volume Examples.cols None None
             (tail Examples.file_before) "2024-03-14T23" "ESM4") = false.
Proof.
  assert (Streaming.pass1_primary_contracts (num:=float) Examples.file_before None None
          = Ok Examples.primary_before) as Hp by (vm_compute; reflexivity).
  assert (Examples.primary_before !! "2024-03-14T23" = Some "ESH4") as Hprim
    by (vm_compute; reflexivity).
  split; [exact Hp|]. split; [exact Hprim|]. split; [reflexivity|].
  split; [vm_compute; reflexivity|]. split; [vm_compute; reflexivity|].
  apply (X8_pass1_primary_has_greatest_volume Examples.header (tail Examples.file_before)
           None None Examples.primary_before Examples.cols "2024-03-14T23" "ESH4" "ESM4"
           ["2024-03-14T23:00:00.000000000Z"; "5051"; "5052"; "5050"; "5051"; "3"; "ESM4"]
           Hp eq_refl eq_refl eq_refl Hprim).
  - apply list_elem_of_further, list_elem_of_here.
  - reflexivity.
Defined.

Section MainRun.
Context {num : Type} `{Arith num}.
Import Streaming.

Lemma find_columns_indices header cols :
  find_columns header = Ok cols ->
  col_index header "ts_event" = Ok (ts_idx cols)
  /\ col_index header "volume" = Ok (vol_idx cols)
  /\ col_index header "symbol" = Ok (sym_idx cols).
Proof.
  unfold find_columns, bind.
  destruct (col_index header "ts_event") as [ts|]; [|done].
  destruct (col_index header "open") as [o|]; [|done].
  destruct (col_index header "high") as [h|]; [|done].
  destruct (col_index header "low") as [l|]; [|done].
  destruct (col_index header "close") as [c|]; [|done].
  destruct (col_index header "volume") as [v|]; [|done].
  destruct (col_index header "symbol") as [s|]; [|done].
  by intros [= <-].
Qed.

(** A run that completes has read both files and gone through both
    passes; the output file holds what pass 2 wrote. *)
Lemma main_completed a (fs : files (num:=num)) n :
  (main a fs).2 = Completed n ->
  exists input log ls rs primary out,
    ohlcv_file fs = Some input /\ rollover_log_file fs = Some log
    /\ load_rollover_log log = Ok ls /\ with_dates ls = Ok rs
    /\ pass1_primary_contracts input (start_bound a) (end_bound a) = Ok primary
    /\ pass2_filter_adjust_write input primary (build_adjustment_intervals rs)
         (start_bound a) (end_bound a) = (out, Ok n)
    /\ (main a fs).1 = {| ohlcv_file := Some input; rollover_log_file := Some log;
                          output_file := Some out |}.
Proof.
  unfold main, adjustment_intervals.
  destruct (ohlcv_file fs) as [input|] eqn:Hin; [|done].
  destruct (rollover_log_file fs) as [log|] eqn:Hlog; [|done].
  destruct (load_rollover_log log) as [ls|] eqn:Hload; [|done].
  destruct (with_dates ls) as [rs|] eqn:Hdated; [|done]. cbn [bind].
  destruct (pass1_primary_contracts input _ _) as [primary|] eqn:Hp1; [|done].
  destruct (pass2_filter_adjust_write input primary _ _ _) as [out [m|e]] eqn:Hp2; [|done].
  cbn. intros [= <-]. by exists input, log, ls, rs, primary, out.
Qed.

End MainRun.

(** X6. [load_rollover_log] reads the log through [csv.DictReader],
    whose dictionaries have the field names of the first row as keys.  It
    returns a list exactly when every dictionary has the keys [date],
    [from_symbol], [to_symbol] and [spread] and a spread that is a string
    that parses as a float; the list then holds one rollover per
    dictionary, in the order of the log, with the values of the dictionary
    ([None] where the row is too short) and the parsed spread.  Otherwise
    it stops at the first dictionary that cannot be read: with KeyError
    when one of the four columns is missing, with TypeError when the row
    is too short to have a spread, and with ValueError when the spread is
    no number. *)
Theorem X6_load_rollover_log_all_or_nothing {num : Type} `{Arith num}
    (file : list (list string)) :
  (forall row key,
     row ∈ Streaming.DictReader file ->
     is_Some (row !! key) <-> key ∈ default [] (head file))
  /\ (forall rs : list (Streaming.loaded num),
        Streaming.load_rollover_log file = Ok rs
        <-> Forall2 Streaming.read_as (Streaming.DictReader file) rs)
  /\ (forall e,
        Streaming.load_rollover_log (num:=num) file = Raise e ->
        exists pre row post (rs : list (Streaming.loaded num)),
          Streaming.DictReader file = pre ++ row :: post
          /\ Forall2 Streaming.read_as pre rs
          /\ ((e = KeyError
               /\ (row !! "date" = None \/ row !! "from_symbol" = None
                   \/ row !! "to_symbol" = None \/ row !! "spread" = None))
              \/ (is_Some (row !! "date") /\ is_Some (row !! "from_symbol")
                  /\ is_Some (row !! "to_symbol")
                  /\ ((e = TypeError /\ row !! "spread" = Some None)
                      \/ (e = ValueError
                          /\ exists s, row !! "spread" = Some (Some s)
                                       /\ float_of_string (num:=num) s = None))))).
Proof.
  split; [|split].
  - intros row key. destruct file as [|fieldnames rows]; cbn [Streaming.DictReader].
    { by intros ?%elem_of_nil. }
    change (map ?f ?l) with (f <$> l). intros (r & -> & _)%list_elem_of_fmap.
    apply dict_of_row_keys.
  - intros rs. apply read_rollover_log_ok.
  - intros e He. apply read_rollover_log_raise in He as (pre & row & post & rs & Hfile & Hpre & Hrow).
    exists pre, row, post, rs. split; [done|]. split; [by apply read_rollover_log_ok|].
    by apply read_row_raise.
Qed.

Lemma X6_witness :
  let short := [ ["date"; "from_symbol"; "to_symbol"; "spread"];
                 ["2024-03-15"; "ESH4"; "ESM4"; "50.25"];
                 [];
                 ["2024-06-14"; "ESM4"; "ESU4"] ] in
  (forall row key,
     row ∈ Streaming.DictReader short ->
     is_Some (row !! key) <-> key ∈ ["date"; "from_symbol"; "to_symbol"; "spread"])
  /\ Streaming.load_rollover_log (Streaming.log_file Examples.log_2024)
     = Ok Examples.loaded_2024
  /\ Forall2 Streaming.read_as
       (Streaming.DictReader (Streaming.log_file Examples.log_2024)) Examples.loaded_2024
  /\ Streaming.load_rollover_log (num:=float) short = Raise TypeError
  /\ exists pre row post (rs : list (Streaming.loaded float)),
       Streaming.DictReader short = pre ++ row :: post
       /\ Forall2 Streaming.read_as pre rs
       /\ ((TypeError = KeyError
            /\ (row !! "date" = None \/ row !! "from_symbol" = None
                \/ row !! "to_symbol" = None \/ row !! "spread" = None))
           \/ (is_Some (row !! "date") /\ is_Some (row !! "from_symbol")
               /\ is_Some (row !! "to_symbol")
               /\ ((TypeError = TypeError /\ row !! "spread" = Some None)
                   \/ (TypeError = ValueError
                       /\ exists s, row !! "spread" = Some (Some s)
                                    /\ float_of_string (num:=float) s = None)))).
Proof.
  intros short.
  split; [exact (proj1 (X6_load_rollover_log_all_or_nothing (num:=float) short))|].
  assert (Streaming.load_rollover_log (Streaming.log_file Examples.log_2024)
          = Ok Examples.loaded_2024) as Hok by (vm_compute; reflexivity).
  split; [exact Hok|].
  split; [exact (proj1 (proj1 (proj2 (X6_load_rollover_log_all_or_nothing _)) _) Hok)|].
  assert (Streaming.load_rollover_log (num:=float) short = Raise TypeError) as Hbad
    by (vm_compute; reflexivity).
  split; [exact Hbad|].
  exact (proj2 (proj2 (X6_load_rollover_log_all_or_nothing _)) _ Hbad).
Defined.

Lemma X5_witness :
  let d := {| Iso8601.year := 2024; Iso8601.month := 3; Iso8601.day := 14 |} in
  Iso8601.valid_date d /\ (0 <= 22 < 24)%Z /\ (0 <= 23 < 24)%Z
  /\ Iso8601.iso_timestamp d 22 ":59:59.000000000Z" = "2024-03-14T22:59:59.000000000Z"
  /\ Iso8601.iso_timestamp d 23 ":00:01.000000000Z" = "2024-03-14T23:00:01.000000000Z"
  /\ (Streaming.hour_key (Iso8601.iso_timestamp d 22 ":59:59.000000000Z")
      = Streaming.hour_key (Iso8601.iso_timestamp d 23 ":00:01.000000000Z")
      <-> d = d /\ 22%Z = 23%Z).
Proof.
  intros d.
  assert (Iso8601.valid_date d) as Hd by (unfold Iso8601.valid_date; cbn; lia).
  assert (0 <= 22 < 24)%Z as H22 by lia.
  assert (0 <= 23 < 24)%Z as H23 by lia.
  do 3 (split; [assumption|]). split; [reflexivity|]. split; [reflexivity|].
  exact (X5_hour_key_groups_by_hour d d 22 23 _ _ Hd Hd H22 H23).
Defined.

Lemma X7_witness :
  Streaming.pass1_primary_contracts (num:=float) Examples.file_before None None
  = Ok Examples.primary_before
  /\ Examples.primary_before !! "2024-03-14T23" = Some "ESH4"
  /\ (exists row, row ∈ tail Examples.file_before
                  /\ Streaming.counts_for Examples.cols None None
                       "2024-03-14T23" "ESH4" row = true)
  /\ Streaming.counts_for Examples.cols None None "2024-03-14T22" "ESH4"
       ["2024-03-14T22:59:59.000000000Z"; "5000"; "5002"; "4999"; "5001"; "10"; "ESH4"]
     = true
  /\ is_Some (Examples.primary_before !! "2024-03-14T22").
Proof.
  assert (Streaming.pass1_primary_contracts (num:=float) Examples.file_before None None
          = Ok Examples.primary_before) as Hp by (vm_compute; reflexivity).
  assert (Examples.primary_before !! "2024-03-14T23" = Some "ESH4") as Hprim
    by (vm_compute; reflexivity).
  destruct (X7_pass1_primary_is_counted Examples.header (tail Examples.file_before)
              None None Examples.primary_before Examples.cols Hp eq_refl eq_refl eq_refl)
    as [Hsound Hcomplete].
  split; [exact Hp|]. split; [exact Hprim|].
  split; [exact (Hsound _ _ Hprim)|]. split; [reflexivity|].
  apply (Hcomplete "2024-03-14T22" "ESH4"
           ["2024-03-14T22:59:59.000000000Z"; "5000"; "5002"; "4999"; "5001"; "10"; "ESH4"]).
  - apply list_elem_of_here.
  - reflexivity.
Defined.

(** X9. When the command completes, the number it reports is the number
    of rows of the output file, and every row of the output names a contract
    whose volume in the hour of the row is not less than the volume of any
    contract with a counted row in that hour. *)
Theorem X9_main_writes_the_busiest_contract {num : Type} `{OrderLaws num}
    (a : Streaming.args) (fs : Streaming.files (num:=num))
    (header : list string) (rows : list (list string)) (cols : Streaming.columns)
    (n : nat) (out : list (Streaming.out_row num)) (r : Streaming.out_row num)
    (s' : string) (row' : list string) :
  Streaming.ohlcv_file fs = Some (header :: rows) ->
  Streaming.find_columns header = Ok cols ->
  (Streaming.main a fs).2 = Streaming.Completed n ->
  Streaming.output_file (Streaming.main a fs).1 = Some out ->
  r ∈ out ->
  row' ∈ rows ->
  Streaming.counts_for cols (Streaming.start_bound a) (Streaming.end_bound a)
    (Streaming.hour_key (Streaming.out_ts r)) s' row' = true ->
  n = length out
  /\ fltb (Streaming.hour_volume cols (Streaming.start_bound a) (Streaming.end_bound a)
             rows (Streaming.hour_key (Streaming.out_ts r)) (Streaming.out_contract r))
          (Streaming.hour_volume cols (Streaming.start_bound a) (Streaming.end_bound a)
             rows (Streaming.hour_key (Streaming.out_ts r)) s') = false.
Proof.
  intros Hin Hcols Hdone Hout Hr Hrow' Hc.
  destruct (main_completed a fs n Hdone)
    as (input & log & ls & rs & primary & out' & Hin' & Hlog & Hload & Hdated & Hp1
        & Hp2 & Hfs).
  rewrite Hin in Hin'. injection Hin' as <-.
  rewrite Hfs in Hout. cbn in Hout. injection Hout as <-.
  destruct (find_columns_indices header cols Hcols) as (Ht & Hv & Hs).
  split.
  { unfold Streaming.pass2_filter_adjust_write in Hp2. rewrite Hcols in Hp2.
    by apply pass2_loop_kept_rows in Hp2 as [-> _]. }
  assert (r ∈ (Streaming.pass2_filter_adjust_write (header :: rows) primary
                 (Streaming.build_adjustment_intervals rs)
                 (Streaming.start_bound a) (Streaming.end_bound a)).1) as Hr'
    by (by rewrite Hp2).
  apply pass2_written_filtered in Hr' as (_ & _ & Hprim & _).
  exact (pass1_primary_greatest _ _ _ _ _ _ _ _ _ _ Hp1 Ht Hv Hs Hprim Hrow' Hc).
Qed.

Lemma X9_witness :
  let r := {| Streaming.out_ts := "2024-03-15T00:00:01.000000000Z";
              Streaming.out_open := 4941%float; Streaming.out_high := 4944%float;
              Streaming.out_low := 4941%float; Streaming.out_close := 4943%float;
              Streaming.out_volume := "7"; Streaming.out_symbol := "ES_continuous";
              Streaming.out_contract := "ESH4" |} in
  let r0 := {| Streaming.out_ts := "2024-03-14T23:59:59.000000000Z";
               Streaming.out_open := 4890%float; Streaming.out_high := 4892%float;
               Streaming.out_low := 4889%float; Streaming.out_close := 4891%float;
               Streaming.out_volume := "10"; Streaming.out_symbol := "ES_continuous";
               Streaming.out_contract := "ESH4" |} in
  let row' := ["2024-03-15T00:00:00.000000000Z"; "5051"; "5052"; "5050"; "5051"; "3";
               "ESM4"] in
  Streaming.ohlcv_file Examples.files_straddle = Some Examples.file_straddle
  /\ Streaming.find_columns Examples.header = Ok Examples.cols
  /\ (Streaming.main Examples.no_args Examples.files_straddle).2 = Streaming.Completed 2
  /\ Streaming.output_file (Streaming.main Examples.no_args Examples.files_straddle).1
     = Some [r0; r]
  /\ r ∈ [r0; r]
  /\ row' ∈ tail Examples.file_straddle
  /\ Streaming.counts_for Examples.cols None None "2024-03-15T00" "ESM4" row' = true
  /\ 2 = length [r0; r]
  /\ fltb (Streaming.hour_volume (num:=float) Examples.cols None None
             (tail Examples.file_straddle) "2024-03-15T00" "ESH4")
          (Streaming.hour_volume Examples.cols None None
             (tail Examples.file_straddle) "2024-03-15T00" "ESM4") = false.
Proof.
  intros r r0 row'.
  assert (Streaming.ohlcv_file Examples.files_straddle = Some Examples.file_straddle)
    as Hin by reflexivity.
  assert (Streaming.find_columns Examples.header = Ok Examples.cols) as Hcols
    by reflexivity.
  assert ((Streaming.main Examples.no_args Examples.files_straddle).2
          = Streaming.Completed 2) as Hdone by (vm_compute; reflexivity).
  assert (Streaming.output_file (Streaming.main Examples.no_args Examples.files_straddle).1
          = Some [r0; r]) as Hout by (vm_compute; reflexivity).
  assert (r ∈ [r0; r]) as Hr by apply list_elem_of_further, list_elem_of_here.
  assert (row' ∈ tail Examples.file_straddle) as Hrow'
    by apply list_elem_of_further, list_elem_of_here.
  assert (Streaming.counts_for Examples.cols None None "2024-03-15T00" "ESM4" row' = true)
    as Hc by reflexivity.
  do 7 (split; [assumption|]).
  exact (X9_main_writes_the_busiest_contract Examples.no_args Examples.files_straddle
           Examples.header (tail Examples.file_straddle) Examples.cols 2 [r0; r] r
           "ESM4" row' Hin Hcols Hdone Hout Hr Hrow' Hc).
Defined.

(** ** The in-memory builder *)

Section Detector.
Import Batch.

Lemma walk_days_acc (rest : list (Z * string)) (prev : string) (acc : list detected) :
  walk_days rest prev acc = acc ++ walk_days rest prev [].
Proof.
  revert prev acc. induction rest as [|[day cur] later IH]; intros prev acc;
    cbn [walk_days].
  - by rewrite app_nil_r.
  - destruct (negb (String.eqb cur prev)); [|apply IH].
    destruct (_ && _); [|apply IH].
    rewrite (IH cur (acc ++ _)), (IH cur ([] ++ _)). by rewrite <- app_assoc.
Qed.

(** One day of the walk: the change of contract is taken when the new
    contract is the primary of two of the five days from this one on. *)
Lemma walk_days_cons (day : Z) (cur : string) (later : list (Z * string)) (prev : string) :
  walk_days ((day, cur) :: later) prev []
  = if negb (String.eqb cur prev)
       && ((2 <=? length (take 5 ((day, cur) :: later)))%nat
           && (2 <=? count_primary cur (take 5 ((day, cur) :: later)))%nat)
    then {| d_date := day; d_from_symbol := prev; d_to_symbol := cur |}
           :: walk_days later cur []
    else walk_days later prev [].
Proof.
  cbn [walk_days]. destruct (negb (String.eqb cur prev)); [|done]. cbn [andb].
  destruct (_ && _); [|done]. by rewrite walk_days_acc.
Qed.

Lemma walk_days_chain (rest : list (Z * string)) (prev : string) :
  (forall r, r ∈ walk_days rest prev [] -> d_from_symbol r <> d_to_symbol r)
  /\ (forall r, walk_days rest prev [] !! 0 = Some r -> d_from_symbol r = prev)
  /\ (forall i r r', walk_days rest prev [] !! i = Some r ->
                     walk_days rest prev [] !! S i = Some r' ->
                     d_from_symbol r' = d_to_symbol r).
Proof.
  revert prev. induction rest as [|[day cur] later IH]; intros prev.
  - cbn. split; [by intros ? ?%elem_of_nil|]. split; done.
  - rewrite walk_days_cons. destruct (negb (String.eqb cur prev)) eqn:Hne; [|apply IH].
    cbn [andb]. destruct (_ && _); [|apply IH].
    destruct (IH cur) as (Hdiff & Hfirst & Hnext).
    apply negb_true_iff, String.eqb_neq in Hne.
    split; [|split].
    + intros r [->|Hr]%elem_of_cons; [cbn; congruence | by apply Hdiff].
    + by intros r [= <-].
    + intros [|i] r r'; cbn [lookup list_lookup].
      * intros [= <-] Hr'. cbn. by apply Hfirst.
      * apply Hnext.
Qed.

Lemma walk_days_dates (rest : list (Z * string)) (prev : string) :
  sublist (map (fun r => (d_date r, d_to_symbol r)) (walk_days rest prev [])) rest.
Proof.
  revert prev. induction rest as [|[day cur] later IH]; intros prev.
  - constructor.
  - rewrite walk_days_cons. destruct (_ && _).
    + cbn [map d_date d_to_symbol]. by apply sublist_skip.
    + by apply sublist_cons.
Qed.

Lemma walk_days_persistent (rest : list (Z * string)) (prev : string) (r : detected) :
  r ∈ walk_days rest prev [] ->
  exists pre post,
    rest = pre ++ (d_date r, d_to_symbol r) :: post
    /\ post <> []
    /\ (2 <= count_primary (d_to_symbol r) (take 5 ((d_date r, d_to_symbol r) :: post)))%nat.
Proof.
  revert prev. induction rest as [|[day cur] later IH]; intros prev.
  - by intros ?%elem_of_nil.
  - rewrite walk_days_cons.
    assert (forall prev', r ∈ walk_days later prev' [] ->
              exists pre post,
                (day, cur) :: later = pre ++ (d_date r, d_to_symbol r) :: post
                /\ post <> []
                /\ (2 <= count_primary (d_to_symbol r)
                            (take 5 ((d_date r, d_to_symbol r) :: post)))%nat) as Hlater.
    { intros prev' Hr. destruct (IH prev' Hr) as (pre & post & -> & Hpost & Hcount).
      by exists ((day, cur) :: pre), post. }
    destruct (negb (String.eqb cur prev)); cbn [andb]; [|apply Hlater].
    destruct (2 <=? length (take 5 ((day, cur) :: later)))%nat eqn:Hlen;
      cbn [andb]; [|apply Hlater].
    destruct (2 <=? count_primary cur (take 5 ((day, cur) :: later)))%nat eqn:Hcount;
      [|apply Hlater].
    intros [->|Hr]%elem_of_cons; [|by apply (Hlater cur)].
    exists [], later. cbn [d_date d_to_symbol app]. split; [done|]. split.
    + intros ->. cbn in Hlen. done.
    + by apply Nat.leb_le.
Qed.

End Detector.

(** X10. The rollovers that [detect_true_rollovers] returns form a
    chain: each one changes the contract, the first one leaves the primary
    contract of the first day, each further one leaves the contract the one
    before it switched to, and their dates with their new contracts are days
    of the input after the first one, in the order of the input. *)
Theorem X10_rollovers_form_a_chain (daily_primary : list (Z * string))
    (rs : list Batch.detected) :
  Batch.detect_true_rollovers daily_primary = Ok rs ->
  (forall r, r ∈ rs -> Batch.d_from_symbol r <> Batch.d_to_symbol r)
  /\ (forall r, rs !! 0 = Some r ->
        head (map snd daily_primary) = Some (Batch.d_from_symbol r))
  /\ (forall i r r', rs !! i = Some r -> rs !! S i = Some r' ->
        Batch.d_from_symbol r' = Batch.d_to_symbol r)
  /\ sublist (map (fun r => (Batch.d_date r, Batch.d_to_symbol r)) rs)
             (tail daily_primary).
Proof.
  unfold Batch.detect_true_rollovers.
  destruct daily_primary as [|[d0 first] rest]; [done|]. intros [= <-].
  destruct (walk_days_chain rest first) as (Hdiff & Hfirst & Hnext).
  split; [done|]. split; [|split; [done|apply walk_days_dates]].
  intros r Hr. cbn. by rewrite (Hfirst r Hr).
Qed.

Lemma X10_witness :
  let daily_primary :=
    [(0, "ESH4"); (1, "ESH4"); (2, "ESM4"); (3, "ESM4"); (4, "ESU4"); (5, "ESU4");
     (6, "ESU4")]%Z in
  let rs := [ {| Batch.d_date := 2; Batch.d_from_symbol := "ESH4";
                 Batch.d_to_symbol := "ESM4" |};
              {| Batch.d_date := 4; Batch.d_from_symbol := "ESM4";
                 Batch.d_to_symbol := "ESU4" |} ] in
  Batch.detect_true_rollovers daily_primary = Ok rs
  /\ (forall r, r ∈ rs -> Batch.d_from_symbol r <> Batch.d_to_symbol r)
  /\ (forall r, rs !! 0 = Some r ->
        head (map snd daily_primary) = Some (Batch.d_from_symbol r))
  /\ (forall i r r', rs !! i = Some r -> rs !! S i = Some r' ->
        Batch.d_from_symbol r' = Batch.d_to_symbol r)
  /\ sublist (map (fun r => (Batch.d_date r, Batch.d_to_symbol r)) rs)
             (tail daily_primary).
Proof.
  intros daily_primary rs.
  assert (Batch.detect_true_rollovers daily_primary = Ok rs) as Hrs by reflexivity.
  split; [exact Hrs|].
  exact (X10_rollovers_form_a_chain daily_primary rs Hrs).
Defined.

(** X11. Every rollover that [detect_true_rollovers] returns falls on a
    day of the input that is neither the first nor the last one, whose
    primary contract is the new contract, and the new contract is the
    primary contract of at least two of the five days from that day on. *)
Theorem X11_rollovers_are_persistent (daily_primary : list (Z * string))
    (rs : list Batch.detected) (r : Batch.detected) :
  Batch.detect_true_rollovers daily_primary = Ok rs ->
  r ∈ rs ->
  exists pre post,
    daily_primary = pre ++ (Batch.d_date r, Batch.d_to_symbol r) :: post
    /\ pre <> [] /\ post <> []
    /\ (2 <= Batch.count_primary (Batch.d_to_symbol r)
                (take 5 ((Batch.d_date r, Batch.d_to_symbol r) :: post)))%nat.
Proof.
  unfold Batch.detect_true_rollovers.
  destruct daily_primary as [|[d0 first] rest]; [done|]. intros [= <-] Hr.
  destruct (walk_days_persistent rest first r Hr) as (pre & post & -> & Hpost & Hcount).
  by exists ((d0, first) :: pre), post.
Qed.

Lemma X11_witness :
  let daily_primary :=
    [(0, "ESH4"); (1, "ESH4"); (2, "ESM4"); (3, "ESM4"); (4, "ESU4"); (5, "ESU4");
     (6, "ESU4")]%Z in
  let r := {| Batch.d_date := 4; Batch.d_from_symbol := "ESM4";
              Batch.d_to_symbol := "ESU4" |} in
  let rs := [ {| Batch.d_date := 2; Batch.d_from_symbol := "ESH4";
                 Batch.d_to_symbol := "ESM4" |}; r ] in
  Batch.detect_true_rollovers daily_primary = Ok rs
  /\ r ∈ rs
  /\ exists pre post,
       daily_primary = pre ++ (Batch.d_date r, Batch.d_to_symbol r) :: post
       /\ pre <> [] /\ post <> []
       /\ (2 <= Batch.count_primary (Batch.d_to_symbol r)
                   (take 5 ((Batch.d_date r, Batch.d_to_symbol r) :: post)))%nat.
Proof.
  intros daily_primary r rs.
  assert (Batch.detect_true_rollovers daily_primary = Ok rs) as Hrs by reflexivity.
  assert (r ∈ rs) as Hr by apply list_elem_of_further, list_elem_of_here.
  split; [exact Hrs|]. split; [exact Hr|].
  exact (X11_rollovers_are_persistent daily_primary rs r Hrs Hr).
Defined.

Section SpreadLoop.
Context {num : Type} `{Arith num}.
Import Batch.

(** What one turn of the loop of [compute_rollover_spreads] leaves. *)
Lemma rollover_spread_ok (df : list (bar num)) (r : detected) (r' : rollover num) :
  rollover_spread df r = Ok r' ->
  date r' = d_date r /\ from_symbol r' = d_from_symbol r /\ to_symbol r' = d_to_symbol r
  /\ (overlap_bars r' = 0%nat -> spread_min r' = spread r' /\ spread_max r' = spread r').
Proof.
  unfold rollover_spread, bind. cbv zeta.
  destruct (0 <? length _)%nat eqn:Hlen.
  - intros [= <-]. cbn. do 3 (split; [done|]). intros Hz. by rewrite Hz in Hlen.
  - destruct (iloc_last _) as [last_old|]; [|done].
    destruct (iloc_first _) as [first_new|]; [|done].
    by intros [= <-].
Qed.

Lemma rollover_spread_raise (df : list (bar num)) (r : detected) (e : py_error) :
  rollover_spread df r = Raise e -> e = IndexError.
Proof.
  unfold rollover_spread, bind, iloc_last, iloc_first. cbv zeta.
  destruct (0 <? length _)%nat; [done|].
  repeat case_match; congruence.
Qed.

Lemma compute_rollover_spreads_ok (df : list (bar num)) (rs : list detected)
    (rs' : list (rollover num)) :
  compute_rollover_spreads df rs = Ok rs' ->
  Forall2 (fun r r' => rollover_spread df r = Ok r') rs rs'.
Proof.
  revert rs'. induction rs as [|r rs IH]; intros rs'; cbn [compute_rollover_spreads].
  - intros [= <-]. constructor.
  - unfold bind. destruct (rollover_spread df r) as [r'|] eqn:Hr; [|done].
    destruct (compute_rollover_spreads df rs) as [rest'|]; [|done].
    intros [= <-]. constructor; [done|by apply IH].
Qed.

Lemma compute_rollover_spreads_raise (df : list (bar num)) (rs : list detected)
    (e : py_error) :
  compute_rollover_spreads df rs = Raise e ->
  exists r, r ∈ rs /\ rollover_spread df r = Raise e.
Proof.
  induction rs as [|r rs IH]; cbn [compute_rollover_spreads]; [done|].
  unfold bind. destruct (rollover_spread df r) as [r'|e'] eqn:Hr.
  - destruct (compute_rollover_spreads df rs) as [rest'|e'']; [done|].
    intros [= <-]. destruct (IH eq_refl) as (r0 & Hin & Hr0).
    exists r0. split; [by apply list_elem_of_further|done].
  - intros [= <-]. exists r. split; [apply list_elem_of_here|done].
Qed.

End SpreadLoop.

(** X23. When [compute_rollover_spreads] completes, it returns one
    rollover per detected rollover, in order, with the same date and
    contracts, and a rollover without overlapping bars has its least and
    greatest spread equal to its spread.  When it fails, the exception is
    IndexError, raised by the turn of the loop for one of the rollovers. *)
Theorem X23_spreads_keep_the_detected_rollovers {num : Type} `{Arith num}
    (df : list (Batch.bar num)) (rs : list Batch.detected) :
  (forall rs' : list (Batch.rollover num),
     Batch.compute_rollover_spreads df rs = Ok rs' ->
     Forall2 (fun r r' =>
                Batch.date r' = Batch.d_date r
                /\ Batch.from_symbol r' = Batch.d_from_symbol r
                /\ Batch.to_symbol r' = Batch.d_to_symbol r
                /\ (Batch.overlap_bars r' = 0%nat ->
                    Batch.spread_min r' = Batch.spread r'
                    /\ Batch.spread_max r' = Batch.spread r')) rs rs')
  /\ (forall e,
        Batch.compute_rollover_spreads (num:=num) df rs = Raise e ->
        e = IndexError
        /\ exists r, r ∈ rs /\ Batch.rollover_spread (num:=num) df r = Raise IndexError).
Proof.
  split.
  - intros rs' Hrs. apply compute_rollover_spreads_ok in Hrs.
    eapply Forall2_impl; [exact Hrs|]. intros r r'. apply rollover_spread_ok.
  - intros e He. apply compute_rollover_spreads_raise in He as (r & Hin & Hr).
    pose proof (rollover_spread_raise df r e Hr) as ->. split; [done|]. by exists r.
Qed.

Lemma X23_witness :
  let late := {| Batch.d_date := Examples.roll_day + 30; Batch.d_from_symbol := "ESM4";
                 Batch.d_to_symbol := "ESU4" |} in
  (exists rs',
     Batch.compute_rollover_spreads Examples.df_int [Examples.detected_int] = Ok rs'
     /\ Forall2 (fun r r' =>
                   Batch.date r' = Batch.d_date r
                   /\ Batch.from_symbol r' = Batch.d_from_symbol r
                   /\ Batch.to_symbol r' = Batch.d_to_symbol r
                   /\ (Batch.overlap_bars r' = 0%nat ->
                       Batch.spread_min r' = Batch.spread r'
                       /\ Batch.spread_max r' = Batch.spread r'))
                [Examples.detected_int] rs')
  /\ Batch.compute_rollover_spreads Examples.df_int [Examples.detected_int; late]
     = Raise IndexError
  /\ IndexError = IndexError
  /\ exists r, r ∈ [Examples.detected_int; late]
               /\ Batch.rollover_spread Examples.df_int r = Raise IndexError.
Proof.
  intros late. split.
  - eexists. split; [vm_compute; reflexivity|].
    apply (proj1 (X23_spreads_keep_the_detected_rollovers Examples.df_int
                    [Examples.detected_int])).
    vm_compute. reflexivity.
  - assert (Batch.compute_rollover_spreads Examples.df_int [Examples.detected_int; late]
            = Raise IndexError) as Hbad by (vm_compute; reflexivity).
    split; [exact Hbad|].
    exact (proj2 (X23_spreads_keep_the_detected_rollovers Examples.df_int
                    [Examples.detected_int; late]) _ Hbad).
Defined.

Section Continuous.
Context {num : Type} `{Arith num}.
Import Batch.

Lemma elem_of_ts_sort_by_ts (t : Z) (l : list (bar num)) :
  t ∈ map ts_event (sort_by_ts l) <-> t ∈ map ts_event l.
Proof.
  change (map ?f ?l) with (f <$> l). rewrite !list_elem_of_fmap.
  split; intros (b & -> & Hb); exists b; (split; [done|]); by apply elem_of_sort_by_ts.
Qed.

Lemma insert_by_ts_sorted (b : bar num) (l : list (bar num)) :
  StronglySorted Z.lt (map ts_event l) ->
  ts_event b ∉ map ts_event l ->
  StronglySorted Z.lt (map ts_event (insert_by_ts b l)).
Proof.
  induction l as [|y l IH]; cbn [insert_by_ts map].
  - intros _ _. repeat constructor.
  - intros [Hall Hs]%StronglySorted_cons Hnot.
    apply not_elem_of_cons in Hnot as [Hne Hnot].
    destruct (Z.ltb_spec (ts_event y) (ts_event b)) as [Hlt|Hge]; cbn [map].
    + constructor; [by apply IH|].
      apply Forall_forall. intros t Ht.
      change (map ?f ?l) with (f <$> l) in Ht.
      apply list_elem_of_fmap in Ht as (x & -> & [->|Hx]%elem_of_insert_by_ts); [done|].
      apply (proj1 (Forall_forall _ _) Hall).
      change (map ?f ?l) with (f <$> l). apply list_elem_of_fmap. by exists x.
    + constructor; [by constructor|].
      constructor; [lia|]. eapply Forall_impl; [exact Hall|]. cbn. lia.
Qed.

Lemma sort_by_ts_sorted (l : list (bar num)) :
  NoDup (map ts_event l) -> StronglySorted Z.lt (map ts_event (sort_by_ts l)).
Proof.
  unfold sort_by_ts. induction l as [|b l IH]; cbn [foldr map].
  - intros _. constructor.
  - intros [Hnot Hnd]%NoDup_cons. apply insert_by_ts_sorted; [by apply IH|].
    by rewrite (elem_of_ts_sort_by_ts (ts_event b) l).
Qed.

Lemma back_adjust_ts (rs : list (rollover num)) (cont : list (bar num)) :
  map ts_event (back_adjust rs cont) = map ts_event cont.
Proof.
  rewrite back_adjust_map, map_map. apply map_ext. intros b.
  generalize (reverse rs). intros l. revert b.
  induction l as [|r l IH]; intros b; cbn [foldl]; [done|].
  by rewrite IH, subtract_spread_ts.
Qed.

(** The series holds one bar per timestamp, in the order of time. *)
Lemma build_continuous_series_sorted df rs daily_primary out :
  build_continuous_series df rs daily_primary = Ok out ->
  StronglySorted Z.lt (map ts_event out).
Proof.
  unfold build_continuous_series, bind.
  destruct (match rs with [] => _ | _ => _ end) as [first|]; [|done].
  destruct (ts_min df) as [lo|]; [|done]. destruct (ts_max df) as [hi|]; [|done].
  intros [= <-]. rewrite back_adjust_ts. apply sort_by_ts_sorted, NoDup_dedup_ts.
Qed.

Lemma filter_all_false {A : Type} (f : A -> bool) (l : list A) :
  (forall x, In x l -> f x = false) -> List.filter f l = [].
Proof.
  induction l as [|x l IH]; [done|]. intros Hf. cbn [List.filter].
  rewrite (Hf x) by (by left). apply IH. intros y Hy. apply Hf. by right.
Qed.

Lemma lowered_by_nil (b b' : bar num) : lowered_by [] b b' -> b' = b.
Proof.
  destruct b, b'. unfold lowered_by. cbn. intros (-> & -> & -> & -> & -> & -> & ->). done.
Qed.

(** A bar that no rollover follows is a bar of the data frame as it is. *)
Lemma build_continuous_series_recent df rs daily_primary out b' :
  build_continuous_series df rs daily_primary = Ok out ->
  b' ∈ out ->
  (forall r, r ∈ rs -> (find_rollover_minute r <= ts_event b')%Z) ->
  b' ∈ df.
Proof.
  intros Hout Hb' Hlast.
  destruct (build_continuous_series_rows df rs daily_primary out b' Hout Hb')
    as (b & Hb & Hlow).
  assert (spreads_after rs (ts_event b) = []) as Hnone.
  { destruct Hlow as (Hts & _). rewrite <- Hts. unfold spreads_after.
    rewrite filter_all_false; [done|]. intros r Hr.
    apply list_elem_of_In in Hr. apply (proj1 (elem_of_reverse r rs)) in Hr.
    specialize (Hlast r Hr). lia. }
  rewrite Hnone in Hlow. by rewrite (lowered_by_nil b b' Hlow).
Qed.

(** The periods start at the lower bound or at a switch. *)
Lemma make_periods_start (rs : list (rollover num)) (start : Z) (sym : string)
    (last_end : Z) (p : period) :
  p ∈ make_periods rs start sym last_end ->
  p_start p = start \/ p_start p ∈ map find_rollover_minute rs.
Proof.
  revert start sym. induction rs as [|r rs IH]; intros start sym; cbn [make_periods map].
  - intros ->%list_elem_of_singleton. by left.
  - intros [->|Hp]%elem_of_cons; [by left|]. right.
    destruct (IH _ _ Hp) as [->|Hin]; [apply list_elem_of_here|].
    by apply list_elem_of_further.
Qed.

Lemma active_contract_before (rs : list (rollover num)) (sym : string) (ts : Z) :
  Forall (fun s => (ts < s)%Z) (map find_rollover_minute rs) ->
  active_contract rs sym ts = sym.
Proof.
  unfold active_contract. revert sym.
  induction rs as [|r rs IH]; intros sym; cbn [map foldl]; [done|].
  intros [Hlt Hall]%Forall_cons.
  destruct (Z.leb_spec (find_rollover_minute r) ts); [lia|]. by apply IH.
Qed.

(** With the switches in time order, the period a bar lies in belongs to
    the contract in force at its timestamp. *)
Lemma in_period_active (rs : list (rollover num)) (start : Z) (sym : string)
    (last_end : Z) (p : period) (b : bar num) :
  StronglySorted Z.le (map find_rollover_minute rs) ->
  p ∈ make_periods rs start sym last_end ->
  in_period p b = true ->
  symbol b = active_contract rs sym (ts_event b).
Proof.
  revert start sym p. induction rs as [|r rs IH]; intros start sym p;
    cbn [make_periods map].
  - intros _ ->%list_elem_of_singleton. unfold in_period. cbn.
    rewrite bool_decide_eq_true. by intros (_ & _ & ->).
  - intros [Hall Hs]%StronglySorted_cons [->|Hp]%elem_of_cons Hin.
    + unfold in_period in Hin. cbn in Hin. apply bool_decide_eq_true in Hin as (_ & Hlt & ->).
      symmetry. apply (active_contract_before (r :: rs)). cbn [map]. constructor; [done|].
      eapply Forall_impl; [exact Hall|]. cbn. lia.
    + rewrite (IH _ _ _ Hs Hp Hin). unfold active_contract. cbn [foldl].
      assert (find_rollover_minute r <= ts_event b)%Z as Hle.
      { unfold in_period in Hin. apply bool_decide_eq_true in Hin as (Hstart & _).
        destruct (make_periods_start _ _ _ _ _ Hp) as [Heq|Hmem]; [lia|].
        pose proof (proj1 (Forall_forall _ _) Hall _ Hmem). lia. }
      by destruct (Z.leb_spec (find_rollover_minute r) (ts_event b)); [|lia].
Qed.

Lemma mask_period (periods : list period) (b : bar num) :
  mask periods b = true -> exists p, p ∈ periods /\ in_period p b = true.
Proof.
  unfold mask. rewrite existsb_exists. intros (p & Hin & Hp). exists p.
  by rewrite list_elem_of_In.
Qed.

Lemma foldl_subtract_symbol (l : list (rollover num)) (b : bar num) :
  symbol (foldl (fun b r => subtract_spread (find_rollover_minute r) (spread r) b) b l)
  = symbol b.
Proof.
  revert b. induction l as [|r l IH]; intros b; cbn [foldl]; [done|].
  rewrite IH. unfold subtract_spread. by destruct (_ <? _)%Z.
Qed.

Lemma foldl_subtract_ts (l : list (rollover num)) (b : bar num) :
  ts_event (foldl (fun b r => subtract_spread (find_rollover_minute r) (spread r) b) b l)
  = ts_event b.
Proof.
  revert b. induction l as [|r l IH]; intros b; cbn [foldl]; [done|].
  by rewrite IH, subtract_spread_ts.
Qed.

(** Every bar of the series belongs to the contract in force at its
    timestamp. *)
Lemma build_continuous_series_active df rs daily_primary out first b' :
  build_continuous_series df rs daily_primary = Ok out ->
  StronglySorted Z.le (map find_rollover_minute rs) ->
  head (map from_symbol rs ++ map snd daily_primary) = Some first ->
  b' ∈ out ->
  symbol b' = active_contract rs first (ts_event b').
Proof.
  unfold build_continuous_series, bind. intros Hout Hs Hfirst Hb'.
  assert ((match rs with
           | r :: _ => Ok (from_symbol r)
           | [] => match daily_primary with
                   | (_, primary) :: _ => Ok primary
                   | [] => Raise IndexError
                   end
           end) = Ok first) as Hf.
  { destruct rs as [|r rs']; [|by injection Hfirst as <-].
    destruct daily_primary as [|[d p] dp]; [done|]. by injection Hfirst as <-. }
  rewrite Hf in Hout.
  destruct (ts_min df) as [lo|]; [|done]. destruct (ts_max df) as [hi|]; [|done].
  injection Hout as <-. rewrite back_adjust_map in Hb'.
  change (map ?f ?l) with (f <$> l) in Hb'.
  apply list_elem_of_fmap in Hb' as (b & -> & Hb).
  rewrite foldl_subtract_symbol, foldl_subtract_ts.
  apply elem_of_sort_by_ts, elem_of_drop_duplicates_last in Hb.
  apply list_elem_of_filter in Hb as [Hmask _].
  apply mask_period in Hmask as (p & Hp & Hin).
  exact (in_period_active _ _ _ _ _ _ Hs Hp Hin).
Qed.

End Continuous.

(** X12. The continuous series of the in-memory builder holds at most
    one bar per timestamp, in increasing order of time. *)
Theorem X12_continuous_series_one_bar_per_timestamp {num : Type} `{Arith num}
    (df : list (Batch.bar num)) (rs : list (Batch.rollover num))
    (daily_primary : list (Z * string)) (out : list (Batch.bar num)) :
  Batch.build_continuous_series df rs daily_primary = Ok out ->
  StronglySorted Z.lt (map Batch.ts_event out).
Proof. apply build_continuous_series_sorted. Qed.

Lemma X12_witness :
  Batch.build_continuous_series Examples.df_int Examples.batch_rollovers_int
    Examples.daily_primary_int = Ok Examples.continuous_int
  /\ StronglySorted Z.lt (map Batch.ts_event Examples.continuous_int).
Proof.
  assert (Batch.build_continuous_series Examples.df_int Examples.batch_rollovers_int
            Examples.daily_primary_int = Ok Examples.continuous_int) as Hout
    by (vm_compute; reflexivity).
  split; [exact Hout|].
  exact (X12_continuous_series_one_bar_per_timestamp _ _ _ _ Hout).
Defined.

(** X13. A bar of the continuous series whose timestamp is not before any
    rollover is a bar of the data frame, unchanged. *)
Theorem X13_bars_after_the_last_rollover_unchanged {num : Type} `{Arith num}
    (df : list (Batch.bar num)) (rs : list (Batch.rollover num))
    (daily_primary : list (Z * string)) (out : list (Batch.bar num))
    (b' : Batch.bar num) :
  Batch.build_continuous_series df rs daily_primary = Ok out ->
  b' ∈ out ->
  (forall r, r ∈ rs -> (Batch.find_rollover_minute r <= Batch.ts_event b')%Z) ->
  b' ∈ df.
Proof. apply build_continuous_series_recent. Qed.

Lemma X13_witness :
  let b' := Examples.bar_int (Examples.roll_ns + 60000000000)
                             5053 5055 5052 5054 12 "ESM4" in
  Batch.build_continuous_series Examples.df_int Examples.batch_rollovers_int
    Examples.daily_primary_int = Ok Examples.continuous_int
  /\ b' ∈ Examples.continuous_int
  /\ (forall r, r ∈ Examples.batch_rollovers_int ->
        (Batch.find_rollover_minute r <= Batch.ts_event b')%Z)
  /\ b' ∈ Examples.df_int.
Proof.
  intros b'.
  assert (Batch.build_continuous_series Examples.df_int Examples.batch_rollovers_int
            Examples.daily_primary_int = Ok Examples.continuous_int) as Hout
    by (vm_compute; reflexivity).
  assert (b' ∈ Examples.continuous_int) as Hb'
    by (do 2 apply list_elem_of_further; apply list_elem_of_here).
  assert (forall r, r ∈ Examples.batch_rollovers_int ->
            (Batch.find_rollover_minute r <= Batch.ts_event b')%Z) as Hlast.
  { intros r ->%list_elem_of_singleton. vm_compute. discriminate. }
  do 3 (split; [assumption|]).
  exact (X13_bars_after_the_last_rollover_unchanged _ _ _ _ b' Hout Hb' Hlast).
Defined.

(** X14. With the rollovers in time order, every bar of the continuous
    series belongs to the contract in force at its timestamp: the first
    contract before the first rollover, and after a rollover the contract it
    switches to. *)
Theorem X14_continuous_series_follows_the_active_contract {num : Type} `{Arith num}
    (df : list (Batch.bar num)) (rs : list (Batch.rollover num))
    (daily_primary : list (Z * string)) (out : list (Batch.bar num))
    (first : string) (b' : Batch.bar num) :
  Batch.build_continuous_series df rs daily_primary = Ok out ->
  StronglySorted Z.le (map Batch.find_rollover_minute rs) ->
  head (map Batch.from_symbol rs ++ map snd daily_primary) = Some first ->
  b' ∈ out ->
  Batch.symbol b' = Batch.active_contract rs first (Batch.ts_event b').
Proof. apply build_continuous_series_active. Qed.

Lemma X14_witness :
  let b' := Examples.bar_int (Examples.roll_ns + 60000000000)
                             5053 5055 5052 5054 12 "ESM4" in
  Batch.build_continuous_series Examples.df_int Examples.batch_rollovers_int
    Examples.daily_primary_int = Ok Examples.continuous_int
  /\ StronglySorted Z.le (map Batch.find_rollover_minute Examples.batch_rollovers_int)
  /\ head (map Batch.from_symbol Examples.batch_rollovers_int
           ++ map snd Examples.daily_primary_int) = Some "ESH4"
  /\ b' ∈ Examples.continuous_int
  /\ Batch.active_contract Examples.batch_rollovers_int "ESH4" (Batch.ts_event b') = "ESM4"
  /\ Batch.symbol b'
     = Batch.active_contract Examples.batch_rollovers_int "ESH4" (Batch.ts_event b').
Proof.
  intros b'.
  assert (Batch.build_continuous_series Examples.df_int Examples.batch_rollovers_int
            Examples.daily_primary_int = Ok Examples.continuous_int) as Hout
    by (vm_compute; reflexivity).
  assert (StronglySorted Z.le
            (map Batch.find_rollover_minute Examples.batch_rollovers_int)) as Hs
    by (repeat constructor).
  assert (head (map Batch.from_symbol Examples.batch_rollovers_int
                ++ map snd Examples.daily_primary_int) = Some "ESH4") as Hfirst
    by reflexivity.
  assert (b' ∈ Examples.continuous_int) as Hb'
    by (do 2 apply list_elem_of_further; apply list_elem_of_here).
  do 4 (split; [assumption|]). split; [vm_compute; reflexivity|].
  exact (X14_continuous_series_follows_the_active_contract _ _ _ _ _ b'
           Hout Hs Hfirst Hb').
Defined.

(** ** Across a rollover *)

Section ExactSteps.
Context {num : Type} `{ExactArith num}.

Lemma fneg_involutive (x : num) : fneg (fneg x) = x.
Proof.
  apply (fadd_cancel_r _ _ (fneg x)). by rewrite fadd_neg_l, fadd_neg_r.
Qed.

Lemma fsub_shift_step (a b adj s : num) :
  fsub (fadd b (fadd adj s)) (fadd a adj) = fadd (fsub b a) s.
Proof.
  rewrite (fadd_assoc b adj s), (fadd_comm (fadd b adj) s).
  rewrite fsub_def, <- (fadd_assoc s (fadd b adj)), <- fsub_def, fsub_shift.
  apply fadd_comm.
Qed.

Lemma fsub_fsub_r (a b s : num) : fsub b (fsub a s) = fadd (fsub b a) s.
Proof.
  rewrite !fsub_def, fneg_fadd, fneg_involutive. apply fadd_assoc.
Qed.

Lemma fsub_swap (z s y : num) : fsub (fsub z s) y = fsub (fsub z y) s.
Proof.
  rewrite !fsub_def, <- !fadd_assoc. by rewrite (fadd_comm (fneg s) (fneg y)).
Qed.

Lemma foldl_fsub_swap (z s : num) (l : list num) :
  foldl fsub (fsub z s) l = fsub (foldl fsub z l) s.
Proof.
  revert z. induction l as [|y l IH]; intros z; cbn [foldl]; [done|].
  by rewrite fsub_swap, IH.
Qed.

(** One more spread subtracted, wherever it stands in the list. *)
Lemma foldl_fsub_insert (x s : num) (l1 l2 : list num) :
  foldl fsub x (l1 ++ s :: l2) = fsub (foldl fsub x (l1 ++ l2)) s.
Proof. rewrite !foldl_app. cbn [foldl]. apply foldl_fsub_swap. Qed.

Import Streaming.

(** Crossing the boundary of rollover [i] raises the adjustment by its
    spread. *)
Lemma intervals_step (rs : list (rollover num)) (i : nat)
    (r : rollover num) (b b' : string) (adj adj' : num) :
  rs !! i = Some r ->
  build_adjustment_intervals rs !! i = Some (b, adj) ->
  build_adjustment_intervals rs !! S i = Some (b', adj') ->
  b' = boundary r /\ adj' = fadd adj (spread r).
Proof.
  intros Hr Hi HSi.
  assert (rs <> []) as Hne by (intros ->; done).
  rewrite (intervals_later rs i r Hr) in HSi. injection HSi as <- <-.
  split; [done|].
  rewrite (intervals_adjustment rs i b adj Hne Hi).
  assert (map spread rs !! i = Some (spread r)) as Hsp.
  { change (map spread rs) with (spread <$> rs). by rewrite list_lookup_fmap, Hr. }
  rewrite (drop_S _ _ _ Hsp), spread_sum_cons, fneg_fadd.
  by rewrite <- fadd_assoc, fadd_neg_l, fadd_zero_r.
Qed.

End ExactSteps.

Section BatchSplit.
Context {num : Type} `{Arith num}.
Import Batch.

(** The spreads subtracted before and after a rollover that separates
    two timestamps. *)
Lemma spreads_after_split (pre post : list (rollover num)) (r : rollover num) (ta tb : Z) :
  (ta < find_rollover_minute r <= tb)%Z ->
  (forall r', r' ∈ pre ++ post ->
     (ta <? find_rollover_minute r')%Z = (tb <? find_rollover_minute r')%Z) ->
  exists l1 l2,
    spreads_after (pre ++ r :: post) ta = l1 ++ spread r :: l2
    /\ spreads_after (pre ++ r :: post) tb = l1 ++ l2.
Proof.
  intros [Hlt Hle] Hsame. unfold spreads_after.
  rewrite reverse_app, reverse_cons, <- app_assoc. cbn [app].
  rewrite !List.filter_app. cbn [List.filter].
  destruct (Z.ltb_spec ta (find_rollover_minute r)); [|lia].
  destruct (Z.ltb_spec tb (find_rollover_minute r)); [lia|].
  rewrite !map_app. cbn [map].
  assert (forall l, (forall r', r' ∈ l -> r' ∈ pre ++ post) ->
            List.filter (fun r' => (ta <? find_rollover_minute r')%Z) l
            = List.filter (fun r' => (tb <? find_rollover_minute r')%Z) l) as Hf.
  { intros l Hl. apply List.filter_ext_in. intros r' Hr'.
    apply Hsame, Hl. by apply list_elem_of_In. }
  rewrite (Hf (reverse post)), (Hf (reverse pre)).
  - by eexists _, _.
  - intros r' Hr'. apply (proj1 (elem_of_reverse r' pre)) in Hr'.
    apply elem_of_app. by left.
  - intros r' Hr'. apply (proj1 (elem_of_reverse r' post)) in Hr'.
    apply elem_of_app. by right.
Qed.

End BatchSplit.

Section Gaps.
Context {num : Type} `{ExactArith num}.

(** X15. Streaming builder, exact arithmetic, log and source in time
    order.  For two rows of the output in consecutive intervals, with the
    rollover [r] between them, the later row is shifted by the adjustment of
    the earlier one plus the spread of [r]: the difference of their adjusted
    closes is the difference of their raw closes plus the spread of [r]. *)
Theorem X15_streaming_difference_across_a_rollover
    (header : list string) (rows : list (list string)) (cols : Streaming.columns)
    (primary : gmap string string) (rs : list (Streaming.rollover num))
    (start_date end_date : option string) (ra rb : Streaming.out_row num)
    (r : Streaming.rollover num) :
  Streaming.find_columns header = Ok cols ->
  Streaming.time_ordered rs ->
  Streaming.rows_time_ordered cols rows ->
  ra ∈ (Streaming.pass2_filter_adjust_write (header :: rows) primary
          (Streaming.build_adjustment_intervals rs) start_date end_date).1 ->
  rb ∈ (Streaming.pass2_filter_adjust_write (header :: rows) primary
          (Streaming.build_adjustment_intervals rs) start_date end_date).1 ->
  rs !! Streaming.interval_index (Streaming.build_adjustment_intervals rs)
          (Streaming.out_ts ra) = Some r ->
  Streaming.interval_index (Streaming.build_adjustment_intervals rs) (Streaming.out_ts rb)
  = S (Streaming.interval_index (Streaming.build_adjustment_intervals rs)
         (Streaming.out_ts ra)) ->
  exists adj rowa rowb oa ha la ca ob hb lb cb,
    rowa ∈ rows /\ rowb ∈ rows
    /\ Streaming.shifted_by cols adj rowa ra
    /\ Streaming.shifted_by cols (fadd adj (Streaming.spread r)) rowb rb
    /\ Streaming.raw_prices cols rowa = Ok (oa, ha, la, ca)
    /\ Streaming.raw_prices cols rowb = Ok (ob, hb, lb, cb)
    /\ fsub (Streaming.out_close rb) (Streaming.out_close ra)
       = fadd (fsub cb ca) (Streaming.spread r).
Proof.
  intros Hcols Hrs Hrows Ha Hb Hr Hnext.
  destruct (pass2_sorted_output _ _ _ _ _ _ _ _ Hcols Hrs Hrows Ha)
    as (rowa & ba & adja & Hina & Hlka & Hsha & _).
  destruct (pass2_sorted_output _ _ _ _ _ _ _ _ Hcols Hrs Hrows Hb)
    as (rowb & bb & adjb & Hinb & Hlkb & Hshb & _).
  rewrite Hnext in Hlkb.
  destruct (intervals_step rs _ r ba bb adja adjb Hr Hlka Hlkb) as [_ ->].
  pose proof Hsha as (oa & ha & la & ca & Hra & _ & _ & _ & Hca & _).
  pose proof Hshb as (ob & hb & lb & cb & Hrb & _ & _ & _ & Hcb & _).
  exists adja, rowa, rowb, oa, ha, la, ca, ob, hb, lb, cb.
  repeat split; try done. rewrite Hca, Hcb. apply fsub_shift_step.
Qed.

(** X16. In-memory builder, exact arithmetic.  For two bars of the
    continuous series with the rollover [r] between them and every other
    rollover on the same side of both, the difference of their adjusted
    closes is the difference of the closes of the bars of the data frame
    they stem from plus the spread of [r]. *)
Theorem X16_batch_difference_across_a_rollover
    (df : list (Batch.bar num)) (pre post : list (Batch.rollover num))
    (r : Batch.rollover num) (daily_primary : list (Z * string))
    (out : list (Batch.bar num)) (a' b' : Batch.bar num) :
  Batch.build_continuous_series df (pre ++ r :: post) daily_primary = Ok out ->
  a' ∈ out -> b' ∈ out ->
  (Batch.ts_event a' < Batch.find_rollover_minute r <= Batch.ts_event b')%Z ->
  (forall r', r' ∈ pre ++ post ->
     (Batch.ts_event a' <? Batch.find_rollover_minute r')%Z
     = (Batch.ts_event b' <? Batch.find_rollover_minute r')%Z) ->
  exists a b,
    a ∈ df /\ b ∈ df
    /\ Batch.ts_event a = Batch.ts_event a' /\ Batch.ts_event b = Batch.ts_event b'
    /\ Batch.symbol a = Batch.symbol a' /\ Batch.symbol b = Batch.symbol b'
    /\ fsub (Batch.close b') (Batch.close a')
       = fadd (fsub (Batch.close b) (Batch.close a)) (Batch.spread r).
Proof.
  intros Hout Ha' Hb' Hbetween Hsame.
  destruct (build_continuous_series_rows _ _ _ _ a' Hout Ha') as (a & Ha & Hla).
  destruct (build_continuous_series_rows _ _ _ _ b' Hout Hb') as (b & Hb & Hlb).
  destruct Hla as (Htsa & _ & Hsa & _ & _ & _ & Hca).
  destruct Hlb as (Htsb & _ & Hsb & _ & _ & _ & Hcb).
  rewrite <- Htsa in Hca. rewrite <- Htsb in Hcb.
  destruct (spreads_after_split pre post r _ _ Hbetween Hsame) as (l1 & l2 & Hl1 & Hl2).
  rewrite Hl1 in Hca. rewrite Hl2 in Hcb. rewrite foldl_fsub_insert in Hca.
  exists a, b. repeat split; try done.
  rewrite Hca, Hcb, fsub_fsub_r. f_equal.
  rewrite (foldl_fsub_shift (Batch.close b)), (foldl_fsub_shift (Batch.close a)).
  apply fsub_shift.
Qed.

End Gaps.

Section TwoBuilders.
Context {num : Type} `{ExactArith num}.

(** Subtracting the spreads of a list, the last one first, adds minus
    their sum. *)
Lemma foldl_fsub_reverse (x : num) (l : list num) :
  foldl fsub x (reverse l) = fadd x (fneg (Streaming.spread_sum l)).
Proof.
  induction l as [|s l IH].
  - cbn. by rewrite fneg_zero, fadd_zero_r.
  - rewrite reverse_cons, foldl_app. cbn [foldl]. rewrite IH, spread_sum_cons.
    by rewrite fsub_def, fneg_fadd, fadd_assoc.
Qed.

(** The rollovers that follow a timestamp, read off two lists that agree
    on the side of the timestamp. *)
Lemma filter_after_both (srs : list (Streaming.rollover num))
    (brs : list (Batch.rollover num)) (ts : string) (t : Z) :
  Forall2 (fun sr br =>
             Streaming.spread sr = Batch.spread br
             /\ str_ge ts (Streaming.boundary sr) = (Batch.find_rollover_minute br <=? t)%Z)
          srs brs ->
  map Batch.spread (List.filter (fun br => (t <? Batch.find_rollover_minute br)%Z) brs)
  = map Streaming.spread
        (List.filter (fun sr => negb (str_ge ts (Streaming.boundary sr))) srs).
Proof.
  induction 1 as [|sr br srs brs [Hsp Hside] _ IH]; [done|]. cbn [List.filter].
  rewrite Hside.
  destruct (Z.leb_spec (Batch.find_rollover_minute br) t),
           (Z.ltb_spec t (Batch.find_rollover_minute br)); try lia; cbn [negb map].
  - exact IH.
  - by rewrite IH, Hsp.
Qed.

(** X17. In exact arithmetic, when the rollovers of the streaming builder
    and those of the in-memory builder have the same spreads and lie on the
    same side of an instant, subtracting from a price the spreads of the
    rollovers after the instant, as the in-memory builder does, gives the
    price plus the adjustment of the interval the streaming builder chooses
    for the instant. *)
Theorem X17_both_builders_shift_alike
    (srs : list (Streaming.rollover num)) (brs : list (Batch.rollover num))
    (ts : string) (t : Z) (b : string) (adj x : num) :
  Streaming.time_ordered srs ->
  Forall2 (fun sr br =>
             Streaming.spread sr = Batch.spread br
             /\ str_ge ts (Streaming.boundary sr) = (Batch.find_rollover_minute br <=? t)%Z)
          srs brs ->
  Streaming.build_adjustment_intervals srs
    !! Streaming.interval_index (Streaming.build_adjustment_intervals srs) ts
  = Some (b, adj) ->
  foldl fsub x (Batch.spreads_after brs t) = fadd x adj.
Proof.
  intros Hsorted Hboth Hlk.
  destruct srs as [|sr srs'] eqn:Esrs.
  { apply Forall2_nil_inv_l in Hboth as ->. cbn in Hlk. injection Hlk as _ <-.
    cbn. by rewrite fadd_zero_r. }
  rewrite <- Esrs in *. assert (srs <> []) as Hne by (by subst).
  rewrite (engine_adjustment srs ts b adj Hne Hlk).
  unfold Batch.spreads_after.
  assert (forall (f : Batch.rollover num -> bool) l,
            List.filter f (reverse l) = reverse (List.filter f l)) as Hfr.
  { intros f l. induction l as [|y l IH]; [done|].
    rewrite reverse_cons, List.filter_app, IH. cbn [List.filter].
    destruct (f y); [by rewrite reverse_cons | by rewrite app_nil_r]. }
  rewrite Hfr.
  change (map ?f ?l) with (f <$> l). rewrite fmap_reverse.
  change (?f <$> ?l) with (map f l).
  rewrite foldl_fsub_reverse. do 3 f_equal.
  rewrite (filter_after_both srs brs ts t Hboth).
  rewrite (filter_after_drop Streaming.boundary ts srs Hsorted).
  change (map ?f ?l) with (f <$> l). by rewrite fmap_drop.
Qed.

End TwoBuilders.

Lemma X15_witness :
  let primary : gmap string string :=
    {[ "2024-03-14T23" := "ESH4"; "2024-03-15T00" := "ESH4" ]} in
  let ra := {| Streaming.out_ts := "2024-03-14T23:59:59.000000000Z";
               Streaming.out_open := 4890%Z; Streaming.out_high := 4892%Z;
               Streaming.out_low := 4889%Z; Streaming.out_close := 4891%Z;
               Streaming.out_volume := "10"; Streaming.out_symbol := "ES_continuous";
               Streaming.out_contract := "ESH4" |} in
  let rb := {| Streaming.out_ts := "2024-03-15T00:00:01.000000000Z";
               Streaming.out_open := 4941%Z; Streaming.out_high := 4944%Z;
               Streaming.out_low := 4941%Z; Streaming.out_close := 4943%Z;
               Streaming.out_volume := "7"; Streaming.out_symbol := "ES_continuous";
               Streaming.out_contract := "ESH4" |} in
  let r := {| Streaming.date := "2024-03-15"; Streaming.from_symbol := Some "ESH4";
              Streaming.to_symbol := Some "ESM4"; Streaming.spread := 50%Z |} in
  let out := (Streaming.pass2_filter_adjust_write
                (Examples.header :: tail Examples.file_straddle) primary
                (Streaming.build_adjustment_intervals Examples.rollovers_int)
                None None).1 in
  Streaming.find_columns Examples.header = Ok Examples.cols
  /\ Streaming.time_ordered Examples.rollovers_int
  /\ Streaming.rows_time_ordered Examples.cols (tail Examples.file_straddle)
  /\ ra ∈ out /\ rb ∈ out
  /\ Examples.rollovers_int
       !! Streaming.interval_index
            (Streaming.build_adjustment_intervals Examples.rollovers_int)
            (Streaming.out_ts ra) = Some r
  /\ Streaming.interval_index
       (Streaming.build_adjustment_intervals Examples.rollovers_int) (Streaming.out_ts rb)
     = S (Streaming.interval_index
            (Streaming.build_adjustment_intervals Examples.rollovers_int)
            (Streaming.out_ts ra))
  /\ exists adj rowa rowb oa ha la ca ob hb lb cb,
       rowa ∈ tail Examples.file_straddle /\ rowb ∈ tail Examples.file_straddle
       /\ Streaming.shifted_by Examples.cols adj rowa ra
       /\ Streaming.shifted_by Examples.cols (fadd adj (Streaming.spread r)) rowb rb
       /\ Streaming.raw_prices Examples.cols rowa = Ok (oa, ha, la, ca)
       /\ Streaming.raw_prices Examples.cols rowb = Ok (ob, hb, lb, cb)
       /\ fsub (Streaming.out_close rb) (Streaming.out_close ra)
          = fadd (fsub cb ca) (Streaming.spread r).
Proof.
  intros primary ra rb r out.
  assert (Streaming.find_columns Examples.header = Ok Examples.cols) as Hcols
    by reflexivity.
  assert (Streaming.time_ordered Examples.rollovers_int) as Hrs
    by (unfold Streaming.time_ordered; repeat constructor).
  assert (Streaming.rows_time_ordered Examples.cols (tail Examples.file_straddle)) as Hrows
    by (unfold Streaming.rows_time_ordered; repeat constructor).
  assert (ra ∈ out) as Ha by (vm_compute; apply list_elem_of_here).
  assert (rb ∈ out) as Hb
    by (vm_compute; apply list_elem_of_further, list_elem_of_here).
  assert (Examples.rollovers_int
            !! Streaming.interval_index
                 (Streaming.build_adjustment_intervals Examples.rollovers_int)
                 (Streaming.out_ts ra) = Some r) as Hr by reflexivity.
  assert (Streaming.interval_index
            (Streaming.build_adjustment_intervals Examples.rollovers_int)
            (Streaming.out_ts rb)
          = S (Streaming.interval_index
                 (Streaming.build_adjustment_intervals Examples.rollovers_int)
                 (Streaming.out_ts ra))) as Hnext by reflexivity.
  do 7 (split; [assumption|]).
  exact (X15_streaming_difference_across_a_rollover _ _ _ _ _ _ _ ra rb r
           Hcols Hrs Hrows Ha Hb Hr Hnext).
Defined.

Lemma X16_witness :
  let r := {| Batch.date := Examples.roll_day; Batch.from_symbol := "ESH4";
              Batch.to_symbol := "ESM4"; Batch.spread := 50%Z; Batch.overlap_bars := 2;
              Batch.spread_min := 50%Z; Batch.spread_max := 50%Z |} in
  let a' := Examples.bar_int (Examples.roll_ns - 60000000000)
                             4951 4954 4951 4953 7 "ESH4" in
  let b' := Examples.bar_int (Examples.roll_ns + 60000000000)
                             5053 5055 5052 5054 12 "ESM4" in
  Batch.build_continuous_series Examples.df_int ([] ++ r :: []) Examples.daily_primary_int
  = Ok Examples.continuous_int
  /\ a' ∈ Examples.continuous_int /\ b' ∈ Examples.continuous_int
  /\ (Batch.ts_event a' < Batch.find_rollover_minute r <= Batch.ts_event b')%Z
  /\ exists a b,
       a ∈ Examples.df_int /\ b ∈ Examples.df_int
       /\ Batch.ts_event a = Batch.ts_event a' /\ Batch.ts_event b = Batch.ts_event b'
       /\ Batch.symbol a = Batch.symbol a' /\ Batch.symbol b = Batch.symbol b'
       /\ fsub (Batch.close b') (Batch.close a')
          = fadd (fsub (Batch.close b) (Batch.close a)) (Batch.spread r).
Proof.
  intros r a' b'.
  assert (Batch.build_continuous_series Examples.df_int ([] ++ r :: [])
            Examples.daily_primary_int = Ok Examples.continuous_int) as Hout
    by (vm_compute; reflexivity).
  assert (a' ∈ Examples.continuous_int) as Ha
    by apply list_elem_of_further, list_elem_of_here.
  assert (b' ∈ Examples.continuous_int) as Hb
    by (do 2 apply list_elem_of_further; apply list_elem_of_here).
  assert (Batch.ts_event a' < Batch.find_rollover_minute r <= Batch.ts_event b')%Z
    as Hbetween by (vm_compute; split; [reflexivity | discriminate]).
  do 4 (split; [assumption|]).
  apply (X16_batch_difference_across_a_rollover Examples.df_int [] [] r
           Examples.daily_primary_int Examples.continuous_int a' b' Hout Ha Hb Hbetween).
  intros r' Hr'. destruct (proj1 (elem_of_nil r') Hr').
Defined.

Lemma X17_witness :
  let brs : list (Batch.rollover Z) :=
    [ {| Batch.date := 19797; Batch.from_symbol := "ESH4"; Batch.to_symbol := "ESM4";
         Batch.spread := 50%Z; Batch.overlap_bars := 2;
         Batch.spread_min := 50%Z; Batch.spread_max := 50%Z |};
      {| Batch.date := 19888; Batch.from_symbol := "ESM4"; Batch.to_symbol := "ESU4";
         Batch.spread := 60%Z; Batch.overlap_bars := 2;
         Batch.spread_min := 60%Z; Batch.spread_max := 60%Z |} ] in
  let ts := "2024-03-15T00:00:01.000000000Z" in
  let t := (Examples.roll_ns + 1000000000)%Z in
  Streaming.time_ordered Examples.rollovers_int
  /\ Forall2 (fun sr br =>
                Streaming.spread sr = Batch.spread br
                /\ str_ge ts (Streaming.boundary sr)
                   = (Batch.find_rollover_minute br <=? t)%Z)
             Examples.rollovers_int brs
  /\ Streaming.build_adjustment_intervals Examples.rollovers_int
       !! Streaming.interval_index
            (Streaming.build_adjustment_intervals Examples.rollovers_int) ts
     = Some ("2024-03-15T00:00:00.000000000Z", (-60)%Z)
  /\ Batch.spreads_after brs t = [60%Z]
  /\ foldl fsub 5003%Z (Batch.spreads_after brs t) = fadd 5003%Z (-60)%Z.
Proof.
  intros brs ts t.
  assert (Streaming.time_ordered Examples.rollovers_int) as Hrs
    by (unfold Streaming.time_ordered; repeat constructor).
  assert (Forall2 (fun sr br =>
                     Streaming.spread sr = Batch.spread br
                     /\ str_ge ts (Streaming.boundary sr)
                        = (Batch.find_rollover_minute br <=? t)%Z)
                  Examples.rollovers_int brs) as Hboth
    by (repeat constructor).
  assert (Streaming.build_adjustment_intervals Examples.rollovers_int
            !! Streaming.interval_index
                 (Streaming.build_adjustment_intervals Examples.rollovers_int) ts
          = Some ("2024-03-15T00:00:00.000000000Z", (-60)%Z)) as Hlk by reflexivity.
  do 3 (split; [assumption|]). split; [reflexivity|].
  exact (X17_both_builders_shift_alike Examples.rollovers_int brs ts t _ _ 5003%Z
           Hrs Hboth Hlk).
Defined.

(** ** The auxiliary-series adjuster *)

Section LevelsSort.
Context {num : Type} `{Arith num}.
Import Levels.

Lemma insert_by_ms_perm (r : rollover num) (l : list (rollover num)) :
  insert_by_ms r l ≡ₚ r :: l.
Proof.
  induction l as [|r' l IH]; cbn [insert_by_ms]; [done|].
  destruct (switch_ms r' <? switch_ms r)%Z; [|done].
  rewrite IH. apply Permutation_swap.
Qed.

Lemma sort_by_ms_perm (l : list (rollover num)) : sort_by_ms l ≡ₚ l.
Proof.
  unfold sort_by_ms. induction l as [|r l IH]; cbn [foldr]; [done|].
  by rewrite insert_by_ms_perm, IH.
Qed.

Lemma insert_by_ms_ordered (r : rollover num) (l : list (rollover num)) :
  StronglySorted Z.le (map switch_ms l) ->
  StronglySorted Z.le (map switch_ms (insert_by_ms r l)).
Proof.
  induction l as [|r' l IH]; cbn [insert_by_ms map].
  - intros _. repeat constructor.
  - intros [Hall Hs]%StronglySorted_cons.
    destruct (Z.ltb_spec (switch_ms r') (switch_ms r)) as [Hlt|Hge]; cbn [map].
    + constructor; [by apply IH|].
      assert (Forall (Z.le (switch_ms r')) (map switch_ms (r :: l))) as Hall'
        by (cbn [map]; constructor; [lia|done]).
      change (map ?f ?l) with (f <$> l) in *.
      by rewrite (insert_by_ms_perm r l).
    + constructor; [by constructor|].
      constructor; [done|]. eapply Forall_impl; [exact Hall|]. cbn. lia.
Qed.

Lemma sort_by_ms_ordered (l : list (rollover num)) :
  StronglySorted Z.le (map switch_ms (sort_by_ms l)).
Proof.
  unfold sort_by_ms. induction l as [|r l IH]; cbn [foldr]; [constructor|].
  by apply insert_by_ms_ordered.
Qed.

(** A timestamp that no rollover follows is not adjusted. *)
Lemma compute_adjustment_recent (t : Z) (rs : list (rollover num)) :
  (forall r, r ∈ rs -> (switch_ms r <= t)%Z) ->
  compute_adjustment t rs = fzero.
Proof.
  unfold compute_adjustment. generalize (fzero : num).
  induction rs as [|r rs IH]; intros a Hall; cbn [foldl]; [done|].
  destruct (Z.ltb_spec t (switch_ms r)) as [Hlt|_].
  - specialize (Hall r (list_elem_of_here _ _)). lia.
  - apply IH. intros r' Hr'. apply Hall. by apply list_elem_of_further.
Qed.

(** What the loop over the levels file leaves in the output. *)
Lemma adjust_rows_spec (rollovers : list (rollover num)) (rows : list lt_row)
    (written out : list (lt_out num)) (res : result nat) :
  adjust_rows rollovers rows written = (out, res) ->
  exists new,
    out = written ++ new
    /\ match res with
       | Ok n => n = length out
                 /\ Forall2 (fun row o => adjust_row rollovers row = Ok o) rows new
       | Raise e =>
           exists pre bad post,
             rows = pre ++ bad :: post
             /\ Forall2 (fun row o => adjust_row rollovers row = Ok o) pre new
             /\ adjust_row rollovers bad = Raise e
       end.
Proof.
  revert written. induction rows as [|row rows IH]; intros written; cbn [adjust_rows].
  - intros [= <- <-]. exists []. rewrite app_nil_r. split; [done|]. split; [done|constructor].
  - destruct (adjust_row rollovers row) as [o|e] eqn:Hrow.
    + intros Hloop. destruct (IH _ Hloop) as (new & -> & Hres).
      exists (o :: new). rewrite <- app_assoc in *. split; [done|].
      destruct res as [n|e].
      * destruct Hres as [-> Hall]. split; [done|]. by constructor.
      * destruct Hres as (pre & bad & post & -> & Hall & Hbad).
        exists (row :: pre), bad, post. split; [done|]. split; [by constructor|done].
    + intros [= <- <-]. exists []. rewrite app_nil_r. split; [done|].
      exists [], row, rows. split; [done|]. split; [constructor|done].
Qed.

End LevelsSort.

(** X18. [load_rollovers] returns the rollovers read off the log, one per
    record with the date and the symbols of the record, the parsed spread
    and midnight of the date in milliseconds, rearranged so that the switch
    times do not decrease. *)
Theorem X18_load_rollovers_sorts_the_log {num : Type} `{Arith num}
    (log : list Streaming.log_row) (rs : list (Levels.rollover num)) :
  Levels.load_rollovers log = Ok rs ->
  StronglySorted Z.le (map Levels.switch_ms rs)
  /\ exists read,
       rs ≡ₚ read
       /\ Forall2 (fun row r =>
                     Levels.date r = Streaming.log_date row
                     /\ Levels.midnight_ms (Streaming.log_date row) = Ok (Levels.switch_ms r)
                     /\ to_float (Streaming.log_spread row) = Ok (Levels.spread r)
                     /\ Levels.r_from r = Streaming.log_from_symbol row
                     /\ Levels.r_to r = Streaming.log_to_symbol row) log read.
Proof.
  unfold Levels.load_rollovers, bind.
  destruct (Levels.read_rollovers log) as [read|] eqn:Hread; [|done].
  intros [= <-]. split; [apply sort_by_ms_ordered|].
  exists read. split; [apply sort_by_ms_perm | by apply read_rollovers_ok].
Qed.

Lemma X18_witness :
  let log := [ {| Streaming.log_date := "2024-06-14"; Streaming.log_from_symbol := "ESM4";
                  Streaming.log_to_symbol := "ESU4"; Streaming.log_spread := "60" |};
               {| Streaming.log_date := "2024-03-15"; Streaming.log_from_symbol := "ESH4";
                  Streaming.log_to_symbol := "ESM4"; Streaming.log_spread := "50" |} ] in
  Levels.load_rollovers log = Ok Examples.levels_rollovers_int
  /\ StronglySorted Z.le (map Levels.switch_ms Examples.levels_rollovers_int)
  /\ exists read,
       Examples.levels_rollovers_int ≡ₚ read
       /\ Forall2 (fun row r =>
                     Levels.date r = Streaming.log_date row
                     /\ Levels.midnight_ms (Streaming.log_date row) = Ok (Levels.switch_ms r)
                     /\ to_float (Streaming.log_spread row) = Ok (Levels.spread r)
                     /\ Levels.r_from r = Streaming.log_from_symbol row
                     /\ Levels.r_to r = Streaming.log_to_symbol row) log read.
Proof.
  intros log.
  assert (Levels.load_rollovers log = Ok Examples.levels_rollovers_int) as Hload
    by (vm_compute; reflexivity).
  split; [exact Hload|].
  exact (X18_load_rollovers_sorts_the_log log Examples.levels_rollovers_int Hload).
Defined.

(** X19. A record of the levels file stamped at or after the switch time
    of every rollover gets the adjustment zero: each of its five levels is
    stored as [round(level + 0.0, 2)]. *)
Theorem X19_levels_after_the_last_rollover_only_rounded {num : Type} `{Arith num}
    (rs : list (Levels.rollover num)) (row : Levels.lt_row) (out : Levels.lt_out num)
    (t : Z) :
  Levels.to_int (Levels.unix_timestamp row) = Ok t ->
  (forall r, r ∈ rs -> (Levels.switch_ms r <= t)%Z) ->
  Levels.adjust_row rs row = Ok out ->
  Levels.compute_adjustment t rs = fzero
  /\ Forall2 (fun s v => exists raw, to_float s = Ok raw /\ v = fround2 (fadd raw fzero))
             [Levels.level_1 row; Levels.level_2 row; Levels.level_3 row;
              Levels.level_4 row; Levels.level_5 row]
             (Levels.lt_levels out).
Proof.
  intros Ht Hlast Hrow.
  pose proof (compute_adjustment_recent t rs Hlast) as Hadj. split; [done|].
  unfold Levels.adjust_row, bind in Hrow. rewrite Ht, Hadj in Hrow.
  destruct (Levels.adjust_levels _ _) as [levels|] eqn:Hlv; [|done].
  injection Hrow as <-. by apply adjust_levels_spec.
Qed.

Lemma X19_witness :
  let rs : list (Levels.rollover float) :=
    [ {| Levels.date := "2024-03-15"; Levels.switch_ms := 1710460800000;
         Levels.spread := 50.25%float; Levels.r_from := "ESH4"; Levels.r_to := "ESM4" |};
      {| Levels.date := "2024-06-14"; Levels.switch_ms := 1718323200000;
         Levels.spread := 60.5%float; Levels.r_from := "ESM4"; Levels.r_to := "ESU4" |} ] in
  let row := {| Levels.datetime := "2024-06-14 00:00:00";
                Levels.unix_timestamp := "1718323200000";
                Levels.sentiment := "BEARISH";
                Levels.level_1 := "5400.126"; Levels.level_2 := "5410";
                Levels.level_3 := "5420"; Levels.level_4 := "5390";
                Levels.level_5 := "5380" |} in
  let out := {| Levels.lt_datetime := "2024-06-14 00:00:00";
                Levels.lt_unix_timestamp := "1718323200000";
                Levels.lt_sentiment := "BEARISH";
                Levels.lt_levels := [5400.13; 5410; 5420; 5390; 5380]%float |} in
  Levels.to_int (Levels.unix_timestamp row) = Ok 1718323200000%Z
  /\ (forall r, r ∈ rs -> (Levels.switch_ms r <= 1718323200000)%Z)
  /\ Levels.adjust_row rs row = Ok out
  /\ Levels.compute_adjustment 1718323200000 rs = fzero
  /\ Forall2 (fun s v => exists raw, to_float s = Ok raw /\ v = fround2 (fadd raw fzero))
             [Levels.level_1 row; Levels.level_2 row; Levels.level_3 row;
              Levels.level_4 row; Levels.level_5 row]
             (Levels.lt_levels out).
Proof.
  intros rs row out.
  assert (Levels.to_int (Levels.unix_timestamp row) = Ok 1718323200000%Z) as Ht
    by reflexivity.
  assert (forall r, r ∈ rs -> (Levels.switch_ms r <= 1718323200000)%Z) as Hlast.
  { intros r Hr. repeat (apply elem_of_cons in Hr as [->|Hr]; [cbn; lia|]).
    destruct (proj1 (elem_of_nil r) Hr). }
  assert (Levels.adjust_row rs row = Ok out) as Hrow by (vm_compute; reflexivity).
  do 3 (split; [assumption|]).
  exact (X19_levels_after_the_last_rollover_only_rounded rs row out _ Ht Hlast Hrow).
Defined.

(** X20. When the adjuster completes, the count it returns is the number
    of records of the levels file, and the output holds the adjusted record
    of each of them, in the order of the file. *)
Theorem X20_adjuster_writes_one_record_per_record {num : Type} `{Arith num}
    (log : list Streaming.log_row) (lt_input : list Levels.lt_row)
    (out : option (list (Levels.lt_out num))) (n : nat) :
  Levels.main log lt_input = (out, Ok n) ->
  n = length lt_input
  /\ exists rs written,
       Levels.load_rollovers log = Ok rs /\ out = Some written
       /\ Forall2 (fun row o => Levels.adjust_row rs row = Ok o) lt_input written.
Proof.
  unfold Levels.main.
  destruct (Levels.load_rollovers log) as [rs|] eqn:Hload; [|done].
  destruct (Levels.adjust_rows rs lt_input []) as [written res] eqn:Hloop.
  intros [= <- ->].
  apply adjust_rows_spec in Hloop as (new & -> & -> & Hall). cbn [app] in *.
  split; [symmetry; by apply Forall2_length in Hall|]. by exists rs, new.
Qed.

Lemma X20_witness :
  let out := {| Levels.lt_datetime := "2024-03-14 22:59:59";
                Levels.lt_unix_timestamp := "1710457199000";
                Levels.lt_sentiment := "BULLISH";
                Levels.lt_levels := [4891; 4900; 4910; 4880; 4870]%Z |} in
  Levels.main Examples.log_int [Examples.lt_row_before] = (Some [out], Ok 1)
  /\ 1 = length [Examples.lt_row_before]
  /\ exists rs written,
       Levels.load_rollovers Examples.log_int = Ok rs /\ Some [out] = Some written
       /\ Forall2 (fun row o => Levels.adjust_row rs row = Ok o)
                  [Examples.lt_row_before] written.
Proof.
  intros out.
  assert (Levels.main Examples.log_int [Examples.lt_row_before] = (Some [out], Ok 1))
    as Hmain by (vm_compute; reflexivity).
  split; [exact Hmain|].
  exact (X20_adjuster_writes_one_record_per_record _ _ _ _ Hmain).
Defined.



(** ** The calendar of the rollover log *)

Section Calendar.
Import Levels Iso8601.
Local Open Scope Z_scope.


Lemma days_from_civil_shifted (y m d : Z) :
  0 <= (if m <=? 2 then y - 1 else y) ->
  days_from_civil y m d
  = (if m <=? 2 then days_to_march (y - 1) else days_to_march y)
    + (153 * ((m + 9) mod 12) + 2) / 5 + d - 719469.
Proof.
  unfold days_from_civil, days_to_march. cbv zeta.
  destruct (m <=? 2); intros Hy;
    generalize ((153 * ((m + 9) mod 12) + 2) / 5); intros doy;
    Z.to_euclidean_division_equations; lia.
Qed.

Lemma days_to_march_step (y : Z) :
  1 <= y ->
  days_to_march y = days_to_march (y - 1) + 365 + (if is_leap y then 1 else 0).
Proof.
  intros Hy. unfold is_leap, days_to_march.
  destruct (Z.eqb_spec (y mod 4) 0), (Z.eqb_spec (y mod 100) 0),
           (Z.eqb_spec (y mod 400) 0); cbn [negb andb orb];
    Z.to_euclidean_division_equations; lia.
Qed.

Lemma days_to_march_mono (y1 y2 : Z) :
  0 <= y1 <= y2 -> days_to_march y1 <= days_to_march y2.
Proof. intros Hy. unfold days_to_march. Z.to_euclidean_division_equations. lia. Qed.

Lemma month_cases (m : Z) :
  1 <= m <= 12 ->
  m = 1 \/ m = 2 \/ m = 3 \/ m = 4 \/ m = 5 \/ m = 6 \/ m = 7 \/ m = 8 \/ m = 9
  \/ m = 10 \/ m = 11 \/ m = 12.
Proof. lia. Qed.

(** A later date of the calendar has a greater day number. *)
Lemma days_from_civil_lt (y1 m1 d1 y2 m2 d2 : Z) :
  1 <= y1 -> 1 <= m1 <= 12 -> 1 <= d1 <= days_in_month y1 m1 ->
  1 <= y2 -> 1 <= m2 <= 12 -> 1 <= d2 <= days_in_month y2 m2 ->
  y1 < y2 \/ (y1 = y2 /\ (m1 < m2 \/ (m1 = m2 /\ d1 < d2))) ->
  days_from_civil y1 m1 d1 < days_from_civil y2 m2 d2.
Proof.
  intros Hy1 Hm1 Hd1 Hy2 Hm2 Hd2 Hlt.
  rewrite !days_from_civil_shifted by (destruct (_ <=? 2); lia).
  pose proof (days_to_march_step y1 Hy1) as Hs1.
  pose proof (days_to_march_step y2 Hy2) as Hs2.
  assert (y1 < y2 -> days_to_march y1 <= days_to_march (y2 - 1)) as Hmono
    by (intros ?; apply days_to_march_mono; lia).
  assert (y1 = y2 ->
          days_to_march y1 = days_to_march y2
          /\ days_to_march (y1 - 1) = days_to_march (y2 - 1)
          /\ is_leap y1 = is_leap y2) as Hsame
    by (by intros ->).
  unfold days_in_month in Hd1, Hd2.
  revert Hs1 Hs2 Hmono Hsame.
  generalize (days_to_march y1), (days_to_march (y1 - 1)),
    (days_to_march y2), (days_to_march (y2 - 1)).
  intros g1 g1' g2 g2' Hs1 Hs2 Hmono Hsame.
  destruct (is_leap y1), (is_leap y2);
    destruct (month_cases m1 Hm1) as [->|[->|[->|[->|[->|[->|[->|[->|[->|[->|[->| ->]]]]]]]]]]];
    destruct (month_cases m2 Hm2) as [->|[->|[->|[->|[->|[->|[->|[->|[->|[->|[->| ->]]]]]]]]]]];
    cbn in Hd1, Hd2 |- *;
    repeat match goal with
           | |- context [(153 * ((?a + 9) mod 12) + 2) / 5] =>
               let v := eval vm_compute in ((153 * ((a + 9) mod 12) + 2) / 5) in
               change ((153 * ((a + 9) mod 12) + 2) / 5) with v
           end;
    lia.
Qed.

End Calendar.

Section CalendarText.
Import Levels Iso8601.
Local Open Scope Z_scope.

Lemma digit_char_digit (d : Z) :
  0 <= d < 10 -> is_digit (digit_char d) = true /\ digit_val (digit_char d) = d.
Proof.
  intros Hd.
  assert (d = 0 \/ d = 1 \/ d = 2 \/ d = 3 \/ d = 4 \/ d = 5 \/ d = 6 \/ d = 7
          \/ d = 8 \/ d = 9) as Hcases by lia.
  destruct Hcases as [->|[->|[->|[->|[->|[->|[->|[->|[->| ->]]]]]]]]]; by vm_compute.
Qed.

(** Reading back a number written on [w] digits. *)
Lemma read_digits_zero_padded (w : nat) (n : Z) (rest : string) (acc : Z) (len : nat) :
  0 <= n < 10 ^ Z.of_nat w ->
  (forall acc' len', read_digits rest acc' len' = (acc', len', rest)) ->
  read_digits (zero_padded w n +:+ rest) acc len
  = (acc * 10 ^ Z.of_nat w + n, (len + w)%nat, rest).
Proof.
  intros Hn Hrest. revert n acc len Hn.
  induction w as [|w IH]; intros n acc len Hn.
  - cbn [zero_padded]. rewrite append_empty, Hrest.
    change (10 ^ Z.of_nat 0) with 1 in *.
    replace (acc * 1 + n) with acc by lia. by rewrite Nat.add_0_r.
  - cbn [zero_padded]. rewrite append_cons. cbn [read_digits].
    rewrite Nat2Z.inj_succ, Z.pow_succ_r in Hn by lia.
    assert (0 < 10 ^ Z.of_nat w) as Hpow by (apply Z.pow_pos_nonneg; lia).
    assert (0 <= n / 10 ^ Z.of_nat w < 10) as Hq.
    { split; [apply Z.div_pos; lia|]. apply Z.div_lt_upper_bound; lia. }
    destruct (digit_char_digit _ Hq) as [-> ->].
    rewrite IH by (apply Z.mod_pos_bound; lia).
    rewrite Nat2Z.inj_succ, Z.pow_succ_r by lia.
    replace (len + S w)%nat with (S len + w)%nat by lia.
    replace (acc * (10 * 10 ^ Z.of_nat w) + n)
      with ((10 * acc + n / 10 ^ Z.of_nat w) * 10 ^ Z.of_nat w + n mod 10 ^ Z.of_nat w);
      [done|].
    rewrite (Z.div_mod n (10 ^ Z.of_nat w)) at 3 by lia. ring.
Qed.

(** [strptime] reads back the date that was written. *)
Lemma strptime_iso_date (d : cal_date) :
  calendar_date d -> strptime_ymd (iso_date d) = Some (year d, month d, day d).
Proof.
  intros ((Hy1 & Hy2) & Hm & Hd). unfold strptime_ymd, iso_date.
  assert (days_in_month (year d) (month d) <= 31) as Hdim.
  { unfold days_in_month. repeat case_match; lia. }
  rewrite (read_digits_zero_padded 4) by (done || (simpl; lia)).
  cbn [Nat.add]. rewrite append_cons, append_empty.
  rewrite (read_digits_zero_padded 2) by (done || (simpl; lia)).
  rewrite append_cons, append_empty.
  assert (zero_padded 2 (day d) = zero_padded 2 (day d) +:+ "") as Hnil.
  { cbn [zero_padded]. by rewrite !append_cons, append_empty. }
  assert (match zero_padded 2 (day d) with
          | String " " (String c "") => String "0" (String c "")
          | _ => zero_padded 2 (day d)
          end = zero_padded 2 (day d)) as ->.
  { cbn [zero_padded].
    assert (day d / 10 ^ Z.of_nat 1 = 0 \/ day d / 10 ^ Z.of_nat 1 = 1
            \/ day d / 10 ^ Z.of_nat 1 = 2 \/ day d / 10 ^ Z.of_nat 1 = 3) as Hq.
    { change (10 ^ Z.of_nat 1) with 10. Z.to_euclidean_division_equations. lia. }
    by destruct Hq as [->|[->|[->| ->]]]. }
  rewrite Hnil, (read_digits_zero_padded 2) by (done || (simpl; lia)).
  cbn [Nat.add Nat.leb andb].
  replace (0 * 10 ^ Z.of_nat 4 + year d) with (year d) by lia.
  replace (0 * 10 ^ Z.of_nat 2 + month d) with (month d) by lia.
  replace (0 * 10 ^ Z.of_nat 2 + day d) with (day d) by lia.
  by rewrite !(proj2 (Z.leb_le _ _)) by lia.
Qed.

Lemma date_compare_days (a b : cal_date) :
  calendar_date a -> calendar_date b ->
  (days_from_civil (year a) (month a) (day a) * 86400000
   ?= days_from_civil (year b) (month b) (day b) * 86400000)
  = date_compare a b.
Proof.
  intros ((Hya & _) & Hma & Hda) ((Hyb & _) & Hmb & Hdb).
  pose proof (days_from_civil_lt (year a) (month a) (day a) (year b) (month b) (day b)
                Hya Hma Hda Hyb Hmb Hdb) as Hab.
  pose proof (days_from_civil_lt (year b) (month b) (day b) (year a) (month a) (day a)
                Hyb Hmb Hdb Hya Hma Hda) as Hba.
  unfold date_compare.
  destruct (Z.compare_spec (year a) (year b)) as [Hy|Hy|Hy].
  - destruct (Z.compare_spec (month a) (month b)) as [Hmo|Hmo|Hmo].
    + destruct (Z.compare_spec (day a) (day b)) as [Hdy|Hdy|Hdy].
      * rewrite Hy, Hmo, Hdy. apply Z.compare_refl.
      * apply Z.compare_lt_iff. specialize (Hab ltac:(lia)). lia.
      * apply Z.compare_gt_iff. specialize (Hba ltac:(lia)). lia.
    + apply Z.compare_lt_iff. specialize (Hab ltac:(lia)). lia.
    + apply Z.compare_gt_iff. specialize (Hba ltac:(lia)). lia.
  - apply Z.compare_lt_iff. specialize (Hab ltac:(lia)). lia.
  - apply Z.compare_gt_iff. specialize (Hba ltac:(lia)). lia.
Qed.

Lemma calendar_date_valid (d : cal_date) : calendar_date d -> valid_date d.
Proof.
  intros ((Hy1 & Hy2) & Hm & Hd). split; [lia|]. split; [done|].
  assert (days_in_month (year d) (month d) <= 31) as Hdim.
  { unfold days_in_month. repeat case_match; lia. }
  lia.
Qed.

End CalendarText.

(** X4. A date of the calendar, of the years 1 to 9999, written as
    [YYYY-MM-DD] is read back by [strptime] as the same year, month and day,
    and the switch time [load_rollovers] computes for it is its day number
    since 1970-01-01 times 86400000 milliseconds. *)
Theorem X4_midnight_ms_reads_back_the_date (d : Iso8601.cal_date) :
  Iso8601.calendar_date d ->
  Levels.strptime_ymd (Iso8601.iso_date d)
  = Some (Iso8601.year d, Iso8601.month d, Iso8601.day d)
  /\ Levels.midnight_ms (Iso8601.iso_date d)
     = Ok (Levels.days_from_civil (Iso8601.year d) (Iso8601.month d) (Iso8601.day d)
           * 86400000)%Z.
Proof.
  intros Hd. unfold Levels.midnight_ms. by rewrite (strptime_iso_date d Hd).
Qed.

Lemma X4_witness :
  let d := {| Iso8601.year := 2024; Iso8601.month := 2; Iso8601.day := 29 |} in
  Iso8601.calendar_date d
  /\ Iso8601.iso_date d = "2024-02-29"
  /\ Levels.strptime_ymd (Iso8601.iso_date d) = Some (2024, 2, 29)%Z
  /\ Levels.midnight_ms (Iso8601.iso_date d) = Ok (19782 * 86400000)%Z.
Proof.
  intros d.
  assert (Iso8601.calendar_date d) as Hd by (unfold Iso8601.calendar_date; repeat split; by vm_compute).
  split; [exact Hd|]. split; [reflexivity|].
  exact (X4_midnight_ms_reads_back_the_date d Hd).
Defined.


